(** * Bedrock Voice Chat Stream Deck plugin: the connection manager

    A shallow embedding of [src/ws-manager.ts] (class [WsManager]), of the
    types of [src/types.ts], and of the key actions of
    [src/actions/deafen.ts] and [src/actions/record.ts] with the image
    paths of [src/icons.ts], with the properties of the connection and
    state-synchronisation core stated over it.

    Conventions of the embedding.
    - A JavaScript string is a [string]; each character stands for one
      UTF-16 code unit below 256.  White space is therefore the set
      TAB, LF, VT, FF, CR, SPACE and NBSP.
    - [null] and [undefined] are [None].
    - The manager object is a record that is threaded through every method;
      the sockets created by [new WebSocket], the timers created by
      [setTimeout]/[setInterval] and everything the manager does to the
      outside (frames, probes, notifications, callbacks) live in a [World]
      around it.
    - The handlers registered with [ws.on] and the timer callbacks are the
      events of a step function: they run one at a time, to completion, in
      arrival order.  The [ws] library emits the [close] event of a socket
      after [terminate] has returned, never during the call.
    - The constructor of the [ws] library throws for a URL it cannot
      parse.  Its parser is not part of this repository: the manager is
      embedded in a section over [valid_url], the verdict of the runtime on
      a host and a port, and every property holds whatever the runtime
      accepts.  The instances at the end of the file fix one runtime.
    - Calls of [streamDeck.logger] only write diagnostics and are left out. *)

From Stdlib Require Import ZArith String Ascii List Bool Lia.
Set Warnings "-register-all".
From stdpp Require Import base list.
Import ListNotations.

Local Open Scope string_scope.
Local Open Scope list_scope.
Local Open Scope Z_scope.

(** ** Constants of [ws-manager.ts] *)

Definition DEFAULT_HOST : string := "127.0.0.1".
Definition DEFAULT_PORT : Z := 9595.
Definition RECONNECT_BASE_MS : Z := 1000.
Definition RECONNECT_MAX_MS : Z := 30000.
Definition PING_INTERVAL_MS : Z := 15000.
Definition STABLE_THRESHOLD_MS : Z := 30000.

(** ** Strings: [trim] and [parseInt] *)

Module JsString.

(** The white space and line terminators below code unit 256. *)
Definition is_white (c : ascii) : bool :=
  let n := N_of_ascii c in
  (N.leb 9 n && N.leb n 13 || N.eqb n 32 || N.eqb n 160)%N.

Fixpoint trimStart (s : string) : string :=
  match s with
  | String c r => if is_white c then trimStart r else s
  | EmptyString => EmptyString
  end.

Fixpoint rev (s : string) : string :=
  match s with
  | EmptyString => EmptyString
  | String c r => (rev r ++ String c EmptyString)%string
  end.

Definition trimEnd (s : string) : string := rev (trimStart (rev s)).

(** [String.prototype.trim] *)
Definition trim (s : string) : string := trimEnd (trimStart s).

Definition digit (c : ascii) : option Z :=
  let n := N_of_ascii c in
  if (N.leb 48 n && N.leb n 57)%N then Some (Z.of_N n - 48) else None.

(** The value of the longest prefix of decimal digits, [acc] being the
    value of the digits read so far ([None] while none was read). *)
Fixpoint leading_digits (acc : option Z) (s : string) : option Z :=
  match s with
  | String c r =>
      match digit c with
      | Some d => leading_digits (Some (10 * default 0 acc + d)) r
      | None => acc
      end
  | EmptyString => acc
  end.

(** A JavaScript number as far as the port needs it.  The integers are
    exact: a digit string too long for a double rounds to a double (or to
    [Infinity]) that is on the same side of every bound used below. *)
Inductive number : Type :=
| NaN
| Infinity (negative : bool)
| Int (z : Z).

Definition of_digits (neg : bool) (o : option Z) : number :=
  match o with
  | Some z => Int (if neg then - z else z)
  | None => NaN
  end.

(** [parseInt(s, 10)]: skip leading white space, read one optional sign,
    then the longest run of decimal digits; whatever follows is ignored. *)
Definition parseInt10 (s : string) : number :=
  match trimStart s with
  | String "-"%char r => of_digits true (leading_digits None r)
  | String "+"%char r => of_digits false (leading_digits None r)
  | t => of_digits false (leading_digits None t)
  end.

(** [Number.isFinite] *)
Definition isFinite (n : number) : bool :=
  match n with Int _ => true | _ => false end.

Definition all_digits (s : string) : bool :=
  forallb (fun c => match digit c with Some _ => true | None => false end)
          (list_ascii_of_string s).

End JsString.

(** ** Connection settings ([parsePort], [applySettings]) *)

(** The argument of [parsePort] as [applySettings] passes it: [s.port],
    which [GlobalSettings] declares a string or absent.  The signature of
    [parsePort] also admits a number, which the test
    [typeof value === "number"] would take as it is, fractions included;
    with the declared type of the settings that arm is never taken, and the
    embedding covers the strings. *)
Inductive PortValue : Type :=
| PortUndefined
| PortString (s : string).

Definition parsePort (value : PortValue) : Z :=
  match value with
  | PortUndefined | PortString EmptyString => DEFAULT_PORT
  | PortString s =>
      let n := JsString.parseInt10 s in
      match n with
      | JsString.Int z => if (0 <? z) && (z <=? 65535) then z else DEFAULT_PORT
      | _ => DEFAULT_PORT
      end
  end.

(** [GlobalSettings] of [types.ts]: three optional strings. *)
Record GlobalSettings : Type := mkSettings {
  gs_host : option string;
  gs_port : option string;
  gs_authenticationKey : option string
}.

(** ** The types of [types.ts] *)

Inductive Device : Type := input | output.

Inductive BvcCommand : Type :=
| CmdPing
| CmdMute (device : Device)
| CmdRecord
| CmdState.

Record BvcState : Type := mkState {
  connected : bool;
  inputMuted : option bool;
  outputMuted : option bool;
  recording : option bool
}.

Inductive BvcStateEvent : Type :=
| connectionChanged (c : bool)
| inputMuteChanged (muted : option bool)
| outputMuteChanged (muted : option bool)
| recordingChanged (rec : option bool).

(** ** Parsed JSON

    What [JSON.parse] returns.  An object is the list of its properties
    ([get] reads the first binding of a name); of a number the handlers
    only ever observe whether it is zero. *)

Inductive json : Type :=
| JNull
| JBool (b : bool)
| JNum (z : Z)
| JStr (s : string)
| JArr (items : list json)
| JObj (props : list (string * json)).

Module Js.

Fixpoint assoc {A} (k : string) (l : list (string * A)) : option A :=
  match l with
  | [] => None
  | (k', v) :: r => if String.eqb k k' then Some v else assoc k r
  end.

(** [v.k]; [None] is [undefined].  None of the names the manager reads
    is a property of an array, a string, a number or a boolean. *)
Definition get (v : json) (k : string) : option json :=
  match v with
  | JObj props => assoc k props
  | _ => None
  end.

(** Truthiness, as tested by [!v] and [v || d]. *)
Definition truthy (v : option json) : bool :=
  match v with
  | None | Some JNull => false
  | Some (JBool b) => b
  | Some (JNum z) => negb (z =? 0)
  | Some (JStr s) => negb (String.eqb s EmptyString)
  | Some (JArr _) | Some (JObj _) => true
  end.

(** [typeof v === "object"] for a truthy [v]. *)
Definition is_object (v : json) : bool :=
  match v with JArr _ | JObj _ => true | _ => false end.

(** [v === b] *)
Definition is_bool (v : option json) (b : bool) : bool :=
  match v with Some (JBool b') => Bool.eqb b' b | _ => false end.

(** [v === s] *)
Definition is_str (v : option json) (s : string) : bool :=
  match v with Some (JStr s') => String.eqb s' s | _ => false end.

(** [typeof v === "boolean"], with the boolean when it is one. *)
Definition as_bool (v : option json) : option bool :=
  match v with Some (JBool b) => Some b | _ => None end.

(** [JSON.stringify] of a string: the quotation mark and the reverse
    solidus are preceded by a reverse solidus, the control characters 8, 9,
    10, 12 and 13 are written with their letter, the other code units
    below 32 as four hexadecimal digits in lower case, and every other code
    unit as it is. *)
Definition hex (n : N) : ascii :=
  ascii_of_N (if (n <? 10)%N then 48 + n else 87 + n).

Definition escape (c : ascii) : string :=
  let n := N_of_ascii c in
  if (n =? 8)%N then "\b"
  else if (n =? 9)%N then "\t"
  else if (n =? 10)%N then "\n"
  else if (n =? 12)%N then "\f"
  else if (n =? 13)%N then "\r"
  else if (n =? 34)%N then String "\"%char (String c EmptyString)
  else if (n =? 92)%N then String c (String c EmptyString)
  else if (n <? 32)%N then
    ("\u00" ++ String (hex (n / 16)) (String (hex (n mod 16)) EmptyString))%string
  else String c EmptyString.

Fixpoint escape_all (s : string) : string :=
  match s with
  | EmptyString => EmptyString
  | String c r => (escape c ++ escape_all r)%string
  end.

Definition quote (s : string) : string :=
  String "034"%char (escape_all s ++ String "034"%char EmptyString)%string.

Fixpoint members (l : list (string * string)) : string :=
  match l with
  | [] => EmptyString
  | [(k, v)] => (quote k ++ ":" ++ quote v)%string
  | (k, v) :: r => (quote k ++ ":" ++ quote v ++ "," ++ members r)%string
  end.

(** [JSON.stringify] of an object whose properties are all strings. *)
Definition stringify (l : list (string * string)) : string :=
  ("{" ++ members l ++ "}")%string.

End Js.

(** ** The image paths of [icons.ts] *)

Module icons.
Definition micOn : string := "imgs/actions/mute/key-on".
Definition micOff : string := "imgs/actions/mute/key-off".
Definition micDisconnected : string := "imgs/actions/mute/key-disconnected".
Definition headphonesOn : string := "imgs/actions/deafen/key-on".
Definition headphonesOff : string := "imgs/actions/deafen/key-off".
Definition headphonesDisconnected : string := "imgs/actions/deafen/key-disconnected".
Definition recordOn : string := "imgs/actions/record/key-on".
Definition recordOff : string := "imgs/actions/record/key-off".
Definition recordDisconnected : string := "imgs/actions/record/key-disconnected".
End icons.

(** ** The manager and the world around it *)

(** A failure callback ([onError]) is a closure; the model knows it by a
    number and records when it is called. *)
Definition Callback : Type := nat.

Record WsManager : Type := mkManager {
  ws : option nat;
  host : string;
  port : Z;
  authenticationKey : string;
  reconnectTimer : option nat;
  pingTimer : option nat;
  stableTimer : option nat;
  awaitingPong : bool;
  backoffAttempts : nat;
  intentionalClose : bool;
  pendingErrorCallback : option Callback;
  state : BvcState
}.

(** [readyState] of a socket of the [ws] library. *)
Inductive ReadyState : Type := CONNECTING | OPEN | CLOSING | CLOSED.

Inductive TimerKind : Type :=
| ReconnectTimer (delay : Z)
| PingTimer (interval : Z)
| StableTimer (delay : Z).

(** What the manager does to the outside, in the order it does it.
    [Throw h p] is the [SyntaxError] that [new WebSocket] throws for a URL
    it cannot parse; nothing in the manager catches it. *)
Inductive Effect : Type :=
| NewSocket (k : nat) (h : string) (p : Z)
| Transmit (k : nat) (frame : string)
| Probe (k : nat)
| Terminate (k : nat)
| Emit (ev : BvcStateEvent)
| Invoke (cb : Callback)
| Throw (h : string) (p : Z).

(** [sockets] holds the ready state of every socket ever created, a socket
    being known by its index; [timers] holds the timers that are pending. *)
Record World : Type := mkWorld {
  this : WsManager;
  sockets : list ReadyState;
  timers : list (nat * TimerKind);
  next_timer : nat;
  out : list Effect
}.

Definition initial_manager : WsManager :=
  {| ws := None; host := DEFAULT_HOST; port := DEFAULT_PORT;
     authenticationKey := EmptyString;
     reconnectTimer := None; pingTimer := None; stableTimer := None;
     awaitingPong := false; backoffAttempts := 0%nat;
     intentionalClose := false; pendingErrorCallback := None;
     state := {| connected := false; inputMuted := None;
                 outputMuted := None; recording := None |} |}.

Definition initial_world : World :=
  {| this := initial_manager; sockets := []; timers := [];
     next_timer := 0%nat; out := [] |}.

(** *** Assignments to the fields *)

Section Assign.
Variable m : WsManager.

Definition set_ws v := mkManager v (host m) (port m) (authenticationKey m)
  (reconnectTimer m) (pingTimer m) (stableTimer m) (awaitingPong m)
  (backoffAttempts m) (intentionalClose m) (pendingErrorCallback m) (state m).
Definition set_config h p k := mkManager (ws m) h p k
  (reconnectTimer m) (pingTimer m) (stableTimer m) (awaitingPong m)
  (backoffAttempts m) (intentionalClose m) (pendingErrorCallback m) (state m).
Definition set_reconnectTimer v := mkManager (ws m) (host m) (port m)
  (authenticationKey m) v (pingTimer m) (stableTimer m) (awaitingPong m)
  (backoffAttempts m) (intentionalClose m) (pendingErrorCallback m) (state m).
Definition set_pingTimer v := mkManager (ws m) (host m) (port m)
  (authenticationKey m) (reconnectTimer m) v (stableTimer m) (awaitingPong m)
  (backoffAttempts m) (intentionalClose m) (pendingErrorCallback m) (state m).
Definition set_stableTimer v := mkManager (ws m) (host m) (port m)
  (authenticationKey m) (reconnectTimer m) (pingTimer m) v (awaitingPong m)
  (backoffAttempts m) (intentionalClose m) (pendingErrorCallback m) (state m).
Definition set_awaitingPong v := mkManager (ws m) (host m) (port m)
  (authenticationKey m) (reconnectTimer m) (pingTimer m) (stableTimer m) v
  (backoffAttempts m) (intentionalClose m) (pendingErrorCallback m) (state m).
Definition set_backoffAttempts v := mkManager (ws m) (host m) (port m)
  (authenticationKey m) (reconnectTimer m) (pingTimer m) (stableTimer m)
  (awaitingPong m) v (intentionalClose m) (pendingErrorCallback m) (state m).
Definition set_intentionalClose v := mkManager (ws m) (host m) (port m)
  (authenticationKey m) (reconnectTimer m) (pingTimer m) (stableTimer m)
  (awaitingPong m) (backoffAttempts m) v (pendingErrorCallback m) (state m).
Definition set_pendingErrorCallback v := mkManager (ws m) (host m) (port m)
  (authenticationKey m) (reconnectTimer m) (pingTimer m) (stableTimer m)
  (awaitingPong m) (backoffAttempts m) (intentionalClose m) v (state m).
Definition set_state v := mkManager (ws m) (host m) (port m)
  (authenticationKey m) (reconnectTimer m) (pingTimer m) (stableTimer m)
  (awaitingPong m) (backoffAttempts m) (intentionalClose m)
  (pendingErrorCallback m) v.
End Assign.

Definition set_connected (c : bool) (s : BvcState) : BvcState :=
  mkState c (inputMuted s) (outputMuted s) (recording s).
Definition set_inputMuted (v : option bool) (s : BvcState) : BvcState :=
  mkState (connected s) v (outputMuted s) (recording s).
Definition set_outputMuted (v : option bool) (s : BvcState) : BvcState :=
  mkState (connected s) (inputMuted s) v (recording s).
Definition set_recording (v : option bool) (s : BvcState) : BvcState :=
  mkState (connected s) (inputMuted s) (outputMuted s) v.

(** [this.f = v] inside a world. *)
Definition assign (f : WsManager -> WsManager) (w : World) : World :=
  mkWorld (f (this w)) (sockets w) (timers w) (next_timer w) (out w).

(** [this.state.f = v] *)
Definition assign_state (f : BvcState -> BvcState) (w : World) : World :=
  assign (fun m => set_state m (f (state m))) w.

Definition effect (e : Effect) (w : World) : World :=
  mkWorld (this w) (sockets w) (timers w) (next_timer w) (out w ++ [e]).

(** *** The [ws] library and the timers, as far as the manager uses them *)

Definition readyState (k : nat) (w : World) : option ReadyState :=
  sockets w !! k.

Definition is_open (k : nat) (w : World) : bool :=
  match readyState k w with Some OPEN => true | _ => false end.

(** A runtime for the instances below: it accepts the hosts written with
    letters, digits, dots and hyphens, and refuses every other one. *)
Definition plain_char (c : ascii) : bool :=
  let n := N_of_ascii c in
  ((48 <=? n) && (n <=? 57) || (65 <=? n) && (n <=? 90)
   || (97 <=? n) && (n <=? 122) || (n =? 45) || (n =? 46))%N.

Definition plain_hosts (h : string) (p : Z) : bool :=
  negb (String.eqb h EmptyString) && forallb plain_char (list_ascii_of_string h).

Section Runtime.

(** The constructor of the [ws] library parses its URL before anything else
    and throws a [SyntaxError] when the text is not a URL, or is one with a
    fragment.  The parser belongs to the runtime, not to this repository:
    [valid_url h p] tells whether it accepts [ws://h:p/ws]. *)
Variable valid_url : string -> Z -> bool.

Set Default Proof Using "Type".

(** [new WebSocket(`ws://${host}:${port}/ws`, ...)]: a fresh socket, not yet
    open, or [None] when the constructor throws.  The handlers of a socket
    are the [on_*] functions below; they close over the manager, not over
    the socket. *)
Definition newWebSocket (h : string) (p : Z) (w : World) : option nat * World :=
  if valid_url h p then
    let k := length (sockets w) in
    (Some k, effect (NewSocket k h p)
               (mkWorld (this w) (sockets w ++ [CONNECTING]) (timers w)
                        (next_timer w) (out w)))
  else (None, effect (Throw h p) w).

Definition set_readyState (k : nat) (r : ReadyState) (w : World) : World :=
  mkWorld (this w) (<[k := r]> (sockets w)) (timers w) (next_timer w) (out w).

(** [ws.terminate()]: the socket is destroyed; the library reports it with
    a [close] event afterwards, not during the call.  A socket that is
    already closed is left alone. *)
Definition terminate (k : nat) (w : World) : World :=
  let w := effect (Terminate k) w in
  match readyState k w with
  | Some CLOSED | None => w
  | Some _ => set_readyState k CLOSING w
  end.

(** [setTimeout] and [setInterval]: a fresh pending timer. *)
Definition setTimer (kind : TimerKind) (w : World) : nat * World :=
  let t := next_timer w in
  (t, mkWorld (this w) (sockets w) (timers w ++ [(t, kind)]) (S t) (out w)).

(** [clearTimeout] and [clearInterval] *)
Definition clearTimer (t : nat) (w : World) : World :=
  mkWorld (this w) (sockets w)
          (List.filter (fun e => negb (Nat.eqb (fst e) t)) (timers w))
          (next_timer w) (out w).

Definition pending_timer (t : nat) (w : World) : option TimerKind :=
  snd <$> List.find (fun e => Nat.eqb (fst e) t) (timers w).

(** ** The methods of [WsManager] *)

(** [applySettings]: returns whether a connection-relevant value changed. *)
Definition applySettings (s : GlobalSettings) (w : World) : bool * World :=
  let newHost :=
    match JsString.trim <$> gs_host s with
    | None | Some EmptyString => DEFAULT_HOST
    | Some h => h
    end in
  let newPort :=
    parsePort (match gs_port s with
               | Some p => PortString p
               | None => PortUndefined
               end) in
  let newKey := default EmptyString (JsString.trim <$> gs_authenticationKey s) in
  let changed :=
    negb (String.eqb newHost (host (this w)))
    || negb (newPort =? port (this w))
    || negb (String.eqb newKey (authenticationKey (this w))) in
  (changed, assign (fun m => set_config m newHost newPort newKey) w).

(** [emit]: every listener of the set is called with the event.  The
    listeners of this repository only read [state] and redraw a key; the
    model records the call and leaves the set kept by [on] out. *)
Definition emit (ev : BvcStateEvent) (w : World) : World := effect (Emit ev) w.

(** The own properties of [{ ...cmd }]. *)
Definition spread (cmd : BvcCommand) : list (string * string) :=
  match cmd with
  | CmdPing => [("action", "ping")]
  | CmdMute input => [("action", "mute"); ("device", "input")]
  | CmdMute output => [("action", "mute"); ("device", "output")]
  | CmdRecord => [("action", "record")]
  | CmdState => [("action", "state")]
  end.

Definition payload (key : string) (cmd : BvcCommand) : list (string * string) :=
  if String.eqb key EmptyString then spread cmd
  else spread cmd ++ [("key", key)].

Definition send (cmd : BvcCommand) (onError : option Callback) (w : World)
  : bool * World :=
  match ws (this w) with
  | Some k =>
      if is_open k w then
        let p := payload (authenticationKey (this w)) cmd in
        let w := assign (fun m => set_pendingErrorCallback m onError) w in
        (true, effect (Transmit k (Js.stringify p)) w)
      else (false, w)
  | None => (false, w)
  end.

Definition setConnected (c : bool) (w : World) : World :=
  emit (connectionChanged c) (assign_state (set_connected c) w).

Definition setDisconnectedState (w : World) : World :=
  let w := match inputMuted (state (this w)) with
           | Some _ => emit (inputMuteChanged None)
                            (assign_state (set_inputMuted None) w)
           | None => w
           end in
  let w := match outputMuted (state (this w)) with
           | Some _ => emit (outputMuteChanged None)
                            (assign_state (set_outputMuted None) w)
           | None => w
           end in
  match recording (state (this w)) with
  | Some _ => emit (recordingChanged None) (assign_state (set_recording None) w)
  | None => w
  end.

(** [Math.min(RECONNECT_BASE_MS * Math.pow(2, n), RECONNECT_MAX_MS)]; the
    double arithmetic is exact below the ceiling and saturates at
    [Infinity] far above it, so the minimum is the integer one. *)
Definition reconnect_delay (n : nat) : Z :=
  Z.min (RECONNECT_BASE_MS * 2 ^ Z.of_nat n) RECONNECT_MAX_MS.

Definition scheduleReconnect (w : World) : World :=
  let delay := reconnect_delay (backoffAttempts (this w)) in
  let w := assign (fun m => set_backoffAttempts m (S (backoffAttempts m))) w in
  let '(t, w) := setTimer (ReconnectTimer delay) w in
  assign (fun m => set_reconnectTimer m (Some t)) w.

Definition startPing (w : World) : World :=
  let w := assign (fun m => set_awaitingPong m false) w in
  let '(t, w) := setTimer (PingTimer PING_INTERVAL_MS) w in
  assign (fun m => set_pingTimer m (Some t)) w.

Definition stopPing (w : World) : World :=
  let w := match pingTimer (this w) with
           | Some t => assign (fun m => set_pingTimer m None) (clearTimer t w)
           | None => w
           end in
  assign (fun m => set_awaitingPong m false) w.

Definition startStableTimer (w : World) : World :=
  let '(t, w) := setTimer (StableTimer STABLE_THRESHOLD_MS) w in
  assign (fun m => set_stableTimer m (Some t)) w.

Definition stopStableTimer (w : World) : World :=
  match stableTimer (this w) with
  | Some t => assign (fun m => set_stableTimer m None) (clearTimer t w)
  | None => w
  end.

(** [connect].  When the constructor throws, the error leaves [connect] at
    that statement: the registrations and [this.ws = ws] are skipped, and
    the error reaches the caller.  Each caller ([initialize], the settings
    listener, the reconnect callback) calls [connect] as its last
    statement, so nothing else is skipped. *)
Definition connect (w : World) : World :=
  let w := match reconnectTimer (this w) with
           | Some t => assign (fun m => set_reconnectTimer m None) (clearTimer t w)
           | None => w
           end in
  let w := match ws (this w) with
           | Some k =>
               let w := assign (fun m => set_intentionalClose m true) w in
               let w := terminate k w in
               assign (fun m => set_ws m None) w
           | None => w
           end in
  let w := assign (fun m => set_intentionalClose m false) w in
  let '(r, w) := newWebSocket (host (this w)) (port (this w)) w in
  match r with
  | Some k => assign (fun m => set_ws m (Some k)) w
  | None => w
  end.

Definition disconnect (w : World) : World :=
  let w := assign (fun m => set_intentionalClose m true) w in
  let w := match reconnectTimer (this w) with
           | Some t => assign (fun m => set_reconnectTimer m None) (clearTimer t w)
           | None => w
           end in
  let w := stopPing w in
  let w := stopStableTimer w in
  let w := match ws (this w) with
           | Some k => assign (fun m => set_ws m None) (terminate k w)
           | None => w
           end in
  if connected (state (this w))
  then setDisconnectedState (setConnected false w)
  else w.

(** [a !== b] on [boolean | null] *)
Definition differs (a b : option bool) : bool :=
  match a, b with
  | Some x, Some y => negb (Bool.eqb x y)
  | None, None => false
  | _, _ => true
  end.

Definition update_inputMuted (v : bool) (w : World) : World :=
  if differs (inputMuted (state (this w))) (Some v)
  then emit (inputMuteChanged (Some v)) (assign_state (set_inputMuted (Some v)) w)
  else w.

Definition update_outputMuted (v : bool) (w : World) : World :=
  if differs (outputMuted (state (this w))) (Some v)
  then emit (outputMuteChanged (Some v)) (assign_state (set_outputMuted (Some v)) w)
  else w.

Definition update_recording (v : bool) (w : World) : World :=
  if differs (recording (state (this w))) (Some v)
  then emit (recordingChanged (Some v)) (assign_state (set_recording (Some v)) w)
  else w.

Definition handleMessage (data : json) (w : World) : World :=
  let muted := Js.as_bool (Js.get data "muted") in
  let deafened := Js.as_bool (Js.get data "deafened") in
  let rec := Js.as_bool (Js.get data "recording") in
  if Js.is_bool (Js.get data "pong") true then w
  else
    match Js.is_str (Js.get data "device") "input", muted with
    | true, Some m => update_inputMuted m w
    | _, _ =>
    match Js.is_str (Js.get data "device") "output", muted with
    | true, Some m => update_outputMuted m w
    | _, _ =>
    match muted, deafened, rec with
    | Some m, Some d, Some r =>
        update_recording r (update_outputMuted d (update_inputMuted m w))
    | _, _, _ =>
    match rec with
    | Some r => update_recording r w
    | None => w
    end end end end.

(** ** The handlers that [connect] registers on a socket

    Each closes over the manager only, so the handler of a socket that was
    superseded acts on whatever the manager holds when the event arrives. *)

Definition on_open (w : World) : World :=
  let w := setConnected true w in
  let w := snd (send CmdState None w) in
  let w := startPing w in
  startStableTimer w.

Definition on_close (w : World) : World :=
  let w := stopPing w in
  let w := stopStableTimer w in
  let w := assign (fun m => set_ws m None) w in
  let w := if connected (state (this w))
           then setDisconnectedState (setConnected false w)
           else w in
  if intentionalClose (this w) then w else scheduleReconnect w.

Definition on_pong (w : World) : World :=
  assign (fun m => set_awaitingPong m false) w.

(** The [error] handler only logs. *)
Definition on_error (w : World) : World := w.

(** [this.pendingErrorCallback?.()] *)
Definition call_pending (w : World) : World :=
  match pendingErrorCallback (this w) with
  | Some cb => effect (Invoke cb) w
  | None => w
  end.

(** The [message] handler; [raw] is [None] when [JSON.parse] throws, which
    the handler catches. *)
Definition on_message (raw : option json) (w : World) : World :=
  match raw with
  | None => w
  | Some msg =>
      if negb (Js.truthy (Some msg)) || negb (Js.is_object msg) then w
      else if Js.is_bool (Js.get msg "success") false then
        let w := call_pending w in
        assign (fun m => set_pendingErrorCallback m None) w
      else if negb (Js.truthy (Js.get msg "data")) then w
      else match Js.get msg "data" with
           | Some data => handleMessage data w
           | None => w
           end
  end.

(** ** The timer callbacks *)

(** The callback of [setInterval] in [startPing]. *)
Definition ping_tick (w : World) : World :=
  if awaitingPong (this w) then
    match ws (this w) with
    | Some k => terminate k w
    | None => w
    end
  else
    match ws (this w) with
    | Some k =>
        if is_open k w
        then effect (Probe k) (assign (fun m => set_awaitingPong m true) w)
        else w
    | None => w
    end.

(** The callback of [setTimeout] in [scheduleReconnect]. *)
Definition reconnect_fire (w : World) : World :=
  connect (assign (fun m => set_reconnectTimer m None) w).

(** The callback of [setTimeout] in [startStableTimer]. *)
Definition stable_fire (w : World) : World :=
  assign (fun m => set_backoffAttempts m 0%nat) w.

(** ** [initialize] and the settings listener *)

Definition initialize (s : GlobalSettings) (w : World) : World :=
  connect (snd (applySettings s w)).

Definition on_settings (s : GlobalSettings) (w : World) : World :=
  let '(changed, w) := applySettings s w in
  if changed then
    let w := disconnect w in
    let w := assign (fun m => set_backoffAttempts m 0%nat) w in
    connect w
  else w.

(** ** The event loop

    One event is one run-to-completion callback.  A socket event is enabled
    by the ready state of its socket: [open] on a connecting socket,
    [message] and [pong] on an open one, [close] on any socket that is not
    closed yet; a timer fires only while it is pending, a timeout once. *)

Inductive Event : Type :=
| Initialize (s : GlobalSettings)
| SettingsReceived (s : GlobalSettings)
| SendCommand (cmd : BvcCommand) (onError : option Callback)
| Connect
| Disconnect
| SocketOpen (k : nat)
| SocketClose (k : nat)
| SocketError (k : nat)
| SocketPong (k : nat)
| SocketMessage (k : nat) (raw : option json)
| TimerFires (t : nat).

Definition step (e : Event) (w : World) : option World :=
  match e with
  | Initialize s => Some (initialize s w)
  | SettingsReceived s => Some (on_settings s w)
  | SendCommand cmd cb => Some (snd (send cmd cb w))
  | Connect => Some (connect w)
  | Disconnect => Some (disconnect w)
  | SocketOpen k =>
      match readyState k w with
      | Some CONNECTING => Some (on_open (set_readyState k OPEN w))
      | _ => None
      end
  | SocketClose k =>
      match readyState k w with
      | Some CLOSED | None => None
      | Some _ => Some (on_close (set_readyState k CLOSED w))
      end
  | SocketError k =>
      match readyState k w with
      | Some CLOSED | None => None
      | Some _ => Some (on_error w)
      end
  | SocketPong k => if is_open k w then Some (on_pong w) else None
  | SocketMessage k raw => if is_open k w then Some (on_message raw w) else None
  | TimerFires t =>
      match pending_timer t w with
      | Some (ReconnectTimer _) => Some (reconnect_fire (clearTimer t w))
      | Some (StableTimer _) => Some (stable_fire (clearTimer t w))
      | Some (PingTimer _) => Some (ping_tick w)
      | None => None
      end
  end.

(** A sequence of events, from a world; [None] when one of them is not
    enabled where it stands. *)
Fixpoint run (es : list Event) (w : World) : option World :=
  match es with
  | [] => Some w
  | e :: es => match step e w with
               | Some w' => run es w'
               | None => None
               end
  end.

(** * Vocabulary of the properties *)

(** A session is open when the manager holds a socket whose ready state is
    [OPEN]: the test [this.ws?.readyState === WebSocket.OPEN]. *)
Definition session_open (w : World) : bool :=
  match ws (this w) with
  | Some k => is_open k w
  | None => false
  end.

(** The callbacks called so far, in order. *)
Definition invoked (w : World) : list Callback :=
  omap (fun e => match e with Invoke cb => Some cb | _ => None end) (out w).

(** The notifications emitted so far, in order. *)
Definition emitted (w : World) : list BvcStateEvent :=
  omap (fun e => match e with Emit ev => Some ev | _ => None end) (out w).

(** The frames transmitted so far, in order. *)
Definition transmitted (w : World) : list (nat * string) :=
  omap (fun e => match e with Transmit k f => Some (k, f) | _ => None end)
       (out w).

(** The text of [s] between quotation marks, nothing escaped. *)
Definition lit (s : string) : string :=
  String "034"%char (s ++ String "034"%char EmptyString)%string.

(** The [key] member of a frame, as text: absent when the secret is
    empty. *)
Definition key_member (key : string) : string :=
  if String.eqb key EmptyString then EmptyString
  else ("," ++ lit "key" ++ ":" ++ Js.quote key)%string.

(** A code unit that a JSON string holds as it is. *)
Definition verbatim (c : ascii) : bool :=
  let n := N_of_ascii c in
  ((32 <=? n) && negb (n =? 34) && negb (n =? 92))%N.

(** Reading a JSON string literal, by the grammar of JSON (RFC 8259,
    section 7): what the parser of the receiver recovers from the text.
    A control character must be escaped; an escape is a reverse solidus
    followed by a quotation mark, a reverse solidus, a solidus, one of the
    letters b, f, n, r, t, or the letter u and four hexadecimal digits. *)
Definition hex_value (c : ascii) : option N :=
  let n := N_of_ascii c in
  if ((48 <=? n) && (n <=? 57))%N then Some (n - 48)%N
  else if ((97 <=? n) && (n <=? 102))%N then Some (n - 87)%N
  else if ((65 <=? n) && (n <=? 70))%N then Some (n - 55)%N
  else None.

(** The characters of a literal after its opening quotation mark; the
    closing one must end the text. *)
Fixpoint read_chars (s : string) : option string :=
  match s with
  | EmptyString => None
  | String c r =>
      let n := N_of_ascii c in
      if (n =? 34)%N then
        match r with EmptyString => Some EmptyString | String _ _ => None end
      else if (n =? 92)%N then
        match r with
        | EmptyString => None
        | String e r1 =>
            let m := N_of_ascii e in
            if ((m =? 34) || (m =? 92) || (m =? 47))%N
            then option_map (String e) (read_chars r1)
            else if (m =? 98)%N then option_map (String (ascii_of_N 8)) (read_chars r1)
            else if (m =? 102)%N then option_map (String (ascii_of_N 12)) (read_chars r1)
            else if (m =? 110)%N then option_map (String (ascii_of_N 10)) (read_chars r1)
            else if (m =? 114)%N then option_map (String (ascii_of_N 13)) (read_chars r1)
            else if (m =? 116)%N then option_map (String (ascii_of_N 9)) (read_chars r1)
            else if (m =? 117)%N then
              match r1 with
              | String h3 (String h2 (String h1 (String h0 r2))) =>
                  match hex_value h3, hex_value h2, hex_value h1, hex_value h0 with
                  | Some x3, Some x2, Some x1, Some x0 =>
                      let v := (((x3 * 16 + x2) * 16 + x1) * 16 + x0)%N in
                      if (v <? 256)%N
                      then option_map (String (ascii_of_N v)) (read_chars r2)
                      else None
                  | _, _, _, _ => None
                  end
              | _ => None
              end
            else None
        end
      else if (n <? 32)%N then None
      else option_map (String c) (read_chars r)
  end.

Definition read_string_literal (s : string) : option string :=
  match s with
  | String c r => if (N_of_ascii c =? 34)%N then read_chars r else None
  | EmptyString => None
  end.

(** The spec's word for a port value: numeric means that, white space
    around it apart, the value is an optionally signed run of decimal
    digits. *)
Definition is_numeric (p : string) : bool :=
  match JsString.trim p with
  | String "-"%char r | String "+"%char r =>
      negb (String.eqb r EmptyString) && JsString.all_digits r
  | t => negb (String.eqb t EmptyString) && JsString.all_digits t
  end.

(** Whether a string begins with a decimal digit. *)
Definition starts_with_digit (s : string) : bool :=
  match s with
  | String c _ => match JsString.digit c with Some _ => true | None => false end
  | EmptyString => false
  end.

(** Whether an integer leads a string: after the leading white space and
    one optional sign comes a decimal digit. *)
Definition has_leading_integer (p : string) : bool :=
  match JsString.trimStart p with
  | String c r =>
      if Ascii.eqb c "-" || Ascii.eqb c "+"
      then starts_with_digit r
      else starts_with_digit (String c r)
  | EmptyString => false
  end.

(** A world with one open session and a shared secret. *)
Definition open_world : World :=
  default initial_world
    (run [Initialize (mkSettings None None (Some "s3cret")); SocketOpen 0]
         initial_world).

(** A world whose session closed after a command registered callback 7. *)
Definition closed_after_send : World :=
  default initial_world
    (run [Initialize (mkSettings None None None); SocketOpen 0;
          SendCommand CmdRecord (Some 7%nat); SocketClose 0]
         initial_world).

(** [w'] differs from [w] by no callback call, and its pending callback is
    the one of [w] or none. *)
Definition calm (w w' : World) : Prop :=
  invoked w' = invoked w
  /\ (pendingErrorCallback (this w') = pendingErrorCallback (this w)
      \/ pendingErrorCallback (this w') = None).

(** No callback is called and the pending one stays. *)
Definition quiet (w w' : World) : Prop :=
  invoked w' = invoked w
  /\ pendingErrorCallback (this w') = pendingErrorCallback (this w).

(** [None] is the empty list, [Some a] the list of [a] alone. *)
Definition option_list {A} (o : option A) : list A :=
  match o with Some a => [a] | None => [] end.

(** The event is a [send] that registers the callback [cb]. *)
Definition registers (cb : Callback) (e : Event) : bool :=
  match e with
  | SendCommand _ (Some c) => Nat.eqb c cb
  | _ => false
  end.

(** Commands sent one after the other, no event in between. *)
Fixpoint send_all (l : list (BvcCommand * option Callback)) (w : World) : World :=
  match l with
  | [] => w
  | (cmd, cb) :: r => send_all r (snd (send cmd cb w))
  end.

(** The recognised shapes of an inbound payload, in the spec's words. *)
Inductive Shape : Type :=
| Pong
| MuteDelta (device : Device) (muted : bool)
| Snapshot (muted deafened rec : bool)
| RecordingDelta (rec : bool)
| Unrecognized.

(** The [device] of a payload, when it names one of the two devices. *)
Definition device_of (data : json) : option Device :=
  match Js.get data "device" with
  | Some (JStr d) =>
      if String.eqb d "input" then Some input
      else if String.eqb d "output" then Some output
      else None
  | _ => None
  end.

(** The shapes are tried in the order (a) to (d); the first that matches
    is the shape of the payload. *)
Definition classify (data : json) : Shape :=
  let boolean k := Js.as_bool (Js.get data k) in
  if Js.is_bool (Js.get data "pong") true then Pong
  else match device_of data, boolean "muted" with
       | Some d, Some m => MuteDelta d m
       | _, _ =>
           match boolean "muted", boolean "deafened", boolean "recording" with
           | Some m, Some d, Some r => Snapshot m d r
           | _, _, _ =>
               match boolean "recording" with
               | Some r => RecordingDelta r
               | None => Unrecognized
               end
           end
       end.

(** The notification of one field: none when the incoming value is the
    current one. *)
Definition notify (current : option bool) (v : bool)
    (ev : option bool -> BvcStateEvent) : list BvcStateEvent :=
  if differs current (Some v) then [ev (Some v)] else [].

(** What a shape does to the snapshot, and the notifications it emits. *)
Definition apply_shape (sh : Shape) (st : BvcState) : BvcState * list BvcStateEvent :=
  match sh with
  | Pong | Unrecognized => (st, [])
  | MuteDelta input m =>
      (set_inputMuted (Some m) st, notify (inputMuted st) m inputMuteChanged)
  | MuteDelta output m =>
      (set_outputMuted (Some m) st, notify (outputMuted st) m outputMuteChanged)
  | Snapshot m d r =>
      (mkState (connected st) (Some m) (Some d) (Some r),
       notify (inputMuted st) m inputMuteChanged
       ++ notify (outputMuted st) d outputMuteChanged
       ++ notify (recording st) r recordingChanged)
  | RecordingDelta r =>
      (set_recording (Some r) st, notify (recording st) r recordingChanged)
  end.

(** The world after the manager's snapshot became [st] and the
    notifications [evs] were emitted, nothing else having changed. *)
Definition notified (st : BvcState) (evs : list BvcStateEvent) (w : World) : World :=
  mkWorld (set_state (this w) st) (sockets w) (timers w) (next_timer w)
          (out w ++ map Emit evs).

(** The invariant of the snapshot: while disconnected, the three tri-state
    fields are unknown. *)
Definition disconnected_unknown (st : BvcState) : Prop :=
  connected st = false ->
  inputMuted st = None /\ outputMuted st = None /\ recording st = None.

(** An inbound frame is handled while the snapshot says connected. *)
Definition frame_while_connected (e : Event) (w : World) : bool :=
  match e with
  | SocketMessage _ _ => connected (state (this w))
  | _ => true
  end.

(** [run], refusing a frame that arrives while the snapshot says
    disconnected. *)
Fixpoint run_connected (es : list Event) (w : World) : option World :=
  match es with
  | [] => Some w
  | e :: es =>
      if frame_while_connected e w then
        match step e w with
        | Some w' => run_connected es w'
        | None => None
        end
      else None
  end.

(** Two sessions that overlap.  A settings change replaces session 0 by
    session 1; the close event of session 0 arrives after [connect] has
    reset [intentionalClose], so it drops the handle of session 1 and
    schedules a reconnect (timer 2), which creates session 2 next to
    session 1.  When session 1 closes the snapshot goes to disconnected,
    and the next frame of session 2 fills a field again. *)
Definition overlapping_sessions : list Event :=
  [ Initialize (mkSettings None None None);
    SocketOpen 0;
    SettingsReceived (mkSettings (Some "10.0.0.2") None None);
    SocketClose 0;
    SocketOpen 1;
    TimerFires 2;
    SocketOpen 2;
    SocketClose 1;
    SocketMessage 2 (Some (JObj [("data", JObj [("device", JStr "input");
                                                ("muted", JBool true)])])) ].

(** One session fails and is replaced; the second is disconnected. *)
Definition session_then_disconnect : list Event :=
  [ Initialize (mkSettings None None None);
    SocketOpen 0;
    SocketMessage 0 (Some (JObj [("data", JObj [("muted", JBool true);
                                                ("deafened", JBool false);
                                                ("recording", JBool true)])]));
    SocketClose 0;
    TimerFires 2;
    SocketOpen 1;
    SocketMessage 1 (Some (JObj [("data", JObj [("recording", JBool true)])]));
    Disconnect ].

(** One failed attempt: the session closes, the reconnect timer fires. *)
Definition failed_attempt (w : World) : World := reconnect_fire (on_close w).

(** A world with one open session whose first probe is outstanding. *)
Definition awaiting_world : World :=
  default initial_world
    (run [Initialize (mkSettings None None None); SocketOpen 0; TimerFires 0]
         initial_world).

(** A reachable instance.  Sessions 1 and 2 overlap as in
    [overlapping_sessions]; both close, each close schedules a reconnect
    (timers 5 and 6, the first of which is overwritten in the manager but
    still pending); timer 5 creates session 3, timer 6 finds session 3 and
    supersedes it with session 4. *)
Definition superseding_connect : list Event :=
  [ Initialize (mkSettings None None None);
    SocketOpen 0;
    SettingsReceived (mkSettings (Some "10.0.0.2") None None);
    SocketClose 0;
    SocketOpen 1;
    TimerFires 2;
    SocketClose 1;
    SocketClose 2;
    TimerFires 5;
    TimerFires 6 ].

(** A reachable instance of a stale stability timer.  Sessions 1 and 2
    overlap as in [overlapping_sessions]; the [open] of session 2 starts a
    stability timer (6) over the one of session 1 (4), which stays pending
    with no handle left.  Both sessions close, the reconnects (timers 7
    and 8) create sessions 3 and 4, which fail; timer 4 fires between two
    failed attempts. *)
Definition stale_stable_timer : list Event :=
  [ Initialize (mkSettings None None None);
    SocketOpen 0;
    SettingsReceived (mkSettings (Some "10.0.0.2") None None);
    SocketClose 0;
    SocketOpen 1;
    TimerFires 2;
    SocketOpen 2;
    SocketClose 1;
    SocketClose 2;
    TimerFires 7;
    TimerFires 8;
    SocketClose 3;
    SocketClose 4;
    TimerFires 4;
    TimerFires 9;
    SocketClose 5 ].

(** The field [proj] of the manager is the same in [w'] as in [w]. *)
Definition keeps {A} (proj : WsManager -> A) (w w' : World) : Prop :=
  proj (this w') = proj (this w).

(** * Vocabulary of the further properties *)


(** What a notification says about the snapshot. *)
Definition apply_event (ev : BvcStateEvent) (st : BvcState) : BvcState :=
  match ev with
  | connectionChanged c => set_connected c st
  | inputMuteChanged v => set_inputMuted v st
  | outputMuteChanged v => set_outputMuted v st
  | recordingChanged v => set_recording v st
  end.

(** The snapshot an observer builds from the notifications it receives. *)
Definition replay (evs : list BvcStateEvent) (st : BvcState) : BvcState :=
  fold_left (fun s ev => apply_event ev s) evs st.

(** A notification reports a change: a tri-state notification carries a
    value other than the current one, and a disconnection is announced
    only to a snapshot that is connected. *)
Definition genuine_event (ev : BvcStateEvent) (st : BvcState) : bool :=
  match ev with
  | connectionChanged c => c || connected st
  | inputMuteChanged v => differs (inputMuted st) v
  | outputMuteChanged v => differs (outputMuted st) v
  | recordingChanged v => differs (recording st) v
  end.

(** Every notification of a sequence reports a change to the snapshot
    replayed so far. *)
Fixpoint genuine (evs : list BvcStateEvent) (st : BvcState) : bool :=
  match evs with
  | [] => true
  | ev :: r => genuine_event ev st && genuine r (apply_event ev st)
  end.

(** From [w] to [w'] the manager emitted notifications that report changes
    and that, replayed on the snapshot of [w], give the snapshot of [w']. *)
Definition mirrors (w w' : World) : Prop :=
  exists evs,
    emitted w' = emitted w ++ evs
    /\ state (this w') = replay evs (state (this w))
    /\ genuine evs (state (this w)) = true.


(** [w'] has the pending timers of [w] or fewer, and no new socket. *)
Definition shrinks (w w' : World) : Prop :=
  (forall t, pending_timer t w = None -> pending_timer t w' = None)
  /\ next_timer w' = next_timer w
  /\ length (sockets w') = length (sockets w).

(** The snapshot after the manager marked it disconnected. *)
Definition snapshot_disconnected (st : BvcState) : BvcState :=
  if connected st then mkState false None None None else st.

(** The notifications of a disconnection, in the order they are emitted:
    the connection first, then each tri-state field that was known. *)
Definition disconnect_events (st : BvcState) : list BvcStateEvent :=
  if connected st then
    connectionChanged false
    :: match inputMuted st with Some _ => [inputMuteChanged None] | None => [] end
    ++ match outputMuted st with Some _ => [outputMuteChanged None] | None => [] end
    ++ match recording st with Some _ => [recordingChanged None] | None => [] end
  else [].

(** The manager holds nothing that a teardown would have to release. *)
Definition torn_down (m : WsManager) : Prop :=
  ws m = None /\ reconnectTimer m = None /\ pingTimer m = None
  /\ stableTimer m = None /\ awaitingPong m = false
  /\ connected (state m) = false.

(** A world whose session 0 is open and has received a full snapshot. *)
Definition synced_world : World :=
  default initial_world
    (run [Initialize (mkSettings None None None); SocketOpen 0;
          SocketMessage 0 (Some (JObj [("data", JObj [("muted", JBool true);
                                                      ("deafened", JBool false);
                                                      ("recording", JBool true)])]))]
         initial_world).


(** The configuration that [applySettings] derives from raw settings:
    host, port and shared secret. *)
Definition resolved (s : GlobalSettings) : string * Z * string :=
  let m := this (snd (applySettings s initial_world)) in
  (host m, port m, authenticationKey m).

(** The configuration the manager holds. *)
Definition config (m : WsManager) : string * Z * string :=
  (host m, port m, authenticationKey m).


(** The socket the manager holds exists, and while it holds one the close
    is not marked intentional. *)
Definition handle_valid (w : World) : Prop :=
  forall k, ws (this w) = Some k ->
            (k < length (sockets w))%nat /\ intentionalClose (this w) = false.

(** A connection target that can be dialled: a host that is not empty and
    a port within 1..65535. *)
Definition target_valid (m : WsManager) : Prop :=
  host m <> EmptyString /\ 1 <= port m <= 65535.


(** ** The keys ([actions/deafen.ts], [actions/record.ts]) *)

(** [v === null] *)
Definition is_null (v : option bool) : bool :=
  match v with None => true | Some _ => false end.

(** [DeafenAction.getIcon], on the snapshot [wsManager.state]. *)
Definition DeafenAction_getIcon (s : BvcState) : string :=
  if negb (connected s) || is_null (outputMuted s) then icons.headphonesDisconnected
  else if default false (outputMuted s) then icons.headphonesOff
  else icons.headphonesOn.

(** [RecordAction.getIcon] *)
Definition RecordAction_getIcon (s : BvcState) : string :=
  if negb (connected s) || is_null (recording s) then icons.recordDisconnected
  else if default false (recording s) then icons.recordOn
  else icons.recordOff.

(** The test of the listener that [DeafenAction.onWillAppear] registers:
    the events on which it redraws its keys. *)
Definition DeafenAction_redraws (ev : BvcStateEvent) : bool :=
  match ev with
  | connectionChanged _ | outputMuteChanged _ => true
  | _ => false
  end.

(** The same for [RecordAction]. *)
Definition RecordAction_redraws (ev : BvcStateEvent) : bool :=
  match ev with
  | connectionChanged _ | recordingChanged _ => true
  | _ => false
  end.

(** [DeafenAction.onKeyDown]: the command is sent with a callback that
    shows an alert on the key; when it could not be sent the alert is
    shown at once.  The boolean tells whether the alert is shown now. *)
Definition DeafenAction_onKeyDown (alert : Callback) (w : World) : bool * World :=
  let '(sent, w) := send (CmdMute output) (Some alert) w in
  (negb sent, w).

(** [RecordAction.onKeyDown] *)
Definition RecordAction_onKeyDown (alert : Callback) (w : World) : bool * World :=
  let '(sent, w) := send CmdRecord (Some alert) w in
  (negb sent, w).

(** * Properties *)

(** ** Settings resolution *)

Lemma leading_digits_acc (acc : option Z) (s : string) :
  acc <> None -> JsString.leading_digits acc s <> None.
Proof.
  revert acc. induction s as [|c r IH]; intros acc H; simpl; [exact H|].
  destruct (JsString.digit c); [apply IH; discriminate | exact H].
Qed.

(** [parseInt] stops at the first character that is not a digit: what
    follows a run of digits does not matter. *)
Lemma leading_digits_junk (ds rest : string) (acc : option Z) :
  JsString.all_digits ds = true -> starts_with_digit rest = false ->
  JsString.leading_digits acc (ds ++ rest)%string = JsString.leading_digits acc ds.
Proof.
  revert acc. induction ds as [|c r IH]; intros acc Hd Hr; simpl.
  - destruct rest as [|c r]; [reflexivity|]. simpl in *.
    destruct (JsString.digit c); [discriminate | reflexivity].
  - unfold JsString.all_digits in Hd. simpl in Hd.
    destruct (JsString.digit c); [|discriminate].
    apply IH; assumption.
Qed.

Lemma leading_digits_none (s : string) :
  JsString.leading_digits None s = None <-> starts_with_digit s = false.
Proof. clear valid_url.
  destruct s as [|c r]; simpl; [tauto|].
  destruct (JsString.digit c) as [d|]; [|tauto].
  split; [|intros H; discriminate H]. intros H. exfalso.
  eapply leading_digits_acc; [|exact H]. discriminate.
Qed.

(** [parseInt] yields [NaN] exactly when no integer leads the string. *)
Lemma parseInt10_NaN (p : string) :
  JsString.parseInt10 p = JsString.NaN <-> has_leading_integer p = false.
Proof. clear valid_url.
  unfold JsString.parseInt10, has_leading_integer.
  destruct (JsString.trimStart p) as [|c r]; [simpl; tauto|].
  assert (Hd : forall t o, JsString.of_digits o (JsString.leading_digits None t)
                           = JsString.NaN <-> starts_with_digit t = false).
  { intros t o. rewrite <- leading_digits_none.
    destruct (JsString.leading_digits None t); simpl; split; congruence. }
  destruct c as [[] [] [] [] [] [] [] []]; cbn [Ascii.eqb Bool.eqb orb andb];
    first [ apply (Hd r) | apply (Hd (String _ r)) ].
Qed.

Lemma parsePort_range (v : PortValue) :
  parsePort v = DEFAULT_PORT \/ 1 <= parsePort v <= 65535.
Proof.
  unfold parsePort.
  destruct v as [|s]; [left; reflexivity|].
  destruct s as [|c r]; [left; reflexivity|].
  destruct (JsString.parseInt10 (String c r)) as [| |z]; try (left; reflexivity).
  destruct (0 <? z) eqn:H0; destruct (z <=? 65535) eqn:H1; simpl;
    try (left; reflexivity). right. lia.
Qed.

Lemma applySettings_fields (s : GlobalSettings) (w : World) :
  let m := this (snd (applySettings s w)) in
  host m = match JsString.trim <$> gs_host s with
           | None | Some EmptyString => DEFAULT_HOST
           | Some h => h
           end
  /\ port m = parsePort (match gs_port s with
                         | Some p => PortString p
                         | None => PortUndefined
                         end)
  /\ authenticationKey m
     = default EmptyString (JsString.trim <$> gs_authenticationKey s).
Proof. repeat split. Qed.

Lemma payload_key (key : string) (cmd : BvcCommand) :
  Js.assoc "key" (payload key cmd)
  = if String.eqb key EmptyString then None else Some key.
Proof.
  unfold payload. destruct (String.eqb key EmptyString).
  - destruct cmd as [|[]| |]; reflexivity.
  - destruct cmd as [|[]| |]; reflexivity.
Qed.

(** What settings resolution computes: the loopback host when the host is
    absent or blank and the trimmed host otherwise; the default port when
    the port value is absent, empty, has no leading decimal integer (after
    white space and an optional sign), or that integer is outside
    1..65535, and otherwise that leading integer; the trimmed secret, empty
    when absent. *)
Lemma settings_resolution (s : GlobalSettings) (w : World) :
  let m := this (snd (applySettings s w)) in
  ((gs_host s = None \/ JsString.trim <$> gs_host s = Some EmptyString) ->
     host m = "127.0.0.1")
  /\ (forall h, gs_host s = Some h -> JsString.trim h <> EmptyString ->
        host m = JsString.trim h)
  /\ ((gs_port s = None \/ gs_port s = Some EmptyString) -> port m = 9595)
  /\ (forall p, gs_port s = Some p ->
        has_leading_integer p = false -> port m = 9595)
  /\ (forall p z, gs_port s = Some p ->
        JsString.parseInt10 p = JsString.Int z ->
        port m = if (1 <=? z) && (z <=? 65535) then z else 9595)
  /\ (forall ds rest, gs_port s = Some (ds ++ rest)%string ->
        ds <> EmptyString -> JsString.all_digits ds = true ->
        starts_with_digit rest = false ->
        port m = parsePort (PortString ds))
  /\ (port m = 9595 \/ 1 <= port m <= 65535)
  /\ (gs_authenticationKey s = None -> authenticationKey m = EmptyString)
  /\ (forall k, gs_authenticationKey s = Some k ->
        authenticationKey m = JsString.trim k)
  /\ (s = mkSettings (Some EmptyString) (Some EmptyString) (Some EmptyString) ->
        host m = "127.0.0.1" /\ port m = 9595
        /\ forall cmd, Js.assoc "key" (payload (authenticationKey m) cmd) = None).
Proof.
  intros m. destruct (applySettings_fields s w) as (Hh & Hp & Hk).
  fold m in Hh, Hp, Hk.
  split; [|split; [|split; [|split; [|split; [|split; [|split; [|split; [|split]]]]]]]].
  - intros [E|E]; rewrite Hh.
    + rewrite E. reflexivity.
    + rewrite E. reflexivity.
  - intros h E Hne. rewrite Hh, E. simpl.
    destruct (JsString.trim h); [contradiction | reflexivity].
  - intros [E|E]; rewrite Hp, E; reflexivity.
  - intros p E Hn. apply parseInt10_NaN in Hn. rewrite Hp, E. unfold parsePort.
    destruct p; [reflexivity|]. rewrite Hn. reflexivity.
  - intros p z E Hn. rewrite Hp, E. unfold parsePort.
    destruct p as [|c r]; [discriminate Hn|]. rewrite Hn.
    replace (1 <=? z) with (0 <? z) by lia. reflexivity.
  - intros ds rest E Hne Hd Hr. rewrite Hp, E.
    destruct ds as [|c r]; [contradiction|].
    unfold parsePort. simpl append.
    assert (Hw : JsString.is_white c = false).
    { unfold JsString.all_digits in Hd. simpl in Hd.
      destruct c as [[] [] [] [] [] [] [] []]; try discriminate Hd; reflexivity. }
    assert (Hs : c <> "-"%char /\ c <> "+"%char).
    { unfold JsString.all_digits in Hd. simpl in Hd.
      split; intros ->; discriminate Hd. }
    assert (Hpi : forall t, JsString.parseInt10 (String c t)
                  = JsString.of_digits false (JsString.leading_digits None (String c t))).
    { intros t. unfold JsString.parseInt10. simpl JsString.trimStart. rewrite Hw.
      destruct Hs as [Hm Hpl].
      destruct c as [[] [] [] [] [] [] [] []]; try reflexivity;
        [exfalso; apply Hpl; reflexivity | exfalso; apply Hm; reflexivity]. }
    rewrite !Hpi.
    change (String c (r ++ rest)%string) with (String c r ++ rest)%string.
    rewrite leading_digits_junk by assumption. reflexivity.
  - rewrite Hp. apply parsePort_range.
  - intros E. rewrite Hk, E. reflexivity.
  - intros k E. rewrite Hk, E. reflexivity.
  - intros ->. rewrite Hh, Hp, Hk. simpl.
    split; [reflexivity | split; [reflexivity|]].
    intros cmd. rewrite payload_key. reflexivity.
Qed.

(** C9 fails on the code: a port value that is not numeric, but begins
    with a decimal integer within 1..65535, resolves to that integer and
    not to the default port.  [parseInt] reads the leading digits and
    ignores what follows them, and [parsePort] never checks that the whole
    value was a number, although its comment promises the default for an
    invalid value. *)
Theorem non_numeric_port_accepted (s : GlobalSettings) (w : World) (p : string) (z : Z) :
  gs_port s = Some p -> is_numeric p = false ->
  JsString.parseInt10 p = JsString.Int z -> 1 <= z <= 65535 ->
  port (this (snd (applySettings s w))) = z.
Proof.
  intros Hp _ Hn Hz.
  destruct (applySettings_fields s w) as (_ & E & _). rewrite E, Hp.
  unfold parsePort. destruct p as [|c r]; [discriminate Hn|]. cbv zeta. rewrite Hn.
  destruct (0 <? z) eqn:H0; destruct (z <=? 65535) eqn:H1; simpl; lia.
Qed.

Example parsePort_examples :
  parsePort (PortString "8080") = 8080
  /\ parsePort (PortString "80abc") = 80
  /\ parsePort (PortString "12.5") = 12
  /\ parsePort (PortString "  443") = 443
  /\ parsePort (PortString "abc") = 9595
  /\ parsePort (PortString "0") = 9595
  /\ parsePort (PortString "-1") = 9595
  /\ parsePort (PortString "65535") = 65535
  /\ parsePort (PortString "65536") = 9595
  /\ parsePort PortUndefined = 9595.
Proof. repeat split. Qed.

(** ** The command dispatcher ([send]) *)

Lemma send_closed (cmd : BvcCommand) (cb : option Callback) (w : World) :
  session_open w = false -> send cmd cb w = (false, w).
Proof.
  unfold session_open, send. destruct (ws (this w)) as [k|]; [|reflexivity].
  intros ->. reflexivity.
Qed.

Lemma send_open (cmd : BvcCommand) (cb : option Callback) (w : World) (k : nat) :
  ws (this w) = Some k -> is_open k w = true ->
  send cmd cb w
  = (true, effect (Transmit k (Js.stringify (payload (authenticationKey (this w)) cmd)))
             (assign (fun m => set_pendingErrorCallback m cb) w)).
Proof. unfold send. intros -> ->. reflexivity. Qed.

Lemma send_result (cmd : BvcCommand) (cb : option Callback) (w : World) :
  fst (send cmd cb w) = session_open w.
Proof.
  unfold send, session_open. destruct (ws (this w)) as [k|]; [|reflexivity].
  destruct (is_open k w); reflexivity.
Qed.

(** *** The text of a frame *)

Lemma append_assoc (a b c : string) : ((a ++ b) ++ c = a ++ (b ++ c))%string.
Proof. induction a as [|x a IH]; simpl; [reflexivity | rewrite IH; reflexivity]. Qed.

(** The reader undoes the escape of one code unit. *)
Lemma read_escape (c : ascii) (rest : string) :
  read_chars (Js.escape c ++ rest) = option_map (String c) (read_chars rest).
Proof. destruct c as [[] [] [] [] [] [] [] []]; reflexivity. Qed.

Lemma read_escape_all (s : string) :
  read_chars (Js.escape_all s ++ String "034"%char EmptyString) = Some s.
Proof.
  induction s as [|c s IH]; [reflexivity|]. simpl Js.escape_all.
  rewrite append_assoc, read_escape, IH. reflexivity.
Qed.

(** What [JSON.stringify] writes for a string, a JSON reader reads back as
    that string. *)
Lemma read_quote (s : string) : read_string_literal (Js.quote s) = Some s.
Proof. unfold Js.quote, read_string_literal. simpl. apply read_escape_all. Qed.

Lemma escape_verbatim (c : ascii) :
  verbatim c = true -> Js.escape c = String c EmptyString.
Proof. destruct c as [[] [] [] [] [] [] [] []]; intros H; try discriminate H; reflexivity. Qed.

Lemma quote_verbatim (s : string) :
  forallb verbatim (list_ascii_of_string s) = true -> Js.quote s = lit s.
Proof.
  intros H. unfold Js.quote, lit. do 2 f_equal.
  induction s as [|c s IH]; [reflexivity|]. simpl in H.
  apply andb_prop in H. destruct H as [Hc Hs].
  simpl. rewrite (escape_verbatim c Hc), (IH Hs). reflexivity.
Qed.

(** The text that [send] transmits, written out. *)
Lemma stringify_payload (key : string) (cmd : BvcCommand) :
  Js.stringify (payload key cmd)
  = ("{"
     ++ match cmd with
        | CmdPing => lit "action" ++ ":" ++ lit "ping"
        | CmdMute input =>
            lit "action" ++ ":" ++ lit "mute" ++ "," ++ lit "device" ++ ":" ++ lit "input"
        | CmdMute output =>
            lit "action" ++ ":" ++ lit "mute" ++ "," ++ lit "device" ++ ":" ++ lit "output"
        | CmdRecord => lit "action" ++ ":" ++ lit "record"
        | CmdState => lit "action" ++ ":" ++ lit "state"
        end
     ++ key_member key ++ "}")%string.
Proof.
  unfold payload, key_member.
  destruct (String.eqb key EmptyString); destruct cmd as [|[]| |]; reflexivity.
Qed.

(** C3: [send] returns false and leaves the world as it is, so transmits
    nothing, whenever no session is open; otherwise it returns true and
    transmits exactly one frame on the session's socket.  The frame is the
    JSON text of the command: an object with the member [action], for a
    mute command also the member [device], and, exactly when the secret is
    not empty, the member [key] with the secret as a JSON string.  A JSON
    reader recovers the secret from that string, whatever characters it
    holds, and a secret without quotation marks, reverse solidi and
    control characters is written as it is. *)
Theorem send_contract (cmd : BvcCommand) (onError : option Callback) (w : World) :
  (session_open w = false ->
     send cmd onError w = (false, w))
  /\ (session_open w = true ->
      exists k frame,
        ws (this w) = Some k
        /\ fst (send cmd onError w) = true
        /\ out (snd (send cmd onError w)) = (out w ++ [Transmit k frame])%list
        /\ frame = Js.stringify (payload (authenticationKey (this w)) cmd)
        /\ frame
           = ("{"
              ++ match cmd with
                 | CmdPing => lit "action" ++ ":" ++ lit "ping"
                 | CmdMute input =>
                     lit "action" ++ ":" ++ lit "mute" ++ ","
                     ++ lit "device" ++ ":" ++ lit "input"
                 | CmdMute output =>
                     lit "action" ++ ":" ++ lit "mute" ++ ","
                     ++ lit "device" ++ ":" ++ lit "output"
                 | CmdRecord => lit "action" ++ ":" ++ lit "record"
                 | CmdState => lit "action" ++ ":" ++ lit "state"
                 end
              ++ (if String.eqb (authenticationKey (this w)) EmptyString
                  then EmptyString
                  else "," ++ lit "key" ++ ":" ++ Js.quote (authenticationKey (this w)))
              ++ "}")%string
        /\ read_string_literal (Js.quote (authenticationKey (this w)))
           = Some (authenticationKey (this w))
        /\ (forallb verbatim (list_ascii_of_string (authenticationKey (this w))) = true ->
            Js.quote (authenticationKey (this w)) = lit (authenticationKey (this w)))
        /\ payload (authenticationKey (this w)) cmd
           = (if String.eqb (authenticationKey (this w)) EmptyString
              then spread cmd
              else (spread cmd ++ [("key", authenticationKey (this w))])%list)
        /\ Js.assoc "key" (spread cmd) = None
        /\ Js.assoc "key" (payload (authenticationKey (this w)) cmd)
           = (if String.eqb (authenticationKey (this w)) EmptyString
              then None else Some (authenticationKey (this w)))).
Proof.
  split.
  - apply send_closed.
  - unfold session_open. destruct (ws (this w)) as [k|] eqn:Hws; [|discriminate].
    intros Ho. exists k. eexists. rewrite (send_open cmd onError w k Hws Ho).
    split; [reflexivity|]. split; [reflexivity|]. split; [reflexivity|].
    split; [reflexivity|]. split; [apply stringify_payload|].
    split; [apply read_quote|]. split; [apply quote_verbatim|].
    split; [reflexivity|]. split.
    + destruct cmd as [|[]| |]; reflexivity.
    + apply payload_key.
Qed.

(** A failure response is a frame that parses to an object whose [success]
    is [false]: the pending callback, if any, is called and cleared. *)
Lemma on_message_failure (msg : json) (w : World) :
  Js.is_object msg = true -> Js.is_bool (Js.get msg "success") false = true ->
  on_message (Some msg) w
  = assign (fun m => set_pendingErrorCallback m None) (call_pending w).
Proof.
  intros Ho Hs. unfold on_message.
  destruct msg; try discriminate Ho; simpl in *; rewrite ?Hs; try reflexivity.
  discriminate Hs.
Qed.

(** C10: a [send] that returns false changes nothing, neither the pending
    failure callback nor the state snapshot; a callback registered by an
    earlier send is still the one a later failure response calls. *)
Theorem send_failed_frame (cmd : BvcCommand) (onError : option Callback)
    (w : World) (msg : json) :
  fst (send cmd onError w) = false ->
  let w' := snd (send cmd onError w) in
  w' = w
  /\ pendingErrorCallback (this w') = pendingErrorCallback (this w)
  /\ state (this w') = state (this w)
  /\ (Js.is_object msg = true -> Js.is_bool (Js.get msg "success") false = true ->
      forall cb, pendingErrorCallback (this w) = Some cb ->
        out (on_message (Some msg) w') = (out w ++ [Invoke cb])%list).
Proof.
  intros Hf. rewrite send_result in Hf.
  rewrite (send_closed cmd onError w Hf). cbn [snd].
  repeat split. intros Ho Hs cb Hcb.
  rewrite on_message_failure by assumption.
  unfold call_pending. rewrite Hcb. reflexivity.
Qed.

(** ** Failure callbacks *)

Lemma calm_refl (w : World) : calm w w.
Proof. split; [reflexivity | left; reflexivity]. Qed.

Lemma calm_trans (w1 w2 w3 : World) : calm w1 w2 -> calm w2 w3 -> calm w1 w3.
Proof.
  intros [H1 H2] [H3 H4]. split; [congruence|].
  destruct H4 as [H4|H4]; [rewrite H4; exact H2 | right; exact H4].
Qed.

Lemma invoked_effect (e : Effect) (w : World) :
  invoked (effect e w)
  = (invoked w ++ match e with Invoke cb => [cb] | _ => [] end)%list.
Proof.
  unfold invoked, effect. simpl. rewrite omap_app. destruct e; reflexivity.
Qed.

Lemma calm_effect (e : Effect) (w : World) :
  (forall cb, e <> Invoke cb) -> calm w (effect e w).
Proof.
  intros H. split; [|left; reflexivity].
  rewrite invoked_effect.
  destruct e; try apply app_nil_r. exfalso. apply (H cb). reflexivity.
Qed.

Lemma calm_assign (f : WsManager -> WsManager) (w : World) :
  (forall m, pendingErrorCallback (f m) = pendingErrorCallback m) ->
  calm w (assign f w).
Proof. intros H. split; [reflexivity | left; apply H]. Qed.

Lemma calm_terminate (k : nat) (w : World) : calm w (terminate k w).
Proof.
  unfold terminate.
  assert (H : calm w (effect (Terminate k) w)) by (apply calm_effect; discriminate).
  destruct (readyState k (effect (Terminate k) w)) as [[]|]; exact H.
Qed.

Lemma calm_clearTimer (t : nat) (w : World) : calm w (clearTimer t w).
Proof. split; [reflexivity | left; reflexivity]. Qed.

Lemma calm_set_readyState (k : nat) (r : ReadyState) (w : World) :
  calm w (set_readyState k r w).
Proof. split; [reflexivity | left; reflexivity]. Qed.

(** Chains a method body: each statement is calm. *)
Ltac calm_step :=
  match goal with
  | |- calm ?w ?w => apply calm_refl
  | |- calm ?w (assign _ ?w') =>
      apply (calm_trans w w'); [|apply calm_assign; intros []; reflexivity]
  | |- calm ?w (effect _ ?w') =>
      apply (calm_trans w w'); [|apply calm_effect; discriminate]
  | |- calm ?w (emit _ ?w') =>
      apply (calm_trans w w'); [|apply calm_effect; discriminate]
  | |- calm ?w (terminate _ ?w') =>
      apply (calm_trans w w'); [|apply calm_terminate]
  | |- calm ?w (clearTimer _ ?w') =>
      apply (calm_trans w w'); [|apply calm_clearTimer]
  | |- calm ?w (set_readyState _ _ ?w') =>
      apply (calm_trans w w'); [|apply calm_set_readyState]
  | |- calm ?w (mkWorld (this ?w') _ _ _ (out ?w')) =>
      apply (calm_trans w w'); [|split; [reflexivity | left; reflexivity]]
  | |- calm ?w (match ?x with _ => _ end) => destruct x
  | |- calm ?w (if ?x then _ else _) => destruct x
  end.

Lemma calm_setConnected (c : bool) (w : World) : calm w (setConnected c w).
Proof. unfold setConnected, assign_state. repeat calm_step. Qed.

Lemma calm_setDisconnectedState (w : World) : calm w (setDisconnectedState w).
Proof.
  unfold setDisconnectedState, assign_state.
  repeat calm_step.
Qed.

Lemma calm_scheduleReconnect (w : World) : calm w (scheduleReconnect w).
Proof. unfold scheduleReconnect, setTimer. repeat calm_step. Qed.

Lemma calm_startPing (w : World) : calm w (startPing w).
Proof. unfold startPing, setTimer. repeat calm_step. Qed.

Lemma calm_stopPing (w : World) : calm w (stopPing w).
Proof. unfold stopPing. repeat calm_step. Qed.

Lemma calm_startStableTimer (w : World) : calm w (startStableTimer w).
Proof. unfold startStableTimer, setTimer. repeat calm_step. Qed.

Lemma calm_stopStableTimer (w : World) : calm w (stopStableTimer w).
Proof. unfold stopStableTimer. repeat calm_step. Qed.

Lemma calm_newWebSocket (h : string) (p : Z) (w : World) :
  calm w (snd (newWebSocket h p w)).
Proof. unfold newWebSocket. destruct (valid_url h p); cbn [snd]; repeat calm_step. Qed.

Lemma calm_connect (w : World) : calm w (connect w).
Proof.
  unfold connect.
  set (w1 := match reconnectTimer (this w) with Some t => _ | None => w end).
  assert (H1 : calm w w1) by (subst w1; repeat calm_step).
  set (w2 := match ws (this w1) with Some k => _ | None => w1 end).
  assert (H2 : calm w1 w2) by (subst w2; repeat calm_step).
  set (w3 := assign _ w2).
  assert (H3 : calm w2 w3) by (subst w3; repeat calm_step).
  pose proof (calm_newWebSocket (host (this w3)) (port (this w3)) w3) as H4.
  destruct (newWebSocket (host (this w3)) (port (this w3)) w3) as [r w4].
  cbn [snd] in H4.
  apply (calm_trans w w4); [|destruct r; repeat calm_step].
  eauto using calm_trans.
Qed.

Lemma calm_disconnect (w : World) : calm w (disconnect w).
Proof.
  unfold disconnect.
  set (w1 := assign _ w).
  assert (H1 : calm w w1) by (subst w1; repeat calm_step).
  set (w2 := match reconnectTimer (this w1) with Some t => _ | None => w1 end).
  assert (H2 : calm w1 w2) by (subst w2; repeat calm_step).
  pose proof (calm_stopPing w2) as H3.
  pose proof (calm_stopStableTimer (stopPing w2)) as H4.
  set (w4 := stopStableTimer (stopPing w2)) in *.
  set (w5 := match ws (this w4) with Some k => _ | None => w4 end).
  assert (H5 : calm w4 w5) by (subst w5; repeat calm_step).
  assert (H : calm w w5) by eauto using calm_trans.
  destruct (connected (state (this w5))); [|exact H].
  eauto using calm_trans, calm_setConnected, calm_setDisconnectedState.
Qed.

Lemma calm_applySettings (s : GlobalSettings) (w : World) :
  calm w (snd (applySettings s w)).
Proof. unfold applySettings. cbn [snd]. repeat calm_step. Qed.

Lemma calm_on_close (w : World) : calm w (on_close w).
Proof.
  unfold on_close.
  pose proof (calm_stopPing w) as H1.
  pose proof (calm_stopStableTimer (stopPing w)) as H2.
  set (w2 := stopStableTimer (stopPing w)) in *.
  set (w3 := assign _ w2).
  assert (H3 : calm w2 w3) by (subst w3; repeat calm_step).
  set (w4 := if connected (state (this w3)) then _ else w3).
  assert (H4 : calm w3 w4).
  { subst w4. destruct (connected (state (this w3))); [|apply calm_refl].
    eauto using calm_trans, calm_setConnected, calm_setDisconnectedState. }
  assert (H : calm w w4) by eauto using calm_trans.
  destruct (intentionalClose (this w4)); [exact H|].
  eauto using calm_trans, calm_scheduleReconnect.
Qed.

Lemma calm_on_pong (w : World) : calm w (on_pong w).
Proof. unfold on_pong. repeat calm_step. Qed.

Lemma calm_ping_tick (w : World) : calm w (ping_tick w).
Proof. unfold ping_tick. repeat calm_step. Qed.

Lemma calm_reconnect_fire (w : World) : calm w (reconnect_fire w).
Proof.
  unfold reconnect_fire.
  eapply calm_trans; [|apply calm_connect]. repeat calm_step.
Qed.

Lemma calm_stable_fire (w : World) : calm w (stable_fire w).
Proof. unfold stable_fire. repeat calm_step. Qed.

Lemma calm_initialize (s : GlobalSettings) (w : World) : calm w (initialize s w).
Proof.
  unfold initialize.
  eauto using calm_trans, calm_applySettings, calm_connect.
Qed.

Lemma calm_on_settings (s : GlobalSettings) (w : World) : calm w (on_settings s w).
Proof.
  unfold on_settings.
  pose proof (calm_applySettings s w) as H.
  destruct (applySettings s w) as [[] w1]; cbn [snd] in H; [|exact H].
  apply (calm_trans w (disconnect w1));
    [eauto using calm_trans, calm_disconnect|].
  eapply calm_trans; [|apply calm_connect].
  repeat calm_step.
Qed.

Lemma quiet_refl (w : World) : quiet w w.
Proof. split; reflexivity. Qed.

Lemma quiet_trans (w1 w2 w3 : World) : quiet w1 w2 -> quiet w2 w3 -> quiet w1 w3.
Proof. intros [H1 H2] [H3 H4]. split; congruence. Qed.

Lemma quiet_notify (ev : BvcStateEvent) (f : BvcState -> BvcState) (w : World) :
  quiet w (emit ev (assign_state f w)).
Proof.
  split; [|reflexivity]. unfold emit. rewrite invoked_effect. apply app_nil_r.
Qed.

Lemma quiet_update_inputMuted (v : bool) (w : World) :
  quiet w (update_inputMuted v w).
Proof.
  unfold update_inputMuted.
  destruct (differs _ _); [apply quiet_notify | apply quiet_refl].
Qed.

Lemma quiet_update_outputMuted (v : bool) (w : World) :
  quiet w (update_outputMuted v w).
Proof.
  unfold update_outputMuted.
  destruct (differs _ _); [apply quiet_notify | apply quiet_refl].
Qed.

Lemma quiet_update_recording (v : bool) (w : World) :
  quiet w (update_recording v w).
Proof.
  unfold update_recording.
  destruct (differs _ _); [apply quiet_notify | apply quiet_refl].
Qed.

Lemma quiet_handleMessage (data : json) (w : World) :
  quiet w (handleMessage data w).
Proof.
  unfold handleMessage.
  destruct (Js.is_bool (Js.get data "pong") true); [apply quiet_refl|].
  destruct (Js.is_str (Js.get data "device") "input"),
           (Js.is_str (Js.get data "device") "output"),
           (Js.as_bool (Js.get data "muted")),
           (Js.as_bool (Js.get data "deafened")),
           (Js.as_bool (Js.get data "recording"));
    first [ apply quiet_refl
          | apply quiet_update_inputMuted
          | apply quiet_update_outputMuted
          | apply quiet_update_recording
          | eapply quiet_trans;
            [eapply quiet_trans;
             [apply quiet_update_inputMuted | apply quiet_update_outputMuted]
            | apply quiet_update_recording] ].
Qed.

Lemma send_callbacks (cmd : BvcCommand) (cb : option Callback) (w : World) :
  let w' := snd (send cmd cb w) in
  invoked w' = invoked w
  /\ pendingErrorCallback (this w')
     = (if session_open w then cb else pendingErrorCallback (this w))
  /\ session_open w' = session_open w.
Proof.
  unfold send, session_open. destruct (ws (this w)) as [k|] eqn:Hws; cbn [snd].
  - destruct (is_open k w) eqn:Ho; cbn [snd].
    + rewrite invoked_effect, app_nil_r. cbn. rewrite Hws.
      repeat split. exact Ho.
    + rewrite Hws, Ho. repeat split.
  - rewrite Hws. repeat split.
Qed.

Lemma calm_on_open (w : World) : calm w (on_open w).
Proof.
  unfold on_open.
  pose proof (calm_setConnected true w) as H1.
  set (w1 := setConnected true w) in *.
  destruct (send_callbacks CmdState None w1) as (H2 & H3 & _).
  set (w2 := snd (send CmdState None w1)) in *.
  assert (H : calm w1 w2).
  { split; [exact H2|]. rewrite H3. destruct (session_open w1); auto. }
  eauto using calm_trans, calm_startPing, calm_startStableTimer.
Qed.

(** What a frame does to the callbacks: a failure response calls the
    pending one and clears it, any other frame calls none. *)
Lemma on_message_callbacks (raw : option json) (w : World) :
  let w' := on_message raw w in
  (invoked w' = (invoked w ++ option_list (pendingErrorCallback (this w)))%list
   /\ pendingErrorCallback (this w') = None)
  \/ (invoked w' = invoked w
      /\ pendingErrorCallback (this w') = pendingErrorCallback (this w)).
Proof.
  unfold on_message. destruct raw as [msg|]; [|right; split; reflexivity].
  destruct (negb (Js.truthy (Some msg)) || negb (Js.is_object msg));
    [right; split; reflexivity|].
  destruct (Js.is_bool (Js.get msg "success") false).
  - left. unfold call_pending.
    destruct (pendingErrorCallback (this w)) as [cb|]; cbn.
    + split; [|reflexivity]. apply invoked_effect.
    + split; [|reflexivity]. symmetry. apply app_nil_r.
  - right. destruct (negb (Js.truthy (Js.get msg "data"))); [split; reflexivity|].
    destruct (Js.get msg "data") as [data|]; [|split; reflexivity].
    apply quiet_handleMessage.
Qed.

Lemma calm_orphan (cb : Callback) (w w' : World) :
  calm w w' -> pendingErrorCallback (this w) <> Some cb ->
  pendingErrorCallback (this w') <> Some cb
  /\ exists l, invoked w' = (invoked w ++ l)%list /\ ~ In cb l.
Proof.
  intros [Hi Hp] Hne. split.
  - destruct Hp as [Hp|Hp]; rewrite Hp; [exact Hne | discriminate].
  - exists []. rewrite app_nil_r. split; [exact Hi | intros []].
Qed.

(** One event never calls a callback that is neither pending nor
    registered by the event itself, and does not make it pending. *)
Lemma step_orphan (cb : Callback) (e : Event) (w w' : World) :
  step e w = Some w' -> registers cb e = false ->
  pendingErrorCallback (this w) <> Some cb ->
  pendingErrorCallback (this w') <> Some cb
  /\ exists l, invoked w' = (invoked w ++ l)%list /\ ~ In cb l.
Proof.
  intros Hs Hr Hne.
  assert (Hcalm : forall k r, calm w (set_readyState k r w))
    by (intros; apply calm_set_readyState).
  destruct e as [s|s|cmd o| | |k|k|k|k|k raw|t]; simpl in Hs.
  - injection Hs as <-. apply calm_orphan; [apply calm_initialize | exact Hne].
  - injection Hs as <-. apply calm_orphan; [apply calm_on_settings | exact Hne].
  - injection Hs as <-.
    destruct (send_callbacks cmd o w) as (Hi & Hp & _). split.
    + rewrite Hp. destruct (session_open w); [|exact Hne].
      destruct o as [c|]; [|discriminate]. simpl in Hr.
      intros [= ->]. rewrite Nat.eqb_refl in Hr. discriminate.
    + exists []. rewrite app_nil_r. split; [exact Hi | intros []].
  - injection Hs as <-. apply calm_orphan; [apply calm_connect | exact Hne].
  - injection Hs as <-. apply calm_orphan; [apply calm_disconnect | exact Hne].
  - destruct (readyState k w) as [[]|]; try discriminate. injection Hs as <-.
    apply calm_orphan; [|exact Hne].
    eapply calm_trans; [apply Hcalm | apply calm_on_open].
  - destruct (readyState k w) as [[]|]; try discriminate; injection Hs as <-;
      (apply calm_orphan; [|exact Hne]);
      (eapply calm_trans; [apply Hcalm | apply calm_on_close]).
  - destruct (readyState k w) as [[]|]; try discriminate; injection Hs as <-;
      (apply calm_orphan; [apply calm_refl | exact Hne]).
  - destruct (is_open k w); [|discriminate]. injection Hs as <-.
    apply calm_orphan; [apply calm_on_pong | exact Hne].
  - destruct (is_open k w); [|discriminate]. injection Hs as <-.
    destruct (on_message_callbacks raw w) as [[Hi Hp]|[Hi Hp]].
    + split; [rewrite Hp; discriminate|].
      exists (option_list (pendingErrorCallback (this w))). split; [exact Hi|].
      destruct (pendingErrorCallback (this w)) as [c|]; simpl; [|tauto].
      intros [->|[]]. apply Hne. reflexivity.
    + split; [rewrite Hp; exact Hne|].
      exists []. rewrite app_nil_r. split; [exact Hi | intros []].
  - destruct (pending_timer t w) as [[]|]; try discriminate; injection Hs as <-;
      (apply calm_orphan; [|exact Hne]).
    + eapply calm_trans; [apply calm_clearTimer | apply calm_reconnect_fire].
    + apply calm_ping_tick.
    + eapply calm_trans; [apply calm_clearTimer | apply calm_stable_fire].
Qed.

(** A callback that is not pending and is not registered again is never
    called, whatever happens. *)
Lemma run_orphan (cb : Callback) (es : list Event) (w w' : World) :
  run es w = Some w' -> Forall (fun e => registers cb e = false) es ->
  pendingErrorCallback (this w) <> Some cb ->
  exists l, invoked w' = (invoked w ++ l)%list /\ ~ In cb l.
Proof.
  revert w. induction es as [|e es IH]; intros w Hrun Hreg Hne; simpl in Hrun.
  - injection Hrun as <-. exists []. rewrite app_nil_r. split; [reflexivity | intros []].
  - destruct (step e w) as [w1|] eqn:Hs; [|discriminate].
    inversion Hreg as [|? ? Hr Hrest]; subst.
    destruct (step_orphan cb e w w1 Hs Hr Hne) as (Hne1 & l1 & Hi1 & Hn1).
    destruct (IH w1 Hrun Hrest Hne1) as (l2 & Hi2 & Hn2).
    exists (l1 ++ l2)%list. rewrite Hi2, Hi1, <- app_assoc. split; [reflexivity|].
    rewrite in_app_iff. tauto.
Qed.

Lemma last_cons {A} (l : list A) (a d : A) :
  List.last (a :: l) d = List.last l a.
Proof.
  revert a d. induction l as [|b l IH]; intros a d; [reflexivity|].
  change (List.last (b :: l) d = List.last (b :: l) a). rewrite !IH. reflexivity.
Qed.

Lemma send_all_callbacks (l : list (BvcCommand * option Callback)) (w : World) :
  session_open w = true ->
  invoked (send_all l w) = invoked w
  /\ session_open (send_all l w) = true
  /\ pendingErrorCallback (this (send_all l w))
     = List.last (map snd l) (pendingErrorCallback (this w))
  /\ length (transmitted (send_all l w)) = (length (transmitted w) + length l)%nat.
Proof.
  revert w. induction l as [|[cmd cb] r IH]; intros w Ho; simpl.
  - repeat split; [exact Ho | lia].
  - destruct (send_callbacks cmd cb w) as (Hi & Hp & Hs).
    rewrite Ho in Hp, Hs.
    destruct (IH _ Hs) as (Hi' & Ho' & Hp' & Ht').
    repeat split; [congruence | exact Ho' | |].
    + rewrite Hp', Hp. symmetry. apply last_cons.
    + rewrite Ht'. unfold send. unfold session_open in Ho.
      destruct (ws (this w)) as [k|]; [|discriminate]. rewrite Ho. cbn [snd].
      unfold transmitted, effect. cbn. rewrite omap_app, length_app. simpl. lia.
Qed.

(** C4: after any run of successful sends, a failure response calls the
    callback of the most recent send and no other, once, and clears it, so
    that a second failure response calls nothing; the callback of an
    earlier command, superseded before its response arrived, is never
    called afterwards, whatever events follow, unless it is registered
    again. *)
Theorem failure_response_callback
    (w : World) (earlier : list (BvcCommand * option Callback))
    (cmd : BvcCommand) (onError : option Callback) (msg : json) :
  session_open w = true ->
  Js.is_object msg = true -> Js.is_bool (Js.get msg "success") false = true ->
  let w1 := send_all (earlier ++ [(cmd, onError)]) w in
  let w2 := on_message (Some msg) w1 in
  length (transmitted w1) = (length (transmitted w) + length earlier + 1)%nat
  /\ invoked w2 = (invoked w ++ option_list onError)%list
  /\ pendingErrorCallback (this w2) = None
  /\ invoked (on_message (Some msg) w2) = invoked w2
  /\ (forall cb es w3,
        onError <> Some cb ->
        Forall (fun e => registers cb e = false) es ->
        run es w1 = Some w3 ->
        exists l, invoked w3 = (invoked w ++ l)%list /\ ~ In cb l).
Proof.
  intros Ho Hobj Hfail w1 w2.
  destruct (send_all_callbacks (earlier ++ [(cmd, onError)]) w Ho)
    as (Hi & _ & Hp & Ht).
  fold w1 in Hi, Hp, Ht.
  rewrite map_app in Hp. cbn [map snd] in Hp. rewrite List.last_last in Hp. rewrite length_app in Ht. simpl in Ht.
  assert (Hw2 : w2 = assign (fun m => set_pendingErrorCallback m None) (call_pending w1))
    by (apply on_message_failure; assumption).
  assert (Hi2 : invoked w2 = (invoked w ++ option_list onError)%list).
  { rewrite Hw2. unfold call_pending. rewrite Hp.
    destruct onError as [cb|]; cbn.
    - change (invoked (effect (Invoke cb) w1) = (invoked w ++ [cb])%list).
      rewrite invoked_effect, Hi. reflexivity.
    - change (invoked w1 = (invoked w ++ [])%list). rewrite app_nil_r. exact Hi. }
  assert (Hp2 : pendingErrorCallback (this w2) = None) by (rewrite Hw2; reflexivity).
  split; [lia|]. split; [exact Hi2|]. split; [exact Hp2|]. split.
  - rewrite on_message_failure by assumption.
    unfold call_pending. rewrite Hp2. reflexivity.
  - intros cb es w3 Hne Hreg Hrun.
    rewrite <- Hi. apply (run_orphan cb es w1 w3 Hrun Hreg).
    rewrite Hp. exact Hne.
Qed.

(** ** The state store: inbound shapes *)

Lemma differs_false (a : option bool) (v : bool) :
  differs a (Some v) = false -> a = Some v.
Proof. destruct a as [[]|], v; simpl; congruence. Qed.

Lemma notified_same (w : World) : notified (state (this w)) [] w = w.
Proof.
  destruct w as [[k h p key rt pt st ap ba ic pc s] so ti nt o].
  unfold notified. simpl. rewrite app_nil_r. reflexivity.
Qed.

Lemma notified_twice (s1 s2 : BvcState) (e1 e2 : list BvcStateEvent) (w : World) :
  notified s2 e2 (notified s1 e1 w) = notified s2 (e1 ++ e2) w.
Proof. unfold notified. simpl. rewrite map_app, app_assoc. reflexivity. Qed.

Lemma update_inputMuted_notified (v : bool) (w : World) :
  update_inputMuted v w
  = notified (set_inputMuted (Some v) (state (this w)))
             (notify (inputMuted (state (this w))) v inputMuteChanged) w.
Proof.
  unfold update_inputMuted, notify.
  destruct (differs (inputMuted (state (this w))) (Some v)) eqn:Hd; [reflexivity|].
  apply differs_false in Hd. rewrite <- (notified_same w) at 1. f_equal.
  destruct (state (this w)). simpl in *. subst. reflexivity.
Qed.

Lemma update_outputMuted_notified (v : bool) (w : World) :
  update_outputMuted v w
  = notified (set_outputMuted (Some v) (state (this w)))
             (notify (outputMuted (state (this w))) v outputMuteChanged) w.
Proof.
  unfold update_outputMuted, notify.
  destruct (differs (outputMuted (state (this w))) (Some v)) eqn:Hd; [reflexivity|].
  apply differs_false in Hd. rewrite <- (notified_same w) at 1. f_equal.
  destruct (state (this w)). simpl in *. subst. reflexivity.
Qed.

Lemma update_recording_notified (v : bool) (w : World) :
  update_recording v w
  = notified (set_recording (Some v) (state (this w)))
             (notify (recording (state (this w))) v recordingChanged) w.
Proof.
  unfold update_recording, notify.
  destruct (differs (recording (state (this w))) (Some v)) eqn:Hd; [reflexivity|].
  apply differs_false in Hd. rewrite <- (notified_same w) at 1. f_equal.
  destruct (state (this w)). simpl in *. subst. reflexivity.
Qed.

Lemma device_of_str (data : json) :
  device_of data
  = if Js.is_str (Js.get data "device") "input" then Some input
    else if Js.is_str (Js.get data "device") "output" then Some output
    else None.
Proof.
  unfold device_of, Js.is_str.
  destruct (Js.get data "device") as [[| | |d| |]|]; reflexivity.
Qed.

(** [handleMessage] does what the first matching shape says. *)
Lemma handleMessage_apply_shape (data : json) (w : World) :
  handleMessage data w
  = notified (fst (apply_shape (classify data) (state (this w))))
             (snd (apply_shape (classify data) (state (this w)))) w.
Proof.
  unfold handleMessage, classify. rewrite device_of_str.
  destruct (Js.is_bool (Js.get data "pong") true);
    [symmetry; apply notified_same|].
  destruct (Js.is_str (Js.get data "device") "input") eqn:Hin.
  { assert (Hout : Js.is_str (Js.get data "device") "output" = false).
    { unfold Js.is_str in *. destruct (Js.get data "device") as [[| | |d| |]|];
        try discriminate Hin. apply String.eqb_eq in Hin. subst d. reflexivity. }
    rewrite Hout.
    destruct (Js.as_bool (Js.get data "muted")) as [m|];
      [apply update_inputMuted_notified|].
    destruct (Js.as_bool (Js.get data "recording")) as [r|];
      [apply update_recording_notified | symmetry; apply notified_same]. }
  destruct (Js.is_str (Js.get data "device") "output");
    destruct (Js.as_bool (Js.get data "muted")) as [m|];
    try apply update_outputMuted_notified;
    destruct (Js.as_bool (Js.get data "deafened")) as [d|];
    destruct (Js.as_bool (Js.get data "recording")) as [r|];
    try apply update_recording_notified;
    try (symmetry; apply notified_same).
  all: rewrite update_inputMuted_notified, update_outputMuted_notified,
         update_recording_notified, !notified_twice;
       destruct (state (this w)); simpl; rewrite <- ?app_assoc; reflexivity.
Qed.

(** C5: an inbound payload is matched against the shapes in the order pong,
    single-device mute delta, full snapshot, bare recording delta, and
    exactly the first match is applied: a pong and an unrecognised payload
    leave the world as it is; a mute delta touches the field of its device
    only; a snapshot sets the three fields, each notifying when it changes,
    in the order input, output, recording; a recording delta touches
    [recording] only.  Nothing but the snapshot and the emitted
    notifications changes. *)
Theorem inbound_shapes (data : json) (w : World) :
  let st := state (this w) in
  let w' := handleMessage data w in
  w' = notified (fst (apply_shape (classify data) st))
                (snd (apply_shape (classify data) st)) w
  /\ connected (state (this w')) = connected st
  /\ match classify data with
     | Pong | Unrecognized => w' = w
     | MuteDelta input m =>
         state (this w') = mkState (connected st) (Some m) (outputMuted st) (recording st)
         /\ out w' = out w ++ (if differs (inputMuted st) (Some m)
                               then [Emit (inputMuteChanged (Some m))] else [])
     | MuteDelta output m =>
         state (this w') = mkState (connected st) (inputMuted st) (Some m) (recording st)
         /\ out w' = out w ++ (if differs (outputMuted st) (Some m)
                               then [Emit (outputMuteChanged (Some m))] else [])
     | Snapshot m d r =>
         state (this w') = mkState (connected st) (Some m) (Some d) (Some r)
         /\ out w' = out w
              ++ (if differs (inputMuted st) (Some m)
                  then [Emit (inputMuteChanged (Some m))] else [])
              ++ (if differs (outputMuted st) (Some d)
                  then [Emit (outputMuteChanged (Some d))] else [])
              ++ (if differs (recording st) (Some r)
                  then [Emit (recordingChanged (Some r))] else [])
     | RecordingDelta r =>
         state (this w') = mkState (connected st) (inputMuted st) (outputMuted st) (Some r)
         /\ out w' = out w ++ (if differs (recording st) (Some r)
                               then [Emit (recordingChanged (Some r))] else [])
     end.
Proof.
  intros st w'. subst w'. rewrite handleMessage_apply_shape. fold st.
  split; [reflexivity|]. split.
  - destruct (classify data) as [|[] m|m d r|r|]; reflexivity.
  - destruct (classify data) as [|[] m|m d r|r|]; unfold apply_shape, notify; cbn [fst snd].
    + apply notified_same.
    + split; [reflexivity|]. unfold notified. cbn [out].
      destruct (differs (inputMuted st) (Some m)); reflexivity.
    + split; [reflexivity|]. unfold notified. cbn [out].
      destruct (differs (outputMuted st) (Some m)); reflexivity.
    + split; [reflexivity|]. unfold notified. cbn [out].
      destruct (differs (inputMuted st) (Some m)),
               (differs (outputMuted st) (Some d)),
               (differs (recording st) (Some r)); reflexivity.
    + split; [reflexivity|]. unfold notified. cbn [out].
      destruct (differs (recording st) (Some r)); reflexivity.
    + apply notified_same.
Qed.

(** The scenarios of the spec: a snapshot that changes input and recording
    but not output, and a mute delta for the input device. *)
Example snapshot_scenario (w : World) :
  state (this w) = mkState true (Some true) (Some true) (Some true) ->
  let data := JObj [("muted", JBool false); ("deafened", JBool true);
                    ("recording", JBool false)] in
  out (handleMessage data w)
  = out w ++ [Emit (inputMuteChanged (Some false)); Emit (recordingChanged (Some false))]
  /\ state (this (handleMessage data w))
     = mkState true (Some false) (Some true) (Some false).
Proof.
  intros Hs data. rewrite handleMessage_apply_shape, Hs. split; reflexivity.
Qed.

Example mute_delta_scenario (w : World) (c : bool) (o r : option bool) :
  state (this w) = mkState c (Some false) o r ->
  let data := JObj [("device", JStr "input"); ("muted", JBool true)] in
  out (handleMessage data w) = out w ++ [Emit (inputMuteChanged (Some true))]
  /\ state (this (handleMessage data w)) = mkState c (Some true) o r.
Proof.
  intros Hs data. rewrite handleMessage_apply_shape, Hs. split; reflexivity.
Qed.

(** ** Idempotence of diff-based notification *)

Lemma apply_shape_twice (sh : Shape) (st : BvcState) :
  apply_shape sh (fst (apply_shape sh st)) = (fst (apply_shape sh st), []).
Proof.
  destruct st as [c im om rc].
  destruct sh as [|[] m|m d r|r|]; unfold apply_shape, notify; cbn;
    try reflexivity;
    repeat match goal with
      | |- context [Bool.eqb ?b ?b] => rewrite (Bool.eqb_reflx b); cbn
      end; reflexivity.
Qed.

(** C6: applying the same payload twice in a row emits, the second time,
    no notification, and leaves the world, the state snapshot included,
    as the first application left it. *)
Theorem handleMessage_idempotent (data : json) (w : World) :
  let w1 := handleMessage data w in
  let w2 := handleMessage data w1 in
  w2 = w1 /\ state (this w2) = state (this w1) /\ emitted w2 = emitted w1
  /\ out w2 = out w1.
Proof.
  intros w1 w2.
  assert (H : w2 = w1).
  { subst w2. rewrite handleMessage_apply_shape.
    subst w1. rewrite handleMessage_apply_shape at 1 2 3.
    set (st := state (this w)).
    change (state (this (notified ?s ?e w))) with s.
    rewrite apply_shape_twice. cbn [fst snd].
    rewrite notified_twice, app_nil_r.
    rewrite handleMessage_apply_shape. reflexivity. }
  rewrite H. repeat split.
Qed.

(** ** The close transition *)

Ltac destruct_world w :=
  let st := fresh "st" in
  let c := fresh "c" in
  let im := fresh "im" in
  let om := fresh "om" in
  let rc := fresh "rc" in
  destruct w as [[? ? ? ? ? ? ? ? ? ? ? st] ? ? ? ?];
  destruct st as [c im om rc]; destruct im, om, rc.

Lemma setDisconnectedState_state (w : World) :
  state (this (setDisconnectedState w))
  = mkState (connected (state (this w))) None None None.
Proof.
  destruct_world w; reflexivity.
Qed.

Lemma setDisconnectedState_frame (w : World) :
  let w' := setDisconnectedState w in
  set_state (this w') (state (this w)) = this w
  /\ sockets w' = sockets w /\ timers w' = timers w
  /\ next_timer w' = next_timer w.
Proof.
  destruct_world w; repeat split.
Qed.

(** What the [close] handler leaves behind. *)
Lemma on_close_result (w : World) :
  let w' := on_close w in
  ws (this w') = None
  /\ pingTimer (this w') = None
  /\ stableTimer (this w') = None
  /\ awaitingPong (this w') = false
  /\ connected (state (this w')) = false
  /\ (disconnected_unknown (state (this w)) -> disconnected_unknown (state (this w')))
  /\ intentionalClose (this w') = intentionalClose (this w)
  /\ sockets w' = sockets w.
Proof. clear valid_url.
  destruct_world w;
    match goal with
    | |- context [mkManager _ _ _ _ _ ?pt ?st _ _ ?ic _ (mkState ?c _ _ _)] =>
        destruct pt, st, ic, c
    end;
    unfold disconnected_unknown; cbn; intuition congruence.
Qed.

Lemma scheduleReconnect_result (w : World) :
  let w' := scheduleReconnect w in
  reconnectTimer (this w') = Some (next_timer w)
  /\ timers w' = timers w ++ [(next_timer w, ReconnectTimer (reconnect_delay (backoffAttempts (this w))))]
  /\ backoffAttempts (this w') = S (backoffAttempts (this w))
  /\ next_timer w' = S (next_timer w)
  /\ state (this w') = state (this w)
  /\ ws (this w') = ws (this w)
  /\ sockets w' = sockets w /\ out w' = out w.
Proof. repeat split. Qed.

Lemma on_close_schedules (w : World) :
  intentionalClose (this w) = false ->
  let w' := on_close w in
  exists t,
    reconnectTimer (this w') = Some t
    /\ In (t, ReconnectTimer (reconnect_delay (backoffAttempts (this w)))) (timers w')
    /\ backoffAttempts (this w') = S (backoffAttempts (this w)).
Proof.
  intros Hic w'. subst w'. unfold on_close.
  set (w4 := if connected _ then _ else _).
  assert (H : intentionalClose (this w4) = false /\ backoffAttempts (this w4) = backoffAttempts (this w)).
  { subst w4. destruct_world w; cbn in *; subst;
    match goal with
    | |- context [mkManager _ _ _ _ _ ?pt ?st _ _ _ _ (mkState ?c _ _ _)] =>
        destruct pt, st, c
    end; cbn; split; reflexivity. }
  destruct H as [H1 H2]. rewrite H1.
  exists (next_timer w4). destruct (scheduleReconnect_result w4) as (A & B & C & _).
  rewrite A, B, C, H2. repeat split. apply in_or_app. right. left. reflexivity.
Qed.

Lemma keeps_terminate {A} (proj : WsManager -> A) (k : nat) (w : World) :
  keeps proj w (terminate k w).
Proof.
  unfold keeps, terminate.
  destruct (readyState k (effect (Terminate k) w)) as [[]|]; reflexivity.
Qed.

Lemma connect_keeps {A} (proj : WsManager -> A) (w : World) :
  (forall m v, proj (set_reconnectTimer m v) = proj m) ->
  (forall m v, proj (set_intentionalClose m v) = proj m) ->
  (forall m v, proj (set_ws m v) = proj m) ->
  keeps proj w (connect w).
Proof.
  intros Hr Hi Hw. unfold connect.
  set (w1 := match reconnectTimer (this w) with Some t => _ | None => w end).
  assert (H1 : keeps proj w w1).
  { subst w1. destruct (reconnectTimer (this w)); [|reflexivity]. apply Hr. }
  set (w2 := match ws (this w1) with Some k => _ | None => w1 end).
  assert (H2 : keeps proj w1 w2).
  { subst w2. destruct (ws (this w1)) as [k|]; [|reflexivity].
    unfold keeps. cbn. rewrite Hw.
    rewrite (keeps_terminate proj k _). apply Hi. }
  unfold newWebSocket.
  destruct (valid_url _ _); unfold keeps in *; cbn; rewrite ?Hw, Hi; congruence.
Qed.

Lemma connect_state (w : World) : state (this (connect w)) = state (this w).
Proof. apply (connect_keeps state); intros []; reflexivity. Qed.

Lemma connect_backoffAttempts (w : World) :
  backoffAttempts (this (connect w)) = backoffAttempts (this w).
Proof. apply (connect_keeps backoffAttempts); intros []; reflexivity. Qed.

Lemma connect_intentionalClose (w : World) :
  intentionalClose (this (connect w)) = false.
Proof. unfold connect, newWebSocket. destruct (valid_url _ _); reflexivity. Qed.

Lemma send_state (cmd : BvcCommand) (cb : option Callback) (w : World) :
  state (this (snd (send cmd cb w))) = state (this w).
Proof.
  unfold send. destruct (ws (this w)) as [k|]; [|reflexivity].
  destruct (is_open k w); reflexivity.
Qed.

Lemma ping_tick_state (w : World) : state (this (ping_tick w)) = state (this w).
Proof.
  unfold ping_tick. destruct (awaitingPong (this w)), (ws (this w)) as [k|];
    try reflexivity.
  - apply (keeps_terminate state).
  - destruct (is_open k w); reflexivity.
Qed.

Lemma disconnect_unknown (w : World) :
  disconnected_unknown (state (this w)) ->
  disconnected_unknown (state (this (disconnect w))).
Proof.
  unfold disconnect.
  set (w1 := assign _ w).
  set (w2 := match reconnectTimer (this w1) with Some t => _ | None => w1 end).
  assert (H2 : state (this w2) = state (this w)).
  { subst w2. destruct (reconnectTimer (this w1)); reflexivity. }
  set (w4 := stopStableTimer (stopPing w2)).
  assert (H4 : state (this w4) = state (this w2)).
  { subst w4. unfold stopStableTimer, stopPing.
    destruct (pingTimer (this w2)); cbn;
      match goal with |- context [match ?x with _ => _ end] => destruct x end;
      reflexivity. }
  set (w5 := match ws (this w4) with Some k => _ | None => w4 end).
  assert (H5 : state (this w5) = state (this w4)).
  { subst w5. destruct (ws (this w4)) as [k|]; [|reflexivity].
    cbn. apply (keeps_terminate state). }
  intros Hinv.
  destruct (connected (state (this w5))) eqn:Hc.
  - rewrite setDisconnectedState_state. intros _. repeat split.
  - rewrite H5, H4, H2. exact Hinv.
Qed.

Lemma on_open_connected (w : World) : connected (state (this (on_open w))) = true.
Proof.
  unfold on_open.
  set (w1 := setConnected true w).
  unfold startStableTimer, startPing, setTimer. cbn.
  rewrite send_state. reflexivity.
Qed.

Lemma handleMessage_connected (data : json) (w : World) :
  connected (state (this (handleMessage data w))) = connected (state (this w)).
Proof.
  rewrite handleMessage_apply_shape.
  destruct (classify data) as [|[] m|m d r|r|]; reflexivity.
Qed.

Lemma on_message_connected (raw : option json) (w : World) :
  connected (state (this (on_message raw w))) = connected (state (this w)).
Proof.
  unfold on_message. destruct raw as [msg|]; [|reflexivity].
  destruct (negb (Js.truthy (Some msg)) || negb (Js.is_object msg)); [reflexivity|].
  destruct (Js.is_bool (Js.get msg "success") false).
  - unfold call_pending. destruct (pendingErrorCallback (this w)); reflexivity.
  - destruct (negb (Js.truthy (Js.get msg "data"))); [reflexivity|].
    destruct (Js.get msg "data"); [apply handleMessage_connected | reflexivity].
Qed.

Lemma on_settings_unknown (s : GlobalSettings) (w : World) :
  disconnected_unknown (state (this w)) ->
  disconnected_unknown (state (this (on_settings s w))).
Proof.
  intros H. unfold on_settings.
  assert (Hs : state (this (snd (applySettings s w))) = state (this w)) by reflexivity.
  destruct (applySettings s w) as [[] w1]; cbn [snd] in Hs.
  - rewrite connect_state. cbn.
    change (disconnected_unknown (state (this (disconnect w1)))).
    apply disconnect_unknown. rewrite Hs. exact H.
  - rewrite Hs. exact H.
Qed.

Lemma step_unknown (e : Event) (w w' : World) :
  frame_while_connected e w = true -> step e w = Some w' ->
  disconnected_unknown (state (this w)) ->
  disconnected_unknown (state (this w')).
Proof.
  intros Hf Hs Hinv.
  destruct e as [s|s|cmd o| | |k|k|k|k|k raw|t]; simpl in Hs, Hf.
  - injection Hs as <-. unfold initialize. rewrite connect_state. exact Hinv.
  - injection Hs as <-. apply on_settings_unknown, Hinv.
  - injection Hs as <-. rewrite send_state. exact Hinv.
  - injection Hs as <-. rewrite connect_state. exact Hinv.
  - injection Hs as <-. apply disconnect_unknown, Hinv.
  - destruct (readyState k w) as [[]|]; try discriminate. injection Hs as <-.
    intros Hc. rewrite on_open_connected in Hc. discriminate.
  - destruct (readyState k w) as [[]|]; try discriminate; injection Hs as <-;
      apply on_close_result; exact Hinv.
  - destruct (readyState k w) as [[]|]; try discriminate; injection Hs as <-;
      exact Hinv.
  - destruct (is_open k w); [|discriminate]. injection Hs as <-. exact Hinv.
  - destruct (is_open k w); [|discriminate]. injection Hs as <-.
    intros Hc. rewrite on_message_connected, Hf in Hc. discriminate.
  - destruct (pending_timer t w) as [[]|]; try discriminate; injection Hs as <-.
    + unfold reconnect_fire. rewrite connect_state. exact Hinv.
    + rewrite ping_tick_state. exact Hinv.
    + exact Hinv.
Qed.

(** Along a run in which no frame is handled while the snapshot says
    disconnected, the three fields stay unknown while disconnected. *)
Lemma run_connected_unknown (es : list Event) (w w' : World) :
  run_connected es w = Some w' ->
  disconnected_unknown (state (this w)) ->
  disconnected_unknown (state (this w')).
Proof.
  revert w. induction es as [|e es IH]; intros w Hrun Hinv; simpl in Hrun.
  - injection Hrun as <-. exact Hinv.
  - destruct (frame_while_connected e w) eqn:Hf; [|discriminate].
    destruct (step e w) as [w1|] eqn:Hs; [|discriminate].
    apply (IH w1 Hrun). exact (step_unknown e w w1 Hf Hs Hinv).
Qed.

(** C1 fails on the code.  The close handler and [disconnect] force the
    three fields to unknown, and every event other than an inbound frame
    keeps them unknown while disconnected ([run_connected_unknown]); but
    [handleMessage] applies a frame without looking at [connected].  A
    frame from a socket that is still open while the snapshot says
    disconnected makes a field known again.  Such a socket exists once two
    sessions overlap, which the defect of C8 brings about. *)
Theorem frame_fills_disconnected_snapshot (w : World) (k : nat) (b : bool) :
  connected (state (this w)) = false -> is_open k w = true ->
  exists w',
    step (SocketMessage k (Some (JObj [("data", JObj [("device", JStr "input");
                                                      ("muted", JBool b)])]))) w
    = Some w'
    /\ connected (state (this w')) = false
    /\ inputMuted (state (this w')) = Some b
    /\ ~ disconnected_unknown (state (this w')).
Proof.
  intros Hc Ho. eexists. simpl. rewrite Ho. split; [reflexivity|].
  assert (H : connected (state (this (update_inputMuted b w))) = false
              /\ inputMuted (state (this (update_inputMuted b w))) = Some b).
  { unfold update_inputMuted.
    destruct (differs (inputMuted (state (this w))) (Some b)) eqn:E.
    - split; [exact Hc | reflexivity].
    - split; [exact Hc | apply differs_false, E]. }
  destruct H as [H1 H2].
  change (on_message _ w) with (update_inputMuted b w).
  split; [exact H1|]. split; [exact H2|].
  intros Hinv. destruct (Hinv H1) as (Hn & _).
  change (inputMuted (state (this (update_inputMuted b w))) = None) in Hn.
  rewrite H2 in Hn. discriminate Hn.
Qed.

(** ** Reconnection backoff *)

Lemma reconnect_delay_ceiling (n : nat) :
  RECONNECT_BASE_MS <= reconnect_delay n <= RECONNECT_MAX_MS.
Proof.
  unfold reconnect_delay, RECONNECT_BASE_MS, RECONNECT_MAX_MS.
  assert (0 < 2 ^ Z.of_nat n) by (apply Z.pow_pos_nonneg; lia). lia.
Qed.

Lemma reconnect_delay_monotone (n : nat) :
  reconnect_delay n <= reconnect_delay (S n).
Proof.
  unfold reconnect_delay, RECONNECT_BASE_MS, RECONNECT_MAX_MS.
  rewrite Nat2Z.inj_succ, Z.pow_succ_r by lia.
  assert (0 < 2 ^ Z.of_nat n) by (apply Z.pow_pos_nonneg; lia). lia.
Qed.

Lemma reconnect_delay_le (n m : nat) :
  (n <= m)%nat -> reconnect_delay n <= reconnect_delay m.
Proof.
  induction 1 as [|m _ IH]; [lia|].
  pose proof (reconnect_delay_monotone m). lia.
Qed.

Lemma failed_attempt_counts (w : World) :
  intentionalClose (this w) = false ->
  intentionalClose (this (failed_attempt w)) = false
  /\ backoffAttempts (this (failed_attempt w)) = S (backoffAttempts (this w)).
Proof.
  intros Hic. unfold failed_attempt, reconnect_fire.
  split; [apply connect_intentionalClose|].
  rewrite connect_backoffAttempts. cbn.
  destruct (on_close_schedules w Hic) as (t & _ & _ & H). exact H.
Qed.

Lemma failed_attempts_count (n : nat) (w : World) :
  intentionalClose (this w) = false ->
  intentionalClose (this (Nat.iter n failed_attempt w)) = false
  /\ backoffAttempts (this (Nat.iter n failed_attempt w))
     = (backoffAttempts (this w) + n)%nat.
Proof.
  intros Hic. induction n as [|n [IH1 IH2]].
  - split; [exact Hic | simpl; lia].
  - change (Nat.iter (S n) failed_attempt w)
      with (failed_attempt (Nat.iter n failed_attempt w)).
    destruct (failed_attempt_counts _ IH1) as [H1 H2].
    split; [exact H1 | rewrite H2, IH2; lia].
Qed.

Lemma on_open_stable_timer (w : World) :
  stableTimer (this (on_open w)) = Some (S (next_timer w))
  /\ In (S (next_timer w), StableTimer STABLE_THRESHOLD_MS) (timers (on_open w))
  /\ pingTimer (this (on_open w)) = Some (next_timer w)
  /\ In (next_timer w, PingTimer PING_INTERVAL_MS) (timers (on_open w)).
Proof.
  unfold on_open.
  set (w1 := setConnected true w).
  assert (H : next_timer (snd (send CmdState None w1)) = next_timer w
              /\ timers (snd (send CmdState None w1)) = timers w).
  { unfold send. destruct (ws (this w1)) as [k|]; [|split; reflexivity].
    destruct (is_open k w1); split; reflexivity. }
  destruct H as [Hn Ht].
  unfold startStableTimer, startPing, setTimer. cbn. rewrite Hn.
  repeat split; rewrite !in_app_iff; simpl; auto.
Qed.

Lemma stopStableTimer_cancels (w : World) (t : nat) :
  stableTimer (this w) = Some t -> pending_timer t (stopStableTimer w) = None.
Proof.
  intros H. unfold stopStableTimer. rewrite H.
  unfold pending_timer, clearTimer. cbn.
  induction (timers w) as [|[t' k] l IH]; [reflexivity|]. simpl.
  destruct (Nat.eqb t' t) eqn:E; simpl; [exact IH|]. rewrite E. exact IH.
Qed.

(** The backoff along failed attempts that no other event interrupts:
    after [n] of them, counted from a reset counter, the close of the
    session schedules the reconnect after min(1000 * 2^n, 30000)
    milliseconds and counts one more attempt; that delay does not decrease
    from one attempt to the next and never exceeds 30000.  A stability
    timer is started with 30000 milliseconds by every [open], the one the
    manager refers to is cancelled by the close, and a stability timer that
    fires resets the counter to zero. *)
Lemma reconnect_backoff (n : nat) (w : World) :
  intentionalClose (this w) = false ->
  backoffAttempts (this w) = 0%nat ->
  let w' := on_close (Nat.iter n failed_attempt w) in
  (exists t,
      reconnectTimer (this w') = Some t
      /\ In (t, ReconnectTimer (Z.min (1000 * 2 ^ Z.of_nat n) 30000)) (timers w')
      /\ backoffAttempts (this w') = S n)
  /\ reconnect_delay n = Z.min (1000 * 2 ^ Z.of_nat n) 30000
  /\ (forall m, (n <= m)%nat -> reconnect_delay n <= reconnect_delay m <= 30000)
  /\ (forall v t, pending_timer t v = Some (StableTimer STABLE_THRESHOLD_MS) ->
        exists v', step (TimerFires t) v = Some v'
                   /\ backoffAttempts (this v') = 0%nat
                   /\ (intentionalClose (this v') = false ->
                       exists t', In (t', ReconnectTimer 1000) (timers (on_close v'))))
  /\ (forall v, exists t,
        stableTimer (this (on_open v)) = Some t
        /\ In (t, StableTimer 30000) (timers (on_open v)))
  /\ (forall v t, stableTimer (this v) = Some t ->
        pending_timer t (stopStableTimer v) = None).
Proof.
  intros Hic H0 w'.
  destruct (failed_attempts_count n w Hic) as [H1 H2]. rewrite H0 in H2. simpl in H2.
  split; [|split; [reflexivity|split; [|split; [|split]]]].
  - destruct (on_close_schedules _ H1) as (t & Ht & Hin & Hb).
    rewrite H2 in Hin, Hb. exists t. repeat split; assumption.
  - intros m Hm. split; [apply reconnect_delay_le, Hm | apply reconnect_delay_ceiling].
  - intros v t Hp. simpl. rewrite Hp. eexists. split; [reflexivity|].
    split; [reflexivity|]. intros Hi.
    destruct (on_close_schedules _ Hi) as (t' & _ & Hin & _).
    exists t'. exact Hin.
  - intros v. exists (S (next_timer v)).
    destruct (on_open_stable_timer v) as (A & B & _). split; assumption.
  - intros v t. apply stopStableTimer_cancels.
Qed.

(** ** Heartbeat *)

Lemma terminate_result (k : nat) (w : World) (r : ReadyState) :
  readyState k w = Some r -> r <> CLOSED ->
  this (terminate k w) = this w
  /\ out (terminate k w) = out w ++ [Terminate k]
  /\ timers (terminate k w) = timers w
  /\ readyState k (terminate k w) = Some CLOSING.
Proof.
  intros Hr Hne. unfold terminate.
  change (readyState k (effect (Terminate k) w)) with (readyState k w).
  rewrite Hr. unfold readyState in *.
  destruct r; try (exfalso; apply Hne; reflexivity); cbn;
    repeat split; apply list_lookup_insert_eq; eapply lookup_lt_Some; exact Hr.
Qed.

Lemma ping_tick_timers (w : World) : timers (ping_tick w) = timers w.
Proof.
  unfold ping_tick, terminate.
  destruct (awaitingPong (this w)), (ws (this w)) as [k|]; try reflexivity.
  - destruct (readyState k (effect (Terminate k) w)) as [[]|]; reflexivity.
  - destruct (is_open k w); reflexivity.
Qed.

(** C7: at a heartbeat tick of an open session, a probe that is still
    outstanding makes the manager terminate the session at once, and the
    close event that follows runs the close transition; otherwise a probe
    is sent and marked outstanding.  An acknowledgement clears the mark
    whenever it arrives.  The tick is the callback of an interval timer of
    15000 milliseconds that every [open] starts. *)
Theorem heartbeat_tick (w : World) :
  (forall k, ws (this w) = Some k -> is_open k w = true ->
     awaitingPong (this w) = true ->
     ping_tick w = terminate k w
     /\ out (ping_tick w) = out w ++ [Terminate k]
     /\ readyState k (ping_tick w) = Some CLOSING
     /\ exists w', step (SocketClose k) (ping_tick w) = Some w'
                   /\ w' = on_close (set_readyState k CLOSED (ping_tick w))
                   /\ ws (this w') = None
                   /\ connected (state (this w')) = false
                   /\ pingTimer (this w') = None
                   /\ stableTimer (this w') = None)
  /\ (forall k, ws (this w) = Some k -> is_open k w = true ->
      awaitingPong (this w) = false ->
      out (ping_tick w) = out w ++ [Probe k]
      /\ awaitingPong (this (ping_tick w)) = true
      /\ sockets (ping_tick w) = sockets w)
  /\ awaitingPong (this (on_pong w)) = false
  /\ (forall k, is_open k w = true -> step (SocketPong k) w = Some (on_pong w))
  /\ (forall t, pending_timer t w = Some (PingTimer PING_INTERVAL_MS) ->
        step (TimerFires t) w = Some (ping_tick w)
        /\ pending_timer t (ping_tick w) = Some (PingTimer 15000))
  /\ (exists t, pingTimer (this (on_open w)) = Some t
                /\ In (t, PingTimer 15000) (timers (on_open w))).
Proof.
  assert (Hr : forall k, is_open k w = true -> readyState k w = Some OPEN).
  { intros k Ho. unfold is_open in Ho.
    destruct (readyState k w) as [[]|]; try discriminate. reflexivity. }
  split; [|split; [|split; [|split; [|split]]]].
  - intros k Hws Ho Ha.
    assert (Ht : ping_tick w = terminate k w)
      by (unfold ping_tick; rewrite Ha, Hws; reflexivity).
    destruct (terminate_result k w OPEN (Hr k Ho)) as (_ & Hout & _ & Hcl);
      [discriminate|].
    rewrite Ht. split; [reflexivity|]. split; [exact Hout|]. split; [exact Hcl|].
    eexists. simpl. rewrite Hcl. split; [reflexivity|].
    split; [reflexivity|].
    destruct (on_close_result (set_readyState k CLOSED (terminate k w)))
      as (A & B & C & _ & E & _).
    repeat split; assumption.
  - intros k Hws Ho Ha. unfold ping_tick. rewrite Ha, Hws, Ho. repeat split.
  - reflexivity.
  - intros k Ho. simpl. rewrite Ho. reflexivity.
  - intros t Hp. simpl. rewrite Hp. split; [reflexivity|].
    unfold pending_timer in *. rewrite ping_tick_timers. exact Hp.
  - exists (next_timer w). destruct (on_open_stable_timer w) as (_ & _ & A & B).
    split; assumption.
Qed.

(** ** Superseded sessions *)

Lemma connect_supersedes (w : World) (k : nat) (r : ReadyState) :
  ws (this w) = Some k -> readyState k w = Some r -> r <> CLOSED ->
  In (Terminate k) (out (connect w))
  /\ readyState k (connect w) = Some CLOSING.
Proof.
  intros Hws Hr Hne. unfold connect.
  set (w1 := match reconnectTimer (this w) with Some t => _ | None => w end).
  assert (H1 : ws (this w1) = Some k /\ readyState k w1 = Some r).
  { subst w1. destruct (reconnectTimer (this w)); split; assumption. }
  destruct H1 as [Hws1 Hr1]. rewrite Hws1.
  set (w1' := assign (fun m => set_intentionalClose m true) w1).
  destruct (terminate_result k w1' r Hr1 Hne) as (_ & Hout & _ & Hcl).
  unfold newWebSocket, readyState in *.
  destruct (valid_url _ _); cbn; (split; [rewrite Hout, !in_app_iff; simpl; auto|]).
  - rewrite lookup_app_l; [exact Hcl|]. eapply lookup_lt_Some. exact Hcl.
  - exact Hcl.
Qed.

(** C8 fails on the code: [connect] marks the close as intentional, terminates
    the previous session, and resets the mark before it returns; the close
    event of the terminated session arrives afterwards, finds the mark
    reset, drops the handle of the new session and schedules a reconnect. *)
Theorem superseded_close_schedules_reconnect (w : World) (k : nat) (r : ReadyState) :
  ws (this w) = Some k -> readyState k w = Some r -> r <> CLOSED ->
  In (Terminate k) (out (connect w))
  /\ intentionalClose (this (connect w)) = false
  /\ exists w', step (SocketClose k) (connect w) = Some w'
                /\ ws (this w') = None
                /\ backoffAttempts (this w') = S (backoffAttempts (this w))
                /\ exists t, reconnectTimer (this w') = Some t
                             /\ In (t, ReconnectTimer (reconnect_delay (backoffAttempts (this w))))
                                   (timers w').
Proof.
  intros Hws Hr Hne.
  destruct (connect_supersedes w k r Hws Hr Hne) as [Hin Hcl].
  split; [exact Hin|]. split; [apply connect_intentionalClose|].
  eexists. simpl. rewrite Hcl. split; [reflexivity|].
  set (w1 := set_readyState k CLOSED (connect w)).
  assert (Hic : intentionalClose (this w1) = false)
    by (apply connect_intentionalClose).
  assert (Hb : backoffAttempts (this w1) = backoffAttempts (this w))
    by (apply connect_backoffAttempts).
  destruct (on_close_result w1) as (A & _).
  destruct (on_close_schedules w1 Hic) as (t & B & C & D).
  rewrite Hb in C, D.
  split; [exact A|]. split; [exact D|]. exists t. split; assumption.
Qed.

(** * Further properties *)

(** ** The snapshot and its notifications *)

Lemma replay_app (e1 e2 : list BvcStateEvent) (st : BvcState) :
  replay (e1 ++ e2) st = replay e2 (replay e1 st).
Proof. apply fold_left_app. Qed.

Lemma genuine_app (e1 e2 : list BvcStateEvent) (st : BvcState) :
  genuine (e1 ++ e2) st = genuine e1 st && genuine e2 (replay e1 st).
Proof.
  revert st. induction e1 as [|ev r IH]; intros st; [reflexivity|].
  simpl. rewrite IH, andb_assoc. reflexivity.
Qed.

Lemma mirrors_refl (w : World) : mirrors w w.
Proof. exists []. rewrite app_nil_r. repeat split. Qed.

Lemma mirrors_trans (w1 w2 w3 : World) : mirrors w1 w2 -> mirrors w2 w3 -> mirrors w1 w3.
Proof.
  intros (e1 & A1 & B1 & C1) (e2 & A2 & B2 & C2). exists (e1 ++ e2).
  rewrite A2, A1, app_assoc, replay_app, genuine_app, C1, <- B1, C2, B2, B1.
  repeat split.
Qed.

Lemma emitted_effect (e : Effect) (w : World) :
  emitted (effect e w)
  = emitted w ++ match e with Emit ev => [ev] | _ => [] end.
Proof.
  unfold emitted, effect. simpl. rewrite omap_app. destruct e; reflexivity.
Qed.

(** Whatever leaves the snapshot and the notifications alone. *)
Lemma mirrors_still (w w' : World) :
  emitted w' = emitted w -> state (this w') = state (this w) -> mirrors w w'.
Proof. intros A B. exists []. rewrite app_nil_r. repeat split; assumption. Qed.

Lemma mirrors_effect (e : Effect) (w : World) :
  (forall ev, e <> Emit ev) -> mirrors w (effect e w).
Proof.
  intros H. apply mirrors_still; [|reflexivity].
  rewrite emitted_effect. destruct e; try apply app_nil_r.
  exfalso. apply (H ev). reflexivity.
Qed.

Lemma mirrors_assign (f : WsManager -> WsManager) (w : World) :
  (forall m, state (f m) = state m) -> mirrors w (assign f w).
Proof. intros H. apply mirrors_still; [reflexivity | apply H]. Qed.

Lemma mirrors_terminate (k : nat) (w : World) : mirrors w (terminate k w).
Proof.
  unfold terminate.
  assert (H : mirrors w (effect (Terminate k) w)) by (apply mirrors_effect; discriminate).
  destruct (readyState k (effect (Terminate k) w)) as [[]|]; try exact H;
    (eapply mirrors_trans; [exact H | apply mirrors_still; reflexivity]).
Qed.

(** An assignment to the snapshot followed by its notification. *)
Lemma mirrors_notify (ev : BvcStateEvent) (w : World) :
  genuine_event ev (state (this w)) = true ->
  mirrors w (emit ev (assign_state (apply_event ev) w)).
Proof.
  intros H. exists [ev]. unfold emit. rewrite emitted_effect.
  repeat split. simpl. rewrite H. reflexivity.
Qed.

Ltac mirrors_step :=
  match goal with
  | |- mirrors ?w ?w => apply mirrors_refl
  | |- mirrors ?w (assign _ ?w') =>
      apply (mirrors_trans w w'); [|apply mirrors_assign; intros []; reflexivity]
  | |- mirrors ?w (effect _ ?w') =>
      apply (mirrors_trans w w'); [|apply mirrors_effect; discriminate]
  | |- mirrors ?w (terminate _ ?w') =>
      apply (mirrors_trans w w'); [|apply mirrors_terminate]
  | |- mirrors ?w (clearTimer _ ?w') =>
      apply (mirrors_trans w w'); [|apply mirrors_still; reflexivity]
  | |- mirrors ?w (set_readyState _ _ ?w') =>
      apply (mirrors_trans w w'); [|apply mirrors_still; reflexivity]
  | |- mirrors ?w (mkWorld (this ?w') _ _ _ (out ?w')) =>
      apply (mirrors_trans w w'); [|apply mirrors_still; reflexivity]
  | |- mirrors ?w (match ?x with _ => _ end) => destruct x
  | |- mirrors ?w (if ?x then _ else _) => destruct x
  end.

Lemma mirrors_setConnected_true (w : World) : mirrors w (setConnected true w).
Proof. apply (mirrors_notify (connectionChanged true)). reflexivity. Qed.

Lemma mirrors_setConnected_false (w : World) :
  connected (state (this w)) = true -> mirrors w (setConnected false w).
Proof. intros H. apply (mirrors_notify (connectionChanged false)). exact H. Qed.

Lemma mirrors_setDisconnectedState (w : World) : mirrors w (setDisconnectedState w).
Proof.
  unfold setDisconnectedState.
  set (w1 := match inputMuted (state (this w)) with Some _ => _ | None => w end).
  assert (H1 : mirrors w w1).
  { subst w1. destruct (inputMuted (state (this w))) eqn:E; [|apply mirrors_refl].
    apply (mirrors_notify (inputMuteChanged None)). simpl. rewrite E. reflexivity. }
  set (w2 := match outputMuted (state (this w1)) with Some _ => _ | None => w1 end).
  assert (H2 : mirrors w1 w2).
  { subst w2. destruct (outputMuted (state (this w1))) eqn:E; [|apply mirrors_refl].
    apply (mirrors_notify (outputMuteChanged None)). simpl. rewrite E. reflexivity. }
  apply (mirrors_trans w w2); [eapply mirrors_trans; eassumption|].
  destruct (recording (state (this w2))) eqn:E; [|apply mirrors_refl].
  apply (mirrors_notify (recordingChanged None)). simpl. rewrite E. reflexivity.
Qed.

Lemma mirrors_update_inputMuted (v : bool) (w : World) : mirrors w (update_inputMuted v w).
Proof.
  unfold update_inputMuted.
  destruct (differs (inputMuted (state (this w))) (Some v)) eqn:E; [|apply mirrors_refl].
  apply (mirrors_notify (inputMuteChanged (Some v))). exact E.
Qed.

Lemma mirrors_update_outputMuted (v : bool) (w : World) : mirrors w (update_outputMuted v w).
Proof.
  unfold update_outputMuted.
  destruct (differs (outputMuted (state (this w))) (Some v)) eqn:E; [|apply mirrors_refl].
  apply (mirrors_notify (outputMuteChanged (Some v))). exact E.
Qed.

Lemma mirrors_update_recording (v : bool) (w : World) : mirrors w (update_recording v w).
Proof.
  unfold update_recording.
  destruct (differs (recording (state (this w))) (Some v)) eqn:E; [|apply mirrors_refl].
  apply (mirrors_notify (recordingChanged (Some v))). exact E.
Qed.

Lemma mirrors_handleMessage (data : json) (w : World) : mirrors w (handleMessage data w).
Proof.
  unfold handleMessage.
  destruct (Js.is_bool (Js.get data "pong") true); [apply mirrors_refl|].
  destruct (Js.is_str (Js.get data "device") "input"),
           (Js.is_str (Js.get data "device") "output"),
           (Js.as_bool (Js.get data "muted")),
           (Js.as_bool (Js.get data "deafened")),
           (Js.as_bool (Js.get data "recording"));
    first [ apply mirrors_refl
          | apply mirrors_update_inputMuted
          | apply mirrors_update_outputMuted
          | apply mirrors_update_recording
          | eapply mirrors_trans;
            [eapply mirrors_trans;
             [apply mirrors_update_inputMuted | apply mirrors_update_outputMuted]
            | apply mirrors_update_recording] ].
Qed.

Lemma mirrors_on_message (raw : option json) (w : World) : mirrors w (on_message raw w).
Proof.
  unfold on_message. destruct raw as [msg|]; [|apply mirrors_refl].
  destruct (negb (Js.truthy (Some msg)) || negb (Js.is_object msg)); [apply mirrors_refl|].
  destruct (Js.is_bool (Js.get msg "success") false).
  - unfold call_pending. repeat mirrors_step.
  - destruct (negb (Js.truthy (Js.get msg "data"))); [apply mirrors_refl|].
    destruct (Js.get msg "data"); [apply mirrors_handleMessage | apply mirrors_refl].
Qed.

Lemma mirrors_send (cmd : BvcCommand) (cb : option Callback) (w : World) :
  mirrors w (snd (send cmd cb w)).
Proof.
  unfold send. destruct (ws (this w)) as [k|]; [|apply mirrors_refl].
  destruct (is_open k w); cbn [snd]; repeat mirrors_step.
Qed.

Lemma mirrors_connect (w : World) : mirrors w (connect w).
Proof.
  unfold connect.
  set (w1 := match reconnectTimer (this w) with Some t => _ | None => w end).
  assert (H1 : mirrors w w1) by (subst w1; repeat mirrors_step).
  set (w2 := match ws (this w1) with Some k => _ | None => w1 end).
  assert (H2 : mirrors w1 w2) by (subst w2; repeat mirrors_step).
  set (w3 := assign _ w2).
  assert (H3 : mirrors w2 w3) by (subst w3; repeat mirrors_step).
  unfold newWebSocket.
  destruct (valid_url _ _); cbv beta iota; repeat mirrors_step;
    eauto using mirrors_trans.
Qed.

Lemma mirrors_stopTimers (w : World) : mirrors w (stopStableTimer (stopPing w)).
Proof.
  apply (mirrors_trans w (stopPing w)).
  - unfold stopPing. repeat mirrors_step.
  - unfold stopStableTimer. repeat mirrors_step.
Qed.

Lemma mirrors_disconnected (w : World) :
  mirrors w (if connected (state (this w))
             then setDisconnectedState (setConnected false w) else w).
Proof.
  destruct (connected (state (this w))) eqn:E; [|apply mirrors_refl].
  eapply mirrors_trans; [apply mirrors_setConnected_false, E|].
  apply mirrors_setDisconnectedState.
Qed.

Lemma mirrors_disconnect (w : World) : mirrors w (disconnect w).
Proof.
  unfold disconnect.
  set (w1 := assign _ w).
  assert (H1 : mirrors w w1) by (subst w1; repeat mirrors_step).
  set (w2 := match reconnectTimer (this w1) with Some t => _ | None => w1 end).
  assert (H2 : mirrors w1 w2) by (subst w2; repeat mirrors_step).
  pose proof (mirrors_stopTimers w2) as H4.
  set (w4 := stopStableTimer (stopPing w2)) in *.
  set (w5 := match ws (this w4) with Some k => _ | None => w4 end).
  assert (H5 : mirrors w4 w5) by (subst w5; repeat mirrors_step).
  eapply mirrors_trans; [|apply mirrors_disconnected].
  eauto using mirrors_trans.
Qed.

Lemma mirrors_scheduleReconnect (w : World) : mirrors w (scheduleReconnect w).
Proof. unfold scheduleReconnect, setTimer. repeat mirrors_step. Qed.

Lemma mirrors_on_close (w : World) : mirrors w (on_close w).
Proof.
  unfold on_close.
  pose proof (mirrors_stopTimers w) as H2.
  set (w2 := stopStableTimer (stopPing w)) in *.
  set (w3 := assign _ w2).
  assert (H3 : mirrors w2 w3) by (subst w3; repeat mirrors_step).
  pose proof (mirrors_disconnected w3) as H4.
  set (w4 := if connected (state (this w3)) then _ else w3) in *.
  assert (H : mirrors w w4) by eauto using mirrors_trans.
  destruct (intentionalClose (this w4)); [exact H|].
  eauto using mirrors_trans, mirrors_scheduleReconnect.
Qed.

Lemma mirrors_on_open (w : World) : mirrors w (on_open w).
Proof.
  unfold on_open.
  apply (mirrors_trans w (snd (send CmdState None (setConnected true w)))).
  - eauto using mirrors_trans, mirrors_setConnected_true, mirrors_send.
  - unfold startStableTimer, startPing, setTimer. repeat mirrors_step.
Qed.

Lemma mirrors_applySettings (s : GlobalSettings) (w : World) :
  mirrors w (snd (applySettings s w)).
Proof. apply mirrors_still; reflexivity. Qed.

Lemma mirrors_on_settings (s : GlobalSettings) (w : World) : mirrors w (on_settings s w).
Proof.
  unfold on_settings.
  pose proof (mirrors_applySettings s w) as H.
  destruct (applySettings s w) as [[] w1]; cbn [snd] in H; [|exact H].
  apply (mirrors_trans w (disconnect w1));
    [eauto using mirrors_trans, mirrors_disconnect|].
  eapply mirrors_trans; [|apply mirrors_connect].
  repeat mirrors_step.
Qed.

Lemma mirrors_ping_tick (w : World) : mirrors w (ping_tick w).
Proof. unfold ping_tick. repeat mirrors_step. Qed.

Lemma step_mirrors (e : Event) (w w' : World) : step e w = Some w' -> mirrors w w'.
Proof.
  intros Hs.
  destruct e as [s|s|cmd o| | |k|k|k|k|k raw|t]; simpl in Hs.
  - injection Hs as <-. unfold initialize.
    eauto using mirrors_trans, mirrors_applySettings, mirrors_connect.
  - injection Hs as <-. apply mirrors_on_settings.
  - injection Hs as <-. apply mirrors_send.
  - injection Hs as <-. apply mirrors_connect.
  - injection Hs as <-. apply mirrors_disconnect.
  - destruct (readyState k w) as [[]|]; try discriminate. injection Hs as <-.
    eapply mirrors_trans; [|apply mirrors_on_open]. apply mirrors_still; reflexivity.
  - destruct (readyState k w) as [[]|]; try discriminate; injection Hs as <-;
      (eapply mirrors_trans; [|apply mirrors_on_close]); apply mirrors_still; reflexivity.
  - destruct (readyState k w) as [[]|]; try discriminate; injection Hs as <-;
      apply mirrors_refl.
  - destruct (is_open k w); [|discriminate]. injection Hs as <-.
    apply mirrors_still; reflexivity.
  - destruct (is_open k w); [|discriminate]. injection Hs as <-.
    apply mirrors_on_message.
  - destruct (pending_timer t w) as [[]|]; try discriminate; injection Hs as <-.
    + unfold reconnect_fire. eapply mirrors_trans; [|apply mirrors_connect].
      apply mirrors_still; reflexivity.
    + apply mirrors_ping_tick.
    + apply mirrors_still; reflexivity.
Qed.

Lemma run_mirrors (es : list Event) (w w' : World) : run es w = Some w' -> mirrors w w'.
Proof.
  revert w. induction es as [|e es IH]; intros w Hrun; simpl in Hrun.
  - injection Hrun as <-. apply mirrors_refl.
  - destruct (step e w) as [w1|] eqn:Hs; [|discriminate].
    eapply mirrors_trans; [exact (step_mirrors e w w1 Hs) | apply IH, Hrun].
Qed.

(** ** Teardown *)

Lemma pending_timer_cleared (t : nat) (w : World) :
  pending_timer t (clearTimer t w) = None.
Proof.
  unfold pending_timer, clearTimer. cbn.
  induction (timers w) as [|[t' k] l IH]; [reflexivity|]. simpl.
  destruct (Nat.eqb t' t) eqn:E; simpl; [exact IH|]. rewrite E. exact IH.
Qed.

Lemma pending_timer_clearTimer (t t' : nat) (w : World) :
  pending_timer t w = None -> pending_timer t (clearTimer t' w) = None.
Proof.
  unfold pending_timer, clearTimer. cbn.
  induction (timers w) as [|[u k] l IH]; [reflexivity|]. simpl.
  destruct (Nat.eqb u t) eqn:E; [discriminate|]. intros H.
  destruct (Nat.eqb u t'); simpl; [apply IH, H|]. rewrite E. apply IH, H.
Qed.

Lemma shrinks_refl (w : World) : shrinks w w.
Proof. repeat split; auto. Qed.

Lemma shrinks_trans (w1 w2 w3 : World) : shrinks w1 w2 -> shrinks w2 w3 -> shrinks w1 w3.
Proof.
  intros (A1 & B1 & C1) (A2 & B2 & C2). repeat split; [auto | congruence | congruence].
Qed.

Lemma shrinks_same (w w' : World) :
  timers w' = timers w -> next_timer w' = next_timer w ->
  length (sockets w') = length (sockets w) -> shrinks w w'.
Proof.
  intros A B C. repeat split; try assumption.
  intros t. unfold pending_timer. rewrite A. auto.
Qed.

Lemma shrinks_clearTimer (t : nat) (w : World) : shrinks w (clearTimer t w).
Proof. repeat split. intros u. apply pending_timer_clearTimer. Qed.

Lemma shrinks_terminate (k : nat) (w : World) : shrinks w (terminate k w).
Proof.
  unfold terminate.
  destruct (readyState k (effect (Terminate k) w)) as [[]|];
    apply shrinks_same; try reflexivity; apply length_insert.
Qed.

Ltac shrinks_step :=
  match goal with
  | |- shrinks ?w ?w => apply shrinks_refl
  | |- shrinks ?w (assign _ ?w') =>
      apply (shrinks_trans w w'); [|apply shrinks_same; reflexivity]
  | |- shrinks ?w (effect _ ?w') =>
      apply (shrinks_trans w w'); [|apply shrinks_same; reflexivity]
  | |- shrinks ?w (emit _ ?w') =>
      apply (shrinks_trans w w'); [|apply shrinks_same; reflexivity]
  | |- shrinks ?w (terminate _ ?w') =>
      apply (shrinks_trans w w'); [|apply shrinks_terminate]
  | |- shrinks ?w (clearTimer _ ?w') =>
      apply (shrinks_trans w w'); [|apply shrinks_clearTimer]
  | |- shrinks ?w (match ?x with _ => _ end) => destruct x
  | |- shrinks ?w (if ?x then _ else _) => destruct x
  end.

Lemma shrinks_setDisconnectedState (w : World) : shrinks w (setDisconnectedState w).
Proof.
  destruct (setDisconnectedState_frame w) as (_ & A & B & C).
  apply shrinks_same; [exact B | exact C | rewrite A; reflexivity].
Qed.

Lemma stopPing_this (w : World) :
  this (stopPing w) = set_awaitingPong (set_pingTimer (this w) None) false.
Proof.
  unfold stopPing. destruct w as [[k h p key rt pt st ap ba ic pc s] so ti nt o].
  destruct pt; reflexivity.
Qed.

Lemma stopStableTimer_this (w : World) :
  this (stopStableTimer w) = set_stableTimer (this w) None.
Proof.
  unfold stopStableTimer. destruct w as [[k h p key rt pt st ap ba ic pc s] so ti nt o].
  destruct st; reflexivity.
Qed.

Lemma terminate_this (k : nat) (w : World) : this (terminate k w) = this w.
Proof.
  unfold terminate. destruct (readyState k (effect (Terminate k) w)) as [[]|]; reflexivity.
Qed.

Lemma stopPing_cancels (w : World) (t : nat) :
  pingTimer (this w) = Some t -> pending_timer t (stopPing w) = None.
Proof. intros H. unfold stopPing. rewrite H. apply pending_timer_cleared. Qed.

Lemma shrinks_stopPing (w : World) : shrinks w (stopPing w).
Proof. unfold stopPing. repeat shrinks_step. Qed.

Lemma shrinks_stopStableTimer (w : World) : shrinks w (stopStableTimer w).
Proof. unfold stopStableTimer. repeat shrinks_step. Qed.

Lemma disconnected_this (w : World) :
  this (if connected (state (this w))
        then setDisconnectedState (setConnected false w) else w)
  = set_state (this w) (snapshot_disconnected (state (this w))).
Proof.
  unfold snapshot_disconnected.
  destruct (connected (state (this w))) eqn:E.
  - destruct (setDisconnectedState_frame (setConnected false w)) as (A & _).
    pose proof (setDisconnectedState_state (setConnected false w)) as B.
    cbn in A, B.
    destruct (this (setDisconnectedState (setConnected false w))).
    destruct (this w). cbn in *. inversion A; subst. reflexivity.
  - destruct (this w) as [? ? ? ? ? ? ? ? ? ? ? st]. reflexivity.
Qed.

Lemma shrinks_disconnected (w : World) :
  shrinks w (if connected (state (this w))
             then setDisconnectedState (setConnected false w) else w).
Proof.
  destruct (connected (state (this w))); [|apply shrinks_refl].
  eapply shrinks_trans; [|apply shrinks_setDisconnectedState].
  unfold setConnected, assign_state. repeat shrinks_step.
Qed.

Lemma disconnect_this (w : World) :
  this (disconnect w)
  = mkManager None (host (this w)) (port (this w)) (authenticationKey (this w))
              None None None false (backoffAttempts (this w)) true
              (pendingErrorCallback (this w))
              (snapshot_disconnected (state (this w))).
Proof.
  unfold disconnect.
  set (w1 := assign _ w).
  set (w2 := match reconnectTimer (this w1) with Some t => _ | None => w1 end).
  assert (E2 : this w2 = set_reconnectTimer (set_intentionalClose (this w) true) None).
  { subst w2 w1. destruct w as [[k h p key rt pt st ap ba ic pc s] so ti nt o].
    destruct rt; reflexivity. }
  set (w4 := stopStableTimer (stopPing w2)).
  assert (E4 : this w4 = set_stableTimer
                           (set_awaitingPong (set_pingTimer (this w2) None) false) None).
  { subst w4. rewrite stopStableTimer_this, stopPing_this. reflexivity. }
  set (w5 := match ws (this w4) with Some k => _ | None => w4 end).
  assert (E5 : this w5 = set_ws (this w4) None).
  { subst w5. destruct (ws (this w4)) as [k|] eqn:E.
    - cbn. rewrite terminate_this. reflexivity.
    - destruct (this w4). cbn in E. subst. reflexivity. }
  rewrite disconnected_this, E5, E4, E2.
  destruct (this w). reflexivity.
Qed.

Lemma disconnected_out (w : World) :
  out (if connected (state (this w))
       then setDisconnectedState (setConnected false w) else w)
  = out w ++ map Emit (disconnect_events (state (this w))).
Proof.
  unfold disconnect_events.
  destruct w as [[k h p key rt pt st ap ba ic pc [c im om rc]] so ti nt o].
  destruct c, im, om, rc; cbn; rewrite <- ?app_assoc, ?app_nil_r; reflexivity.
Qed.

Lemma disconnected_sockets (w : World) :
  sockets (if connected (state (this w))
           then setDisconnectedState (setConnected false w) else w)
  = sockets w.
Proof.
  destruct (connected (state (this w))); [|reflexivity].
  destruct (setDisconnectedState_frame (setConnected false w)) as (_ & A & _).
  exact A.
Qed.

Lemma disconnect_out (w : World) :
  out (disconnect w)
  = out w ++ match ws (this w) with Some k => [Terminate k] | None => [] end
          ++ map Emit (disconnect_events (state (this w))).
Proof.
  unfold disconnect.
  set (w1 := assign _ w).
  set (w2 := match reconnectTimer (this w1) with Some t => _ | None => w1 end).
  set (w4 := stopStableTimer (stopPing w2)).
  assert (E4 : out w4 = out w /\ ws (this w4) = ws (this w)
               /\ state (this w4) = state (this w)).
  { subst w4. rewrite stopStableTimer_this, stopPing_this.
    unfold stopStableTimer, stopPing.
    subst w2 w1. destruct w as [[k h p key rt pt st ap ba ic pc s] so ti nt o].
    destruct rt, pt, st; repeat split. }
  destruct E4 as (Eo & Ew & Es).
  set (w5 := match ws (this w4) with Some k => _ | None => w4 end).
  assert (E5 : out w5 = out w ++ match ws (this w) with
                                 | Some k => [Terminate k] | None => [] end
               /\ state (this w5) = state (this w)).
  { subst w5. rewrite <- Ew, <- Es, <- Eo.
    destruct (ws (this w4)) as [k|]; [|rewrite app_nil_r; split; reflexivity].
    cbn. rewrite terminate_this. split; [|reflexivity].
    unfold terminate.
    destruct (readyState k (effect (Terminate k) w4)) as [[]|]; reflexivity. }
  destruct E5 as (Eo5 & Es5).
  rewrite disconnected_out, Eo5, Es5, <- app_assoc. reflexivity.
Qed.

Lemma shrinks_disconnect_tail (w : World) :
  shrinks w
    (let w5 := match ws (this w) with
               | Some k => assign (fun m => set_ws m None) (terminate k w)
               | None => w
               end in
     if connected (state (this w5))
     then setDisconnectedState (setConnected false w5) else w5).
Proof.
  cbv zeta.
  set (w5 := match ws (this w) with Some k => _ | None => w end).
  apply (shrinks_trans w w5); [subst w5; repeat shrinks_step|].
  apply shrinks_disconnected.
Qed.

(** [disconnect] cancels every timer the manager refers to, creates no
    timer and no socket. *)
Lemma disconnect_cancels (w : World) :
  shrinks w (disconnect w)
  /\ (forall t, reconnectTimer (this w) = Some t \/ pingTimer (this w) = Some t
                \/ stableTimer (this w) = Some t ->
                pending_timer t (disconnect w) = None).
Proof.
  unfold disconnect.
  set (w1 := assign _ w).
  set (w2 := match reconnectTimer (this w1) with Some t => _ | None => w1 end).
  assert (S2 : shrinks w w2).
  { apply (shrinks_trans w w1); [apply shrinks_same; reflexivity|].
    subst w2. repeat shrinks_step. }
  assert (P2 : pingTimer (this w2) = pingTimer (this w)
               /\ stableTimer (this w2) = stableTimer (this w)).
  { subst w2 w1. destruct (reconnectTimer (this (assign _ w))); split; reflexivity. }
  assert (C2 : forall t, reconnectTimer (this w) = Some t -> pending_timer t w2 = None).
  { intros t H. subst w2 w1. cbn. rewrite H. apply pending_timer_cleared. }
  pose proof (shrinks_stopPing w2) as S3.
  pose proof (shrinks_stopStableTimer (stopPing w2)) as S4.
  pose proof (shrinks_disconnect_tail (stopStableTimer (stopPing w2))) as S6.
  cbv zeta in S6.
  set (w6 := if connected _ then _ else _) in *.
  destruct P2 as [Pp Ps].
  split; [eauto using shrinks_trans|].
  intros t [H|[H|H]].
  - apply S6, S4, S3, C2, H.
  - apply S6, S4. apply stopPing_cancels. rewrite Pp. exact H.
  - apply S6. apply stopStableTimer_cancels.
    rewrite stopPing_this. cbn. rewrite Ps. exact H.
Qed.

Lemma disconnect_sockets (w : World) :
  sockets (disconnect w)
  = match ws (this w) with
    | Some k => sockets (terminate k w)
    | None => sockets w
    end.
Proof.
  unfold disconnect.
  set (w1 := assign _ w).
  set (w2 := match reconnectTimer (this w1) with Some t => _ | None => w1 end).
  set (w4 := stopStableTimer (stopPing w2)).
  assert (E4 : sockets w4 = sockets w /\ ws (this w4) = ws (this w)).
  { subst w4. rewrite stopStableTimer_this, stopPing_this.
    unfold stopStableTimer, stopPing.
    subst w2 w1. destruct w as [[k h p key rt pt st ap ba ic pc s] so ti nt o].
    destruct rt, pt, st; repeat split. }
  destruct E4 as (Eso & Ew).
  rewrite disconnected_sockets. rewrite Ew.
  destruct (ws (this w)) as [k|]; [|exact Eso].
  cbn. unfold terminate, readyState. cbn. rewrite Eso.
  destruct (sockets w !! k) as [[]|]; cbn; rewrite ?Eso; reflexivity.
Qed.

Lemma torn_down_disconnect (w : World) :
  torn_down (this w) -> intentionalClose (this w) = true -> disconnect w = w.
Proof.
  destruct w as [[k h p key rt pt st ap ba ic pc [c im om rc]] so ti nt o].
  unfold torn_down. cbn. intros (-> & -> & -> & -> & -> & ->) ->. reflexivity.
Qed.

Lemma torn_down_on_close (w : World) :
  torn_down (this w) -> intentionalClose (this w) = true -> on_close w = w.
Proof.
  destruct w as [[k h p key rt pt st ap ba ic pc [c im om rc]] so ti nt o].
  unfold torn_down. cbn. intros (-> & -> & -> & -> & -> & ->) ->. reflexivity.
Qed.

Lemma disconnect_torn_down (w : World) :
  torn_down (this (disconnect w)) /\ intentionalClose (this (disconnect w)) = true.
Proof.
  rewrite disconnect_this. unfold torn_down, snapshot_disconnected. cbn.
  destruct (connected (state (this w))) eqn:E; repeat split; exact E.
Qed.

Lemma disconnect_terminates (w : World) (k : nat) (r : ReadyState) :
  ws (this w) = Some k -> readyState k w = Some r -> r <> CLOSED ->
  In (Terminate k) (out (disconnect w))
  /\ readyState k (disconnect w) = Some CLOSING.
Proof.
  intros Hws Hr Hne. split.
  - rewrite disconnect_out, Hws, !in_app_iff. simpl. auto.
  - unfold readyState. rewrite disconnect_sockets, Hws.
    destruct (terminate_result k w r Hr Hne) as (_ & _ & _ & H). exact H.
Qed.

(** X3: [disconnect] leaves a manager that holds no socket and no timer,
    with the probe mark cleared, the close marked intentional and
    the snapshot disconnected, the configuration, the attempt counter and
    the pending callback being kept; every timer the manager referred to is
    cancelled and none is created; the socket it held is terminated and no
    socket is created. *)
Theorem disconnect_teardown (w : World) :
  let w' := disconnect w in
  this w' = mkManager None (host (this w)) (port (this w))
                      (authenticationKey (this w)) None None None false
                      (backoffAttempts (this w)) true
                      (pendingErrorCallback (this w))
                      (snapshot_disconnected (state (this w)))
  /\ (forall t, reconnectTimer (this w) = Some t \/ pingTimer (this w) = Some t
               \/ stableTimer (this w) = Some t -> pending_timer t w' = None)
  /\ (forall t, pending_timer t w = None -> pending_timer t w' = None)
  /\ next_timer w' = next_timer w
  /\ length (sockets w') = length (sockets w)
  /\ (forall k r, ws (this w) = Some k -> readyState k w = Some r -> r <> CLOSED ->
        In (Terminate k) (out w') /\ readyState k w' = Some CLOSING).
Proof.
  intros w'. subst w'.
  destruct (disconnect_cancels w) as ((A & B & C) & D).
  split; [apply disconnect_this|]. split; [exact D|]. split; [exact A|].
  split; [exact B|]. split; [exact C|].
  apply disconnect_terminates.
Qed.

(** X4: [disconnect] is idempotent: a second call in a row changes nothing,
    terminates nothing and emits nothing. *)
Theorem disconnect_idempotent (w : World) :
  disconnect (disconnect w) = disconnect w.
Proof.
  destruct (disconnect_torn_down w) as [A B].
  apply torn_down_disconnect; assumption.
Qed.

Lemma on_close_out (w : World) :
  out (on_close w) = out w ++ map Emit (disconnect_events (state (this w)))
  /\ state (this (on_close w)) = snapshot_disconnected (state (this w)).
Proof.
  unfold on_close.
  set (w2 := stopStableTimer (stopPing w)).
  assert (E2 : out w2 = out w /\ state (this w2) = state (this w)).
  { subst w2. rewrite stopStableTimer_this, stopPing_this.
    unfold stopStableTimer, stopPing.
    destruct w as [[k h p key rt pt st ap ba ic pc s] so ti nt o].
    destruct pt, st; repeat split. }
  destruct E2 as [Eo Es].
  set (w3 := assign _ w2).
  pose proof (disconnected_out w3) as Ho.
  pose proof (disconnected_this w3) as Ht.
  set (w4 := if connected (state (this w3)) then _ else w3) in *.
  change (state (this w3)) with (state (this w2)) in Ho, Ht.
  change (out w3) with (out w2) in Ho.
  rewrite Es in Ho, Ht. rewrite Eo in Ho.
  assert (Hs : state (this w4) = snapshot_disconnected (state (this w)))
    by (rewrite Ht; reflexivity).
  destruct (intentionalClose (this w4)); split; assumption.
Qed.

(** X6: the close handler emits the notifications of a disconnection in a
    fixed order, connection first, then input, output and recording, each
    of the three only when the field was known; when the snapshot is
    already disconnected it emits nothing.  It calls no callback, sends
    nothing and terminates nothing. *)
Theorem close_notifications (w : World) :
  out (on_close w) = out w ++ map Emit (disconnect_events (state (this w)))
  /\ state (this (on_close w)) = snapshot_disconnected (state (this w))
  /\ (connected (state (this w)) = false -> out (on_close w) = out w)
  /\ (connected (state (this w)) = true ->
      emitted (on_close w)
      = emitted w
        ++ connectionChanged false
           :: match inputMuted (state (this w)) with
              | Some _ => [inputMuteChanged None] | None => [] end
           ++ match outputMuted (state (this w)) with
              | Some _ => [outputMuteChanged None] | None => [] end
           ++ match recording (state (this w)) with
              | Some _ => [recordingChanged None] | None => [] end).
Proof.
  destruct (on_close_out w) as [Ho Hs].
  split; [exact Ho|]. split; [exact Hs|]. split.
  - intros Hc. rewrite Ho. unfold disconnect_events. rewrite Hc. apply app_nil_r.
  - intros Hc. unfold emitted. rewrite Ho, omap_app. f_equal.
    unfold disconnect_events. rewrite Hc.
    destruct (inputMuted (state (this w))), (outputMuted (state (this w))),
             (recording (state (this w))); reflexivity.
Qed.

(** ** Connecting and settings changes *)

(** [connect] up to the call of the constructor. *)
Lemma connect_prefix (w : World) :
  exists v,
    connect w
    = (let '(r, v') := newWebSocket (host (this v)) (port (this v)) v in
       match r with
       | Some k => assign (fun m => set_ws m (Some k)) v'
       | None => v'
       end)
    /\ this v = set_ws (set_intentionalClose (set_reconnectTimer (this w) None) false) None
    /\ out v = out w ++ match ws (this w) with Some k => [Terminate k] | None => [] end
    /\ length (sockets v) = length (sockets w)
    /\ shrinks w v
    /\ (forall t, reconnectTimer (this w) = Some t -> pending_timer t v = None).
Proof.
  unfold connect.
  set (w1 := match reconnectTimer (this w) with Some t => _ | None => w end).
  assert (E1 : this w1 = set_reconnectTimer (this w) None /\ out w1 = out w).
  { subst w1. destruct w as [[k h p key rt pt st ap ba ic pc s] so ti nt o].
    destruct rt; split; reflexivity. }
  destruct E1 as [E1 O1].
  assert (S1 : shrinks w w1) by (subst w1; repeat shrinks_step).
  assert (C1 : forall t, reconnectTimer (this w) = Some t -> pending_timer t w1 = None).
  { intros t H. subst w1. rewrite H. apply pending_timer_cleared. }
  set (w2 := match ws (this w1) with Some k => _ | None => w1 end).
  assert (S2 : shrinks w1 w2) by (subst w2; repeat shrinks_step).
  assert (E2 : set_intentionalClose (this w2) false
               = set_intentionalClose (set_ws (this w1) None) false
               /\ out w2 = out w1 ++ match ws (this w1) with
                                     | Some k => [Terminate k] | None => [] end).
  { subst w2. destruct (ws (this w1)) as [k|] eqn:E.
    - cbn. rewrite terminate_this. split; [reflexivity|].
      unfold terminate.
      destruct (readyState k (effect (Terminate k) (assign _ w1))) as [[]|]; reflexivity.
    - rewrite app_nil_r. split; [|reflexivity].
      destruct (this w1). cbn in E. subst. reflexivity. }
  destruct E2 as [E2 O2].
  exists (assign (fun m => set_intentionalClose m false) w2).
  split; [reflexivity|].
  destruct (shrinks_trans _ _ _ S1 S2) as (A & B & C).
  split; [|split; [|split; [exact C|split; [repeat split; assumption|]]]].
  - change (this (assign _ w2)) with (set_intentionalClose (this w2) false).
    rewrite E2, E1. destruct (this w). reflexivity.
  - change (out (assign ?f w2)) with (out w2). rewrite O2, O1, E1. reflexivity.
  - intros t H. apply S2, C1, H.
Qed.

Lemma connect_this (w : World) :
  this (connect w)
  = set_ws (set_intentionalClose (set_reconnectTimer (this w) None) false)
           (if valid_url (host (this w)) (port (this w))
            then Some (length (sockets w)) else None).
Proof.
  destruct (connect_prefix w) as (v & -> & T & _ & L & _).
  unfold newWebSocket. rewrite T. cbn [host port set_ws set_intentionalClose
                                        set_reconnectTimer].
  destruct (valid_url (host (this w)) (port (this w))); cbn; rewrite ?L, ?T;
    destruct (this w); reflexivity.
Qed.

Lemma connect_out (w : World) :
  out (connect w)
  = out w ++ match ws (this w) with Some k => [Terminate k] | None => [] end
          ++ [if valid_url (host (this w)) (port (this w))
              then NewSocket (length (sockets w)) (host (this w)) (port (this w))
              else Throw (host (this w)) (port (this w))].
Proof.
  destruct (connect_prefix w) as (v & -> & T & O & L & _).
  unfold newWebSocket. rewrite T. cbn [host port set_ws set_intentionalClose
                                        set_reconnectTimer].
  destruct (valid_url (host (this w)) (port (this w))); cbn;
    rewrite ?L, ?T, O, <- app_assoc; reflexivity.
Qed.

Lemma connect_timers (w : World) :
  (forall t, pending_timer t w = None -> pending_timer t (connect w) = None)
  /\ (forall t, reconnectTimer (this w) = Some t -> pending_timer t (connect w) = None)
  /\ next_timer (connect w) = next_timer w
  /\ length (sockets (connect w))
     = (if valid_url (host (this w)) (port (this w))
        then S (length (sockets w)) else length (sockets w))
  /\ (valid_url (host (this w)) (port (this w)) = true ->
      readyState (length (sockets w)) (connect w) = Some CONNECTING).
Proof.
  destruct (connect_prefix w) as (v & -> & T & _ & L & (A & B & _) & C).
  unfold newWebSocket, readyState. rewrite T.
  cbn [host port set_ws set_intentionalClose set_reconnectTimer].
  destruct (valid_url (host (this w)) (port (this w))); cbn.
  - split; [exact A|]. split; [exact C|]. split; [exact B|].
    split; [rewrite length_app; simpl; lia|].
    intros _. rewrite <- L. apply list_lookup_middle. reflexivity.
  - split; [exact A|]. split; [exact C|]. split; [exact B|].
    split; [exact L | discriminate].
Qed.

(** [connect] when the manager holds no socket and no reconnect timer. *)
Lemma connect_idle (w : World) :
  reconnectTimer (this w) = None -> ws (this w) = None ->
  connect w
  = if valid_url (host (this w)) (port (this w))
    then mkWorld (set_ws (set_intentionalClose (this w) false)
                         (Some (length (sockets w))))
                 (sockets w ++ [CONNECTING]) (timers w) (next_timer w)
                 (out w ++ [NewSocket (length (sockets w)) (host (this w)) (port (this w))])
    else mkWorld (set_intentionalClose (this w) false) (sockets w) (timers w)
                 (next_timer w) (out w ++ [Throw (host (this w)) (port (this w))]).
Proof.
  intros Hr Hw. unfold connect. rewrite Hr, Hw. unfold newWebSocket.
  cbn [this assign host port set_intentionalClose].
  destruct (valid_url (host (this w)) (port (this w))); reflexivity.
Qed.

(** X7: [connect] cancels the pending reconnect timer, terminates the
    socket the manager holds, if any, clears the intentional mark and calls
    the constructor with the configured host and port.  When the runtime
    accepts the URL, exactly one socket is created, in state CONNECTING,
    and the manager holds it.  When it refuses the URL, the constructor
    throws, nothing catches the error, no socket is created and the
    manager holds none.  Either way the heartbeat and stability timers,
    the attempt counter, the pending callback and the snapshot are left as
    they are, nothing is emitted and no timer is created. *)
Theorem connect_new_session (w : World) :
  let n := length (sockets w) in
  let ok := valid_url (host (this w)) (port (this w)) in
  this (connect w)
  = mkManager (if ok then Some n else None)
              (host (this w)) (port (this w)) (authenticationKey (this w))
              None (pingTimer (this w)) (stableTimer (this w)) (awaitingPong (this w))
              (backoffAttempts (this w)) false (pendingErrorCallback (this w))
              (state (this w))
  /\ out (connect w)
     = out w ++ match ws (this w) with Some k => [Terminate k] | None => [] end
             ++ [if ok then NewSocket n (host (this w)) (port (this w))
                 else Throw (host (this w)) (port (this w))]
  /\ length (sockets (connect w)) = (if ok then S n else n)
  /\ (ok = true -> readyState n (connect w) = Some CONNECTING)
  /\ (forall t, reconnectTimer (this w) = Some t -> pending_timer t (connect w) = None)
  /\ (forall t, pending_timer t w = None -> pending_timer t (connect w) = None)
  /\ next_timer (connect w) = next_timer w.
Proof.
  intros n ok. destruct (connect_timers w) as (A & B & C & D & E).
  split; [rewrite connect_this; destruct (this w); reflexivity|].
  split; [apply connect_out|]. repeat split; assumption.
Qed.

Lemma applySettings_resolved (s : GlobalSettings) (w : World) :
  snd (applySettings s w)
  = assign (fun m => set_config m (fst (fst (resolved s))) (snd (fst (resolved s)))
                                (snd (resolved s))) w
  /\ fst (applySettings s w)
     = negb (String.eqb (fst (fst (resolved s))) (host (this w)))
       || negb (snd (fst (resolved s)) =? port (this w))
       || negb (String.eqb (snd (resolved s)) (authenticationKey (this w))).
Proof. split; reflexivity. Qed.

Lemma applySettings_unchanged (s : GlobalSettings) (w : World) :
  fst (applySettings s w) = false <-> resolved s = config (this w).
Proof.
  destruct (applySettings_resolved s w) as [_ E]. rewrite E.
  destruct (resolved s) as [[h p] k]. unfold config. cbn.
  rewrite !orb_false_iff, !negb_false_iff, !String.eqb_eq, Z.eqb_eq.
  split; [intros [[-> ->] ->]; reflexivity | intros [= -> -> ->]; auto].
Qed.

Lemma on_settings_unchanged (s : GlobalSettings) (w : World) :
  resolved s = config (this w) -> on_settings s w = w.
Proof.
  intros H. pose proof (proj2 (applySettings_unchanged s w) H) as Hf.
  destruct (applySettings_resolved s w) as [E _].
  unfold on_settings. destruct (applySettings s w) as [c w1].
  cbn [fst snd] in Hf, E. rewrite Hf, E, H. destruct w as [[]]. reflexivity.
Qed.

Lemma on_settings_changed (s : GlobalSettings) (w : World) :
  resolved s <> config (this w) ->
  on_settings s w
  = connect (assign (fun m => set_backoffAttempts m 0%nat)
               (disconnect (snd (applySettings s w)))).
Proof.
  intros H. unfold on_settings.
  destruct (fst (applySettings s w)) eqn:Hf.
  - destruct (applySettings s w) as [c w1]. cbn in Hf. subst c. reflexivity.
  - apply applySettings_unchanged in Hf. contradiction.
Qed.

Lemma config_eq_dec (a b : string * Z * string) : {a = b} + {a <> b}.
Proof. repeat decide equality. Qed.

Lemma on_settings_config (s : GlobalSettings) (w : World) :
  config (this (on_settings s w)) = resolved s.
Proof.
  destruct (config_eq_dec (resolved s) (config (this w))) as [E|N].
  - rewrite (on_settings_unchanged s w E). symmetry. exact E.
  - rewrite (on_settings_changed s w N). unfold config.
    rewrite connect_this. cbn. rewrite disconnect_this. cbn.
    destruct (resolved s) as [[h p] k] eqn:R. unfold resolved in R. cbn in R.
    injection R as <- <- <-. reflexivity.
Qed.

(** X8: settings that resolve to the configuration in force are ignored:
    the world stays as it is, so nothing is torn down and no socket is
    created.  In particular, receiving the same settings a second time
    does nothing, whatever the first receipt did. *)
Theorem settings_unchanged_ignored (s : GlobalSettings) (w : World) :
  (resolved s = config (this w) -> on_settings s w = w)
  /\ on_settings s (on_settings s w) = on_settings s w
  /\ config (this (on_settings s w)) = resolved s.
Proof.
  split; [apply on_settings_unchanged|]. split; [|apply on_settings_config].
  apply on_settings_unchanged. symmetry. apply on_settings_config.
Qed.

(** X9: settings that resolve to another configuration make the manager
    adopt it, tear the session down as [disconnect] does (with the
    notifications of a disconnection), reset the attempt counter to zero
    and call the constructor with the new host and port; every timer it
    referred to is cancelled.  When the runtime accepts the new URL, one
    new socket is opened, which the manager holds.  When it refuses it, the
    constructor's error leaves the listener uncaught after the teardown:
    no socket is created and the manager is left holding no socket and no
    timer. *)
Theorem settings_changed_reconnects (s : GlobalSettings) (w : World) :
  resolved s <> config (this w) ->
  let w' := on_settings s w in
  let n := length (sockets w) in
  let h := fst (fst (resolved s)) in
  let p := snd (fst (resolved s)) in
  this w' = mkManager (if valid_url h p then Some n else None) h p
                      (snd (resolved s)) None None None false 0%nat false
                      (pendingErrorCallback (this w))
                      (snapshot_disconnected (state (this w)))
  /\ out w' = out w
              ++ match ws (this w) with Some k => [Terminate k] | None => [] end
              ++ map Emit (disconnect_events (state (this w)))
              ++ [if valid_url h p then NewSocket n h p else Throw h p]
  /\ length (sockets w') = (if valid_url h p then S n else n)
  /\ (valid_url h p = true -> readyState n w' = Some CONNECTING)
  /\ (forall t, reconnectTimer (this w) = Some t \/ pingTimer (this w) = Some t
                \/ stableTimer (this w) = Some t -> pending_timer t w' = None).
Proof.
  intros H w' n h p. subst w'. rewrite (on_settings_changed s w H).
  destruct (applySettings_resolved s w) as [E _]. rewrite E.
  set (w1 := assign _ w).
  set (v := assign _ (disconnect w1)).
  destruct (disconnect_cancels w1) as ((A & B & C) & D).
  assert (Hn : length (sockets v) = n) by exact C.
  assert (Hv : ws (this v) = None /\ host (this v) = h /\ port (this v) = p).
  { subst v. cbn. rewrite disconnect_this. repeat split. }
  destruct Hv as (Hws & Hh & Hp).
  destruct (connect_timers v) as (T1 & _ & _ & T4 & T5).
  rewrite Hh, Hp, Hn in T4, T5.
  split; [|split; [|split; [exact T4|split; [exact T5|]]]].
  - rewrite connect_this, Hn, Hh, Hp. subst v. cbn. rewrite disconnect_this.
    reflexivity.
  - rewrite connect_out, Hws, Hn, Hh, Hp. subst v. cbn.
    rewrite ?disconnect_this, disconnect_out.
    cbn. rewrite <- !app_assoc. reflexivity.
  - intros t Ht. apply T1. exact (D t Ht).
Qed.

(** A socket that is closing while [connect] runs on a manager that holds
    nothing: its close event finds the intentional mark cleared. *)
Lemma close_after_connect_idle (v : World) (k : nat) :
  reconnectTimer (this v) = None -> ws (this v) = None ->
  readyState k v = Some CLOSING ->
  let n := length (sockets v) in
  out (connect v)
  = out v ++ [if valid_url (host (this v)) (port (this v))
              then NewSocket n (host (this v)) (port (this v))
              else Throw (host (this v)) (port (this v))]
  /\ readyState k (connect v) = Some CLOSING
  /\ exists w',
       step (SocketClose k) (connect v) = Some w'
       /\ ws (this w') = None
       /\ backoffAttempts (this w') = S (backoffAttempts (this v))
       /\ (exists t, reconnectTimer (this w') = Some t
                     /\ In (t, ReconnectTimer (reconnect_delay (backoffAttempts (this v))))
                           (timers w'))
       /\ (valid_url (host (this v)) (port (this v)) = true ->
           ws (this (connect v)) = Some n /\ readyState n w' = Some CONNECTING).
Proof.
  intros V1 V2 Vs n.
  assert (Hk : (k < n)%nat) by (eapply lookup_lt_Some; exact Vs).
  assert (Hc : readyState k (connect v) = Some CLOSING).
  { rewrite (connect_idle v V1 V2). unfold readyState in *.
    destruct (valid_url _ _); cbn [sockets]; [|exact Vs].
    rewrite lookup_app_l; [exact Vs | exact Hk]. }
  split; [rewrite connect_out, V2; reflexivity|]. split; [exact Hc|].
  eexists. split; [simpl; rewrite Hc; reflexivity|].
  set (u := set_readyState k CLOSED (connect v)).
  assert (Iu : intentionalClose (this u) = false)
    by (apply connect_intentionalClose).
  assert (Bu : backoffAttempts (this u) = backoffAttempts (this v))
    by (apply connect_backoffAttempts).
  destruct (on_close_result u) as (A & _ & _ & _ & _ & _ & _ & S).
  destruct (on_close_schedules u Iu) as (t & B & C & D).
  rewrite Bu in C, D.
  split; [exact A|]. split; [exact D|]. split; [exists t; split; assumption|].
  intros Hok.
  split; [rewrite connect_this, Hok; reflexivity|].
  unfold readyState. rewrite S. subst u. unfold set_readyState. cbn [sockets].
  rewrite list_lookup_insert_ne by lia.
  rewrite (connect_idle v V1 V2), Hok. cbn [sockets].
  apply list_lookup_middle. reflexivity.
Qed.

(** X5: after a settings change, the close event of the socket that the
    teardown terminated arrives when [connect] has cleared the intentional
    mark again.  The close handler then drops the socket the manager holds
    by then, the one [connect] has just opened, which stays connecting
    with no handle left, and schedules a reconnect after the base delay of
    1000 milliseconds. *)
Theorem close_after_settings_change (s : GlobalSettings) (w : World)
    (k : nat) (r : ReadyState) :
  resolved s <> config (this w) ->
  ws (this w) = Some k -> readyState k w = Some r -> r <> CLOSED ->
  let w1 := on_settings s w in
  let n := length (sockets w) in
  In (Terminate k) (out w1)
  /\ readyState k w1 = Some CLOSING
  /\ exists w',
       step (SocketClose k) w1 = Some w'
       /\ ws (this w') = None
       /\ backoffAttempts (this w') = 1%nat
       /\ (exists t, reconnectTimer (this w') = Some t
                     /\ In (t, ReconnectTimer 1000) (timers w'))
       /\ (valid_url (fst (fst (resolved s))) (snd (fst (resolved s))) = true ->
           ws (this w1) = Some n /\ readyState n w' = Some CONNECTING).
Proof.
  intros H Hws Hr Hne w1 n. subst w1. rewrite (on_settings_changed s w H).
  destruct (applySettings_resolved s w) as [E _]. rewrite E.
  set (w0 := assign _ w).
  destruct (disconnect_terminates w0 k r Hws Hr Hne) as [Hin Hcl].
  destruct (disconnect_cancels w0) as ((_ & _ & Hlen) & _).
  set (v := assign (fun m => set_backoffAttempts m 0%nat) (disconnect w0)).
  assert (Tv : this v = set_backoffAttempts (this (disconnect w0)) 0%nat) by reflexivity.
  rewrite disconnect_this in Tv.
  assert (V1 : reconnectTimer (this v) = None) by (rewrite Tv; reflexivity).
  assert (V2 : ws (this v) = None) by (rewrite Tv; reflexivity).
  assert (V3 : backoffAttempts (this v) = 0%nat) by (rewrite Tv; reflexivity).
  assert (V4 : host (this v) = fst (fst (resolved s))) by (rewrite Tv; reflexivity).
  assert (V5 : port (this v) = snd (fst (resolved s))) by (rewrite Tv; reflexivity).
  change (out (disconnect w0)) with (out v) in Hin.
  change (readyState k (disconnect w0)) with (readyState k v) in Hcl.
  change (length (sockets (disconnect w0))) with (length (sockets v)) in Hlen.
  change (length (sockets w0)) with n in Hlen.
  clearbody v.
  destruct (close_after_connect_idle v k V1 V2 Hcl) as (O & C & w' & A1 & A2 & A3 & A4 & A5).
  rewrite V3 in A3, A4. rewrite V4, V5, Hlen in A5.
  split; [rewrite O, in_app_iff; left; exact Hin|]. split; [exact C|].
  exists w'. split; [exact A1|]. split; [exact A2|]. split; [exact A3|].
  split; [exact A4 | exact A5].
Qed.

(** ** The open handler *)

Lemma start_timers (w : World) :
  startStableTimer (startPing w)
  = mkWorld (set_stableTimer
               (set_pingTimer (set_awaitingPong (this w) false) (Some (next_timer w)))
               (Some (S (next_timer w))))
            (sockets w)
            (timers w ++ [(next_timer w, PingTimer PING_INTERVAL_MS);
                          (S (next_timer w), StableTimer STABLE_THRESHOLD_MS)])
            (S (S (next_timer w))) (out w).
Proof.
  unfold startStableTimer, startPing, setTimer, assign. cbn.
  rewrite <- app_assoc. reflexivity.
Qed.

Lemma on_open_closed_form (w : World) :
  let w' := on_open w in
  let t := next_timer w in
  out w' = out w
           ++ Emit (connectionChanged true)
              :: match ws (this w) with
                 | Some k =>
                     if is_open k w
                     then [Transmit k (Js.stringify
                                         (payload (authenticationKey (this w)) CmdState))]
                     else []
                 | None => []
                 end
  /\ this w' = mkManager (ws (this w)) (host (this w)) (port (this w))
                         (authenticationKey (this w)) (reconnectTimer (this w))
                         (Some t) (Some (S t)) false (backoffAttempts (this w))
                         (intentionalClose (this w))
                         (if session_open w then None else pendingErrorCallback (this w))
                         (set_connected true (state (this w)))
  /\ timers w' = timers w ++ [(t, PingTimer 15000); (S t, StableTimer 30000)]
  /\ sockets w' = sockets w.
Proof.
  intros w' t. subst w' t. unfold on_open. rewrite start_timers.
  set (w1 := setConnected true w).
  assert (E : snd (send CmdState None w1)
              = match ws (this w) with
                | Some k =>
                    if is_open k w
                    then effect (Transmit k (Js.stringify
                                   (payload (authenticationKey (this w)) CmdState)))
                           (assign (fun m => set_pendingErrorCallback m None) w1)
                    else w1
                | None => w1
                end).
  { unfold send. change (ws (this w1)) with (ws (this w)).
    destruct (ws (this w)) as [k|]; [|reflexivity].
    change (is_open k w1) with (is_open k w).
    destruct (is_open k w); reflexivity. }
  rewrite E. unfold session_open.
  destruct (ws (this w)) as [k|] eqn:Hws.
  - destruct (is_open k w); subst w1; cbn; rewrite <- ?app_assoc;
      (split; [reflexivity|]); (split; [|split; reflexivity]);
      destruct (this w); cbn in Hws; subst; reflexivity.
  - subst w1; cbn; (split; [reflexivity|]); (split; [|split; reflexivity]);
      destruct (this w); cbn in Hws; subst; reflexivity.
Qed.

(** X10: when a socket opens, the manager announces the connection, then
    requests the full state on the socket it holds, provided that socket
    is open, which also drops any pending failure callback, and then
    starts the heartbeat (15000 ms) and the stability timer (30000 ms).
    The request is the JSON object with the member [action] of value
    [state], followed by the member [key] exactly when the secret is not
    empty.  The snapshot's tri-state fields, the attempt counter and the
    sockets are left as they are. *)
Theorem open_effects (w : World) :
  let w' := on_open w in
  let t := next_timer w in
  out w' = out w
           ++ Emit (connectionChanged true)
              :: match ws (this w) with
                 | Some k =>
                     if is_open k w
                     then [Transmit k ("{" ++ lit "action" ++ ":" ++ lit "state"
                                       ++ key_member (authenticationKey (this w))
                                       ++ "}")%string]
                     else []
                 | None => []
                 end
  /\ this w' = mkManager (ws (this w)) (host (this w)) (port (this w))
                         (authenticationKey (this w)) (reconnectTimer (this w))
                         (Some t) (Some (S t)) false (backoffAttempts (this w))
                         (intentionalClose (this w))
                         (if session_open w then None else pendingErrorCallback (this w))
                         (set_connected true (state (this w)))
  /\ timers w' = timers w ++ [(t, PingTimer 15000); (S t, StableTimer 30000)]
  /\ sockets w' = sockets w.
Proof.
  intros w' t. destruct (on_open_closed_form w) as (A & B & C & D).
  rewrite (stringify_payload (authenticationKey (this w)) CmdState) in A.
  repeat split; assumption.
Qed.

(** ** Invariants of the event loop *)

(** What an inbound frame cannot touch: the socket handle, the close mark
    and the configuration. *)
Lemma on_message_keeps (raw : option json) (w : World) :
  keeps (fun m => (ws m, intentionalClose m, config m)) w (on_message raw w)
  /\ sockets (on_message raw w) = sockets w
  /\ timers (on_message raw w) = timers w.
Proof.
  unfold on_message. destruct raw as [msg|]; [|repeat split].
  destruct (negb (Js.truthy (Some msg)) || negb (Js.is_object msg)); [repeat split|].
  destruct (Js.is_bool (Js.get msg "success") false).
  - unfold call_pending. destruct (pendingErrorCallback (this w)); repeat split.
  - destruct (negb (Js.truthy (Js.get msg "data"))); [repeat split|].
    destruct (Js.get msg "data") as [data|]; [|repeat split].
    rewrite handleMessage_apply_shape. repeat split.
Qed.

Lemma send_keeps (cmd : BvcCommand) (cb : option Callback) (w : World) :
  keeps (fun m => (ws m, intentionalClose m, config m)) w (snd (send cmd cb w))
  /\ sockets (snd (send cmd cb w)) = sockets w.
Proof.
  unfold send. destruct (ws (this w)) as [k|]; [|repeat split].
  destruct (is_open k w); repeat split.
Qed.

Lemma ping_tick_keeps (w : World) :
  keeps (fun m => (ws m, intentionalClose m, config m)) w (ping_tick w)
  /\ length (sockets (ping_tick w)) = length (sockets w).
Proof.
  unfold ping_tick. destruct (awaitingPong (this w)), (ws (this w)) as [k|];
    try (repeat split; fail).
  - split; [apply keeps_terminate | apply (shrinks_terminate k w)].
  - destruct (is_open k w); repeat split.
Qed.

Lemma on_close_config (w : World) : config (this (on_close w)) = config (this w).
Proof.
  unfold on_close.
  set (w2 := stopStableTimer (stopPing w)).
  assert (E2 : config (this w2) = config (this w)).
  { subst w2. rewrite stopStableTimer_this, stopPing_this. reflexivity. }
  set (w3 := assign _ w2).
  pose proof (disconnected_this w3) as Ht.
  set (w4 := if connected (state (this w3)) then _ else w3) in *.
  assert (E4 : config (this w4) = config (this w)) by (rewrite Ht; exact E2).
  destruct (intentionalClose (this w4)); [exact E4|]. exact E4.
Qed.

Lemma resolved_valid (s : GlobalSettings) :
  fst (fst (resolved s)) <> EmptyString /\ 1 <= snd (fst (resolved s)) <= 65535.
Proof.
  unfold resolved. cbn [fst snd]. split.
  - destruct (applySettings_fields s initial_world) as (H & _). rewrite H.
    destruct (JsString.trim <$> gs_host s) as [[|c r]|]; discriminate.
  - destruct (applySettings_fields s initial_world) as (_ & H & _). rewrite H.
    destruct (parsePort_range (match gs_port s with
                               | Some p => PortString p | None => PortUndefined end))
      as [E|E]; [rewrite E; unfold DEFAULT_PORT; lia | exact E].
Qed.

Lemma target_valid_config (m m' : WsManager) :
  config m' = config m -> target_valid m -> target_valid m'.
Proof.
  unfold config, target_valid. intros E Hv. injection E as E1 E2 _.
  rewrite E1, E2. exact Hv.
Qed.

Lemma target_valid_resolved (s : GlobalSettings) (m : WsManager) :
  config m = resolved s -> target_valid m.
Proof.
  unfold config, target_valid. intros E. pose proof (resolved_valid s) as H.
  rewrite <- E in H. exact H.
Qed.

Lemma connect_config (w : World) : config (this (connect w)) = config (this w).
Proof. rewrite connect_this. reflexivity. Qed.

Lemma connect_handle_valid (w : World) : handle_valid (connect w).
Proof.
  intros k Hk. rewrite connect_this in Hk. cbn in Hk.
  destruct (connect_timers w) as (_ & _ & _ & H & _). rewrite H.
  destruct (valid_url _ _); [|discriminate]. injection Hk as <-.
  split; [lia | apply connect_intentionalClose].
Qed.

Lemma handle_valid_keeps (w w' : World) :
  keeps (fun m => (ws m, intentionalClose m, config m)) w w' ->
  length (sockets w') = length (sockets w) ->
  handle_valid w -> handle_valid w'.
Proof.
  unfold keeps, handle_valid. intros K L H k Hk.
  pose proof (f_equal (fun x => fst (fst x)) K) as E1.
  pose proof (f_equal (fun x => snd (fst x)) K) as E2. cbn in E1, E2.
  rewrite E1 in Hk. rewrite E2, L. apply H, Hk.
Qed.

Lemma handle_valid_none (w : World) : ws (this w) = None -> handle_valid w.
Proof. intros H k Hk. rewrite H in Hk. discriminate. Qed.

Lemma step_invariants (e : Event) (w w' : World) :
  step e w = Some w' ->
  handle_valid w /\ target_valid (this w) ->
  handle_valid w' /\ target_valid (this w').
Proof.
  intros Hs [Hh Ht].
  destruct e as [s|s|cmd o| | |k|k|k|k|k raw|t]; simpl in Hs.
  - injection Hs as <-. unfold initialize. split; [apply connect_handle_valid|].
    apply (target_valid_resolved s). rewrite connect_config. reflexivity.
  - injection Hs as <-. split.
    + destruct (config_eq_dec (resolved s) (config (this w))) as [E|N].
      * rewrite (on_settings_unchanged s w E). exact Hh.
      * rewrite (on_settings_changed s w N). apply connect_handle_valid.
    + apply (target_valid_resolved s), on_settings_config.
  - injection Hs as <-. destruct (send_keeps cmd o w) as [K L]. split.
    + apply (handle_valid_keeps w); [exact K | rewrite L; reflexivity | exact Hh].
    + apply (target_valid_config (this w)); [|exact Ht].
      exact (f_equal snd K).
  - injection Hs as <-. split; [apply connect_handle_valid|].
    apply (target_valid_config (this w)); [apply connect_config | exact Ht].
  - injection Hs as <-. split.
    + apply handle_valid_none. rewrite disconnect_this. reflexivity.
    + apply (target_valid_config (this w)); [|exact Ht].
      rewrite disconnect_this. reflexivity.
  - destruct (readyState k w) as [[]|]; try discriminate. injection Hs as <-.
    destruct (on_open_closed_form (set_readyState k OPEN w)) as (_ & E & _ & L).
    split.
    + intros j Hj. rewrite E in Hj. cbn in Hj. rewrite E, L. cbn.
      rewrite length_insert. apply Hh, Hj.
    + apply (target_valid_config (this w)); [rewrite E; reflexivity | exact Ht].
  - assert (forall v, this v = this w -> handle_valid (on_close v)
                                         /\ target_valid (this (on_close v))) as H.
    { intros v E. split.
      - apply handle_valid_none. apply on_close_result.
      - apply (target_valid_config (this w)); [|exact Ht].
        rewrite on_close_config, E. reflexivity. }
    destruct (readyState k w) as [[]|]; try discriminate; injection Hs as <-;
      apply H; reflexivity.
  - destruct (readyState k w) as [[]|]; try discriminate; injection Hs as <-;
      split; assumption.
  - destruct (is_open k w); [|discriminate]. injection Hs as <-.
    split; [|exact Ht]. intros j Hj. apply Hh, Hj.
  - destruct (is_open k w); [|discriminate]. injection Hs as <-.
    destruct (on_message_keeps raw w) as (K & L & _). split.
    + apply (handle_valid_keeps w); [exact K | rewrite L; reflexivity | exact Hh].
    + apply (target_valid_config (this w)); [|exact Ht].
      exact (f_equal snd K).
  - destruct (pending_timer t w) as [[]|]; try discriminate; injection Hs as <-.
    + unfold reconnect_fire. split; [apply connect_handle_valid|].
      apply (target_valid_config (this w)); [rewrite connect_config; reflexivity | exact Ht].
    + destruct (ping_tick_keeps w) as [K L]. split.
      * apply (handle_valid_keeps w); [exact K | exact L | exact Hh].
      * apply (target_valid_config (this w)); [|exact Ht].
        exact (f_equal snd K).
    + split; [|exact Ht]. intros j Hj. apply Hh, Hj.
Qed.

Lemma run_invariants (es : list Event) (w w' : World) :
  run es w = Some w' ->
  handle_valid w /\ target_valid (this w) ->
  handle_valid w' /\ target_valid (this w').
Proof.
  revert w. induction es as [|e es IH]; intros w Hrun H; simpl in Hrun.
  - injection Hrun as <-. exact H.
  - destruct (step e w) as [w1|] eqn:Hs; [|discriminate].
    apply (IH w1 Hrun). exact (step_invariants e w w1 Hs H).
Qed.

Lemma initial_invariants : handle_valid initial_world /\ target_valid (this initial_world).
Proof.
  split; [intros k Hk; discriminate Hk|].
  split; [discriminate | unfold initial_world; cbn; unfold DEFAULT_PORT; lia].
Qed.

(** X11: in every world the event loop can reach, the socket the manager
    holds exists and the close is not marked intentional while it holds
    one; the host is never empty and the port is always within 1..65535. *)
Theorem reachable_invariants (es : list Event) (w : World) :
  run es initial_world = Some w ->
  (forall k, ws (this w) = Some k ->
             (k < length (sockets w))%nat /\ intentionalClose (this w) = false)
  /\ host (this w) <> EmptyString
  /\ 1 <= port (this w) <= 65535.
Proof.
  intros Hrun.
  destruct (run_invariants es initial_world w Hrun initial_invariants) as [A [B C]].
  split; [exact A | split; assumption].
Qed.

(** X12: a heartbeat that finds its probe unanswered always ends in a
    scheduled reconnect: in a reachable world with an open session and an
    outstanding probe, the tick terminates the socket, and the close event
    that follows marks the snapshot disconnected and schedules a reconnect
    with the backoff delay of the current attempt counter. *)
Theorem liveness_failure_reconnects (es : list Event) (w : World) (k : nat) :
  run es initial_world = Some w ->
  ws (this w) = Some k -> is_open k w = true -> awaitingPong (this w) = true ->
  exists w',
    step (SocketClose k) (ping_tick w) = Some w'
    /\ In (Terminate k) (out (ping_tick w))
    /\ connected (state (this w')) = false
    /\ ws (this w') = None
    /\ exists t, reconnectTimer (this w') = Some t
                 /\ In (t, ReconnectTimer (reconnect_delay (backoffAttempts (this w))))
                       (timers w').
Proof.
  intros Hrun Hws Ho Ha.
  destruct (run_invariants es initial_world w Hrun initial_invariants) as [Hh _].
  destruct (Hh k Hws) as [_ Hic].
  assert (Hr : readyState k w = Some OPEN).
  { unfold is_open in Ho. destruct (readyState k w) as [[]|]; try discriminate.
    reflexivity. }
  assert (Ht : ping_tick w = terminate k w)
    by (unfold ping_tick; rewrite Ha, Hws; reflexivity).
  destruct (terminate_result k w OPEN Hr) as (Hthis & Hout & _ & Hcl); [discriminate|].
  rewrite Ht. eexists. simpl. rewrite Hcl. split; [reflexivity|].
  split; [rewrite Hout, in_app_iff; simpl; auto|].
  set (v := set_readyState k CLOSED (terminate k w)).
  assert (Hv : this v = this w) by exact Hthis.
  destruct (on_close_result v) as (A & _ & _ & _ & B & _).
  assert (Hicv : intentionalClose (this v) = false) by (rewrite Hv; exact Hic).
  destruct (on_close_schedules v Hicv) as (t & C & D & _).
  rewrite Hv in D.
  split; [exact B|]. split; [exact A|]. exists t. split; assumption.
Qed.

(** ** Observers *)

(** X1: the snapshot is what its notifications say: in every world the
    event loop can reach, replaying the notifications emitted so far on
    the initial snapshot gives the current snapshot, so an observer that
    only listens never disagrees with [state]. *)
Theorem snapshot_replays_notifications (es : list Event) (w : World) :
  run es initial_world = Some w ->
  state (this w) = replay (emitted w) (state initial_manager).
Proof.
  intros Hrun. destruct (run_mirrors es initial_world w Hrun) as (evs & A & B & _).
  rewrite A. exact B.
Qed.

(** X2: no notification is spurious: every tri-state notification the
    manager ever emits carries a value other than the one the snapshot had
    just before, and [connectionChanged(false)] is only ever emitted to a
    snapshot that was connected. *)
Theorem notifications_report_changes (es : list Event) (w : World) :
  run es initial_world = Some w ->
  genuine (emitted w) (state initial_manager) = true.
Proof.
  intros Hrun. destruct (run_mirrors es initial_world w Hrun) as (evs & A & _ & C).
  rewrite A. exact C.
Qed.

(** ** Inbound frames that change nothing *)

Lemma handleMessage_not_object (data : json) (w : World) :
  (forall props, data <> JObj props) -> handleMessage data w = w.
Proof.
  intros H. rewrite handleMessage_apply_shape.
  assert (E : classify data = Unrecognized).
  { destruct data; try reflexivity. exfalso. apply (H props). reflexivity. }
  rewrite E. apply notified_same.
Qed.

(** X13: frames the protocol does not know are dropped without a trace:
    the world stays exactly as it is when the frame is not JSON, is not an
    object, carries neither [success: false] nor a truthy [data], or
    carries a [data] that is not an object, is a pong, or has none of the
    recognised fields. *)
Theorem unknown_frames_ignored (w : World) :
  on_message None w = w
  /\ (forall msg, Js.is_object msg = false -> on_message (Some msg) w = w)
  /\ (forall msg, Js.is_bool (Js.get msg "success") false = false ->
        Js.truthy (Js.get msg "data") = false -> on_message (Some msg) w = w)
  /\ (forall msg data, Js.is_bool (Js.get msg "success") false = false ->
        Js.get msg "data" = Some data ->
        (forall props, data <> JObj props)
        \/ Js.get data "pong" = Some (JBool true)
        \/ (Js.as_bool (Js.get data "muted") = None
            /\ Js.as_bool (Js.get data "recording") = None) ->
        on_message (Some msg) w = w).
Proof.
  split; [reflexivity|]. split; [|split].
  - intros msg H. unfold on_message. rewrite H, orb_true_r. reflexivity.
  - intros msg Hs Hd. unfold on_message.
    destruct (negb (Js.truthy (Some msg)) || negb (Js.is_object msg)); [reflexivity|].
    rewrite Hs, Hd. reflexivity.
  - intros msg data Hs Hd H. unfold on_message.
    destruct (negb (Js.truthy (Some msg)) || negb (Js.is_object msg)); [reflexivity|].
    rewrite Hs, Hd.
    destruct (negb (Js.truthy (Some data))); [reflexivity|].
    destruct H as [H|[H|[H1 H2]]].
    + apply handleMessage_not_object, H.
    + unfold handleMessage. rewrite H. reflexivity.
    + unfold handleMessage. rewrite H1, H2.
      destruct (Js.is_bool (Js.get data "pong") true); [reflexivity|].
      destruct (Js.is_str (Js.get data "device") "input"),
               (Js.is_str (Js.get data "device") "output"),
               (Js.as_bool (Js.get data "deafened")); reflexivity.
Qed.

(** X14: a failure response is never applied as data: a frame whose
    [success] is [false] leaves the snapshot, the sockets and the timers
    as they are and emits nothing, whatever [data] it carries besides. *)
Theorem failure_frame_carries_no_state (msg : json) (w : World) :
  Js.get msg "success" = Some (JBool false) ->
  let w' := on_message (Some msg) w in
  state (this w') = state (this w)
  /\ emitted w' = emitted w
  /\ transmitted w' = transmitted w
  /\ sockets w' = sockets w
  /\ timers w' = timers w
  /\ pendingErrorCallback (this w') = None.
Proof.
  intros H w'. subst w'.
  assert (Ho : Js.is_object msg = true).
  { destruct msg; try discriminate H. reflexivity. }
  rewrite on_message_failure; [|exact Ho | rewrite H; reflexivity].
  unfold call_pending. destruct (pendingErrorCallback (this w)) as [cb|].
  - unfold emitted, transmitted, effect. cbn. rewrite !omap_app, !app_nil_r.
    repeat split.
  - repeat split.
Qed.

(** ** The keys *)

Lemma replay_unseen (relevant : BvcStateEvent -> bool) {A} (field : BvcState -> A)
    (evs : list BvcStateEvent) (st : BvcState) :
  (forall ev s, relevant ev = false -> field (apply_event ev s) = field s) ->
  forallb (fun ev => negb (relevant ev)) evs = true ->
  field (replay evs st) = field st.
Proof.
  intros H. revert st. induction evs as [|ev r IH]; intros st Hall; [reflexivity|].
  simpl in Hall. apply andb_true_iff in Hall. destruct Hall as [Hev Hr].
  apply negb_true_iff in Hev. unfold replay in *. simpl.
  rewrite (IH _ Hr). apply H, Hev.
Qed.

(** X15: the listeners of the keys miss nothing: over any sequence of
    events, if the manager emitted no notification on which the deafen key
    redraws, the icon that [DeafenAction.getIcon] computes has not changed,
    and likewise for the record key. *)
Theorem key_icons_need_no_other_event (es : list Event) (w w' : World) :
  run es w = Some w' ->
  exists evs,
    emitted w' = emitted w ++ evs
    /\ (forallb (fun ev => negb (DeafenAction_redraws ev)) evs = true ->
        DeafenAction_getIcon (state (this w')) = DeafenAction_getIcon (state (this w)))
    /\ (forallb (fun ev => negb (RecordAction_redraws ev)) evs = true ->
        RecordAction_getIcon (state (this w')) = RecordAction_getIcon (state (this w))).
Proof.
  intros Hrun. destruct (run_mirrors es w w' Hrun) as (evs & A & B & _).
  exists evs. split; [exact A|]. rewrite B. split; intros Hall.
  - unfold DeafenAction_getIcon.
    rewrite (replay_unseen DeafenAction_redraws connected evs _),
            (replay_unseen DeafenAction_redraws outputMuted evs _);
      try assumption; try reflexivity;
      intros [] s E; try discriminate E; reflexivity.
  - unfold RecordAction_getIcon.
    rewrite (replay_unseen RecordAction_redraws connected evs _),
            (replay_unseen RecordAction_redraws recording evs _);
      try assumption; try reflexivity;
      intros [] s E; try discriminate E; reflexivity.
Qed.

(** X16: a key never shows a live icon for a dead connection: whenever the
    snapshot says disconnected both keys show their disconnected icon,
    whatever the tri-state fields hold, in particular after every close
    event and every [disconnect]; the on and off icons are shown exactly
    for a connected snapshot whose field is known. *)
Theorem keys_show_disconnected (w : World) (st : BvcState) :
  (connected st = false ->
     DeafenAction_getIcon st = icons.headphonesDisconnected
     /\ RecordAction_getIcon st = icons.recordDisconnected)
  /\ DeafenAction_getIcon (state (this (on_close w))) = icons.headphonesDisconnected
  /\ RecordAction_getIcon (state (this (on_close w))) = icons.recordDisconnected
  /\ DeafenAction_getIcon (state (this (disconnect w))) = icons.headphonesDisconnected
  /\ RecordAction_getIcon (state (this (disconnect w))) = icons.recordDisconnected
  /\ (DeafenAction_getIcon st = icons.headphonesOff
      <-> connected st = true /\ outputMuted st = Some true)
  /\ (DeafenAction_getIcon st = icons.headphonesOn
      <-> connected st = true /\ outputMuted st = Some false)
  /\ (RecordAction_getIcon st = icons.recordOn
      <-> connected st = true /\ recording st = Some true)
  /\ (RecordAction_getIcon st = icons.recordOff
      <-> connected st = true /\ recording st = Some false).
Proof.
  assert (Hd : forall s, connected s = false ->
                 DeafenAction_getIcon s = icons.headphonesDisconnected
                 /\ RecordAction_getIcon s = icons.recordDisconnected).
  { intros s H. unfold DeafenAction_getIcon, RecordAction_getIcon. rewrite H.
    split; reflexivity. }
  split; [apply Hd|].
  destruct (on_close_result w) as (_ & _ & _ & _ & Hc & _).
  assert (Hdc : connected (state (this (disconnect w))) = false).
  { rewrite disconnect_this. unfold snapshot_disconnected. cbn.
    destruct (connected (state (this w))) eqn:E; [reflexivity | exact E]. }
  split; [apply Hd, Hc|]. split; [apply Hd, Hc|].
  split; [apply Hd, Hdc|]. split; [apply Hd, Hdc|].
  destruct st as [[] im [[]|] [[]|]]; vm_compute;
    repeat split; intros; try discriminate; try tauto;
    match goal with H : _ /\ _ |- _ => destruct H; discriminate end.
Qed.

Lemma key_press_sent (cmd : BvcCommand) (alert : Callback) (w : World) (msg : json) :
  session_open w = true ->
  Js.is_object msg = true -> Js.is_bool (Js.get msg "success") false = true ->
  let w' := snd (send cmd (Some alert) w) in
  fst (send cmd (Some alert) w) = true
  /\ (exists k, ws (this w) = Some k
                /\ transmitted w'
                   = transmitted w
                     ++ [(k, Js.stringify (payload (authenticationKey (this w)) cmd))])
  /\ invoked w' = invoked w
  /\ invoked (on_message (Some msg) w') = invoked w ++ [alert]
  /\ invoked (on_message (Some msg) (on_message (Some msg) w')) = invoked w ++ [alert].
Proof.
  intros Ho Hobj Hf w'. subst w'.
  unfold session_open in Ho. destruct (ws (this w)) as [k|] eqn:Hws; [|discriminate].
  rewrite (send_open cmd (Some alert) w k Hws Ho). cbn [fst snd].
  split; [reflexivity|]. split.
  { exists k. split; [reflexivity|].
    unfold transmitted, effect. cbn. rewrite omap_app. reflexivity. }
  set (w1 := effect _ _).
  assert (Hi : invoked w1 = invoked w)
    by (subst w1; rewrite invoked_effect; apply app_nil_r).
  assert (Hp : pendingErrorCallback (this w1) = Some alert) by reflexivity.
  split; [exact Hi|].
  rewrite !on_message_failure by assumption.
  set (w2 := assign _ (call_pending w1)).
  assert (H2 : invoked w2 = invoked w ++ [alert]).
  { subst w2. unfold call_pending. rewrite Hp.
    change (invoked (effect (Invoke alert) w1) = invoked w ++ [alert]).
    rewrite invoked_effect, Hi. reflexivity. }
  split; [exact H2|].
  unfold call_pending. change (pendingErrorCallback (this w2)) with (@None Callback).
  exact H2.
Qed.

Lemma key_press_unsent (cmd : BvcCommand) (alert : Callback) (w : World) :
  session_open w = false ->
  send cmd (Some alert) w = (false, w)
  /\ (pendingErrorCallback (this w) <> Some alert ->
      forall es w'', Forall (fun e => registers alert e = false) es ->
        run es w = Some w'' ->
        exists l, invoked w'' = invoked w ++ l /\ ~ In alert l).
Proof.
  intros Ho. split; [apply send_closed, Ho|].
  intros Hne es w'' Hreg Hrun. exact (run_orphan alert es w w'' Hrun Hreg Hne).
Qed.

(** X17: a key press gives feedback once.  With an open session the deafen
    key sends one frame on the socket the manager holds, the JSON object
    with [action] [mute] and [device] [output] (and the [key] member when
    there is a secret), shows no alert now, and the next failure response
    shows the alert exactly once (a further failure response shows none);
    with no open session it shows the alert at once, sends nothing,
    registers nothing, and no later event shows the alert of this press
    again.  The record key does the same with the frame of [action]
    [record]. *)
Theorem key_press_feedback (alert : Callback) (w : World) (msg : json) :
  Js.is_object msg = true -> Js.is_bool (Js.get msg "success") false = true ->
  (session_open w = true ->
     fst (DeafenAction_onKeyDown alert w) = false
     /\ fst (RecordAction_onKeyDown alert w) = false
     /\ (exists k, ws (this w) = Some k
                   /\ transmitted (snd (DeafenAction_onKeyDown alert w))
                      = transmitted w
                        ++ [(k, ("{" ++ lit "action" ++ ":" ++ lit "mute" ++ ","
                                 ++ lit "device" ++ ":" ++ lit "output"
                                 ++ key_member (authenticationKey (this w))
                                 ++ "}")%string)])
     /\ (exists k, ws (this w) = Some k
                   /\ transmitted (snd (RecordAction_onKeyDown alert w))
                      = transmitted w
                        ++ [(k, ("{" ++ lit "action" ++ ":" ++ lit "record"
                                 ++ key_member (authenticationKey (this w))
                                 ++ "}")%string)])
     /\ invoked (on_message (Some msg) (snd (DeafenAction_onKeyDown alert w)))
        = invoked w ++ [alert]
     /\ invoked (on_message (Some msg)
                   (on_message (Some msg) (snd (DeafenAction_onKeyDown alert w))))
        = invoked w ++ [alert]
     /\ invoked (on_message (Some msg) (snd (RecordAction_onKeyDown alert w)))
        = invoked w ++ [alert])
  /\ (session_open w = false ->
      DeafenAction_onKeyDown alert w = (true, w)
      /\ RecordAction_onKeyDown alert w = (true, w)
      /\ (pendingErrorCallback (this w) <> Some alert ->
          forall es w'', Forall (fun e => registers alert e = false) es ->
            run es w = Some w'' ->
            exists l, invoked w'' = invoked w ++ l /\ ~ In alert l)).
Proof.
  intros Hobj Hf. split; intros Ho.
  - destruct (key_press_sent (CmdMute output) alert w msg Ho Hobj Hf)
      as (A1 & A2 & _ & A4 & A5).
    destruct (key_press_sent CmdRecord alert w msg Ho Hobj Hf)
      as (B1 & B2 & _ & B4 & _).
    rewrite stringify_payload in A2, B2.
    unfold DeafenAction_onKeyDown, RecordAction_onKeyDown.
    destruct (send (CmdMute output) (Some alert) w) as [s1 w1].
    destruct (send CmdRecord (Some alert) w) as [s2 w2].
    cbn [fst snd] in *. subst s1 s2.
    repeat split; assumption.
  - destruct (key_press_unsent (CmdMute output) alert w Ho) as [A1 A2].
    destruct (key_press_unsent CmdRecord alert w Ho) as [B1 _].
    unfold DeafenAction_onKeyDown, RecordAction_onKeyDown. rewrite A1, B1.
    repeat split. exact A2.
Qed.

(** ** Start-up, and timers that outlive their handle *)

(** X19: start-up adopts the stored settings and calls the constructor
    once, with the resolved host and port.  When the runtime accepts the
    URL, exactly one socket is opened and the manager holds it.  When it
    refuses it, [initialize] fails with the constructor's error: no socket
    exists, the manager holds none and no timer is pending, so that no
    reconnect follows.  Either way nothing is emitted and the snapshot is
    disconnected with every field unknown. *)
Theorem startup_connects (s : GlobalSettings) :
  let w := initialize s initial_world in
  let h := fst (fst (resolved s)) in
  let p := snd (fst (resolved s)) in
  this w = mkManager (if valid_url h p then Some 0%nat else None) h p
                     (snd (resolved s)) None None None false 0%nat false None
                     (mkState false None None None)
  /\ out w = [if valid_url h p then NewSocket 0 h p else Throw h p]
  /\ sockets w = (if valid_url h p then [CONNECTING] else [])
  /\ timers w = []
  /\ emitted w = [].
Proof.
  intros w h p. subst w. unfold initialize.
  set (w1 := snd (applySettings s initial_world)).
  pose proof (connect_idle w1 eq_refl eq_refl) as E.
  change (host (this w1)) with h in E. change (port (this w1)) with p in E.
  rewrite E. destruct (valid_url h p); repeat split.
Qed.

Lemma pending_timer_other (t t' : nat) (w : World) :
  t <> t' -> pending_timer t (clearTimer t' w) = pending_timer t w.
Proof.
  intros Hne. unfold pending_timer, clearTimer. cbn.
  induction (timers w) as [|[u k] l IH]; [reflexivity|]. simpl.
  destruct (Nat.eqb u t') eqn:E'; simpl.
  - apply Nat.eqb_eq in E'. subst u.
    destruct (Nat.eqb t' t) eqn:E; [|exact IH].
    apply Nat.eqb_eq in E. subst. contradiction.
  - destruct (Nat.eqb u t); [reflexivity | exact IH].
Qed.

Lemma stopPing_pending (t : nat) (w : World) :
  pingTimer (this w) <> Some t ->
  pending_timer t (stopPing w) = pending_timer t w
  /\ next_timer (stopPing w) = next_timer w.
Proof.
  intros Hp. unfold stopPing. destruct (pingTimer (this w)) as [tp|].
  - split; [|reflexivity].
    change (pending_timer t (clearTimer tp w) = pending_timer t w).
    apply pending_timer_other. congruence.
  - split; reflexivity.
Qed.

Lemma stopStableTimer_pending (t : nat) (w : World) :
  stableTimer (this w) <> Some t ->
  pending_timer t (stopStableTimer w) = pending_timer t w
  /\ next_timer (stopStableTimer w) = next_timer w.
Proof.
  intros Hs. unfold stopStableTimer. destruct (stableTimer (this w)) as [ts|].
  - split; [|reflexivity].
    change (pending_timer t (clearTimer ts w) = pending_timer t w).
    apply pending_timer_other. congruence.
  - split; reflexivity.
Qed.

Lemma stop_timers_pending (t : nat) (w : World) :
  pingTimer (this w) <> Some t -> stableTimer (this w) <> Some t ->
  pending_timer t (stopStableTimer (stopPing w)) = pending_timer t w
  /\ next_timer (stopStableTimer (stopPing w)) = next_timer w.
Proof.
  intros Hp Hs.
  assert (E : stableTimer (this (stopPing w)) <> Some t)
    by (rewrite stopPing_this; exact Hs).
  destruct (stopStableTimer_pending t (stopPing w) E) as [P N].
  destruct (stopPing_pending t w Hp) as [P' N'].
  split; congruence.
Qed.

Lemma find_app_found {A : Type} (f : A -> bool) (l r : list A) (e : A) :
  List.find f l = Some e -> List.find f (l ++ r) = Some e.
Proof.
  induction l as [|x l IH]; [discriminate|]. simpl.
  destruct (f x); [trivial | exact IH].
Qed.

Lemma pending_timer_found (t : nat) (k : TimerKind) (w : World) :
  pending_timer t w = Some k -> In (t, k) (timers w).
Proof.
  unfold pending_timer. destruct (List.find _ (timers w)) as [[u k']|] eqn:E;
    [|discriminate].
  intros [= <-]. apply find_some in E. destruct E as [Hin Heq].
  apply Nat.eqb_eq in Heq. cbn in Heq. subst. exact Hin.
Qed.

(** X20: a close does not cancel a reconnect that is already pending: when
    a close that is not intentional finds a reconnect timer pending, that
    timer stays pending and a second one is scheduled beside it, so two
    connection attempts will follow. *)
Theorem close_leaves_pending_reconnect (w : World) (t : nat) (d : Z) :
  intentionalClose (this w) = false ->
  pending_timer t w = Some (ReconnectTimer d) ->
  pingTimer (this w) <> Some t -> stableTimer (this w) <> Some t ->
  (t < next_timer w)%nat ->
  let w' := on_close w in
  pending_timer t w' = Some (ReconnectTimer d)
  /\ reconnectTimer (this w') = Some (next_timer w)
  /\ In (t, ReconnectTimer d) (timers w')
  /\ In (next_timer w, ReconnectTimer (reconnect_delay (backoffAttempts (this w))))
        (timers w')
  /\ t <> next_timer w.
Proof.
  intros Hic Hp Hpt Hst Hlt w'. subst w'. unfold on_close.
  destruct (stop_timers_pending t w Hpt Hst) as [P2 N2].
  set (w2 := stopStableTimer (stopPing w)) in *.
  assert (B2 : backoffAttempts (this w2) = backoffAttempts (this w)
               /\ intentionalClose (this w2) = false).
  { subst w2. rewrite stopStableTimer_this, stopPing_this. split; [reflexivity|exact Hic]. }
  destruct B2 as [B2 I2].
  set (w3 := assign _ w2).
  pose proof (disconnected_this w3) as Ht.
  pose proof (shrinks_disconnected w3) as (_ & N4 & _).
  assert (T4 : timers (if connected (state (this w3))
                       then setDisconnectedState (setConnected false w3) else w3)
               = timers w2).
  { destruct (connected (state (this w3))); [|reflexivity].
    destruct (setDisconnectedState_frame (setConnected false w3)) as (_ & _ & T & _).
    exact T. }
  set (w4 := if connected (state (this w3)) then _ else w3) in *.
  assert (I4 : intentionalClose (this w4) = false) by (rewrite Ht; exact I2).
  assert (B4 : backoffAttempts (this w4) = backoffAttempts (this w))
    by (rewrite Ht; exact B2).
  assert (P4 : pending_timer t w4 = Some (ReconnectTimer d)).
  { unfold pending_timer in *. rewrite T4, P2. exact Hp. }
  assert (N : next_timer w4 = next_timer w) by (rewrite N4; exact N2).
  rewrite I4.
  destruct (scheduleReconnect_result w4) as (R1 & R2 & _).
  rewrite N in R1. rewrite N, B4 in R2.
  assert (Hin : In (t, ReconnectTimer d) (timers w4)) by (apply pending_timer_found, P4).
  split.
  { unfold pending_timer in *. rewrite R2.
    destruct (List.find (fun e => Nat.eqb (fst e) t) (timers w4)) as [e|] eqn:E;
      [|discriminate P4].
    rewrite (find_app_found _ _ _ _ E). exact P4. }
  split; [exact R1|].
  rewrite R2, !in_app_iff. simpl.
  split; [left; exact Hin|]. split; [right; left; reflexivity | lia].
Qed.

(** A close leaves every pending timer alone that is neither the heartbeat
    nor the stability timer the manager refers to. *)
Lemma on_close_pending (w : World) (t : nat) (kind : TimerKind) :
  pingTimer (this w) <> Some t -> stableTimer (this w) <> Some t ->
  pending_timer t w = Some kind -> pending_timer t (on_close w) = Some kind.
Proof.
  intros Hpt Hst Hp. unfold on_close.
  destruct (stop_timers_pending t w Hpt Hst) as [P2 _].
  set (w2 := stopStableTimer (stopPing w)) in *.
  set (w3 := assign _ w2).
  assert (T4 : timers (if connected (state (this w3))
                       then setDisconnectedState (setConnected false w3) else w3)
               = timers w2).
  { destruct (connected (state (this w3))); [|reflexivity].
    destruct (setDisconnectedState_frame (setConnected false w3)) as (_ & _ & T & _).
    exact T. }
  set (w4 := if connected (state (this w3)) then _ else w3) in *.
  assert (P4 : pending_timer t w4 = Some kind).
  { unfold pending_timer in *. rewrite T4, P2. exact Hp. }
  destruct (intentionalClose (this w4)); [exact P4|].
  destruct (scheduleReconnect_result w4) as (_ & R2 & _).
  unfold pending_timer in *. rewrite R2.
  destruct (List.find (fun e => Nat.eqb (fst e) t) (timers w4)) as [e|] eqn:E;
    [|discriminate P4].
  rewrite (find_app_found _ _ _ _ E). exact P4.
Qed.

(** C2 fails on the code: [startStableTimer] overwrites the handle of a
    stability timer that is still pending, and from then on no close
    cancels that timer.  A close of a session leaves it pending and
    schedules the reconnect after the delay of the attempts counted so
    far; when the stale timer fires, no session being connected, it resets
    the attempt counter all the same, and the next failed attempt is
    scheduled after the base delay of 1000 milliseconds instead of a delay
    that is at least the previous one. *)
Theorem stale_stability_timer_resets_backoff (w : World) (t : nat) (d : Z) :
  pending_timer t w = Some (StableTimer d) ->
  pingTimer (this w) <> Some t -> stableTimer (this w) <> Some t ->
  intentionalClose (this w) = false ->
  let w1 := on_close w in
  pending_timer t w1 = Some (StableTimer d)
  /\ connected (state (this w1)) = false
  /\ backoffAttempts (this w1) = S (backoffAttempts (this w))
  /\ (exists r, reconnectTimer (this w1) = Some r
                /\ In (r, ReconnectTimer (reconnect_delay (backoffAttempts (this w))))
                      (timers w1))
  /\ exists w2,
       step (TimerFires t) w1 = Some w2
       /\ connected (state (this w2)) = false
       /\ backoffAttempts (this w2) = 0%nat
       /\ exists r, reconnectTimer (this (on_close w2)) = Some r
                    /\ In (r, ReconnectTimer 1000) (timers (on_close w2)).
Proof.
  intros Hp Hpt Hst Hic w1. subst w1.
  pose proof (on_close_pending w t _ Hpt Hst Hp) as P1.
  destruct (on_close_result w) as (_ & _ & _ & _ & C1 & _ & I1 & _).
  destruct (on_close_schedules w Hic) as (r & R1 & R2 & R3).
  set (w1 := on_close w) in *.
  split; [exact P1|]. split; [exact C1|]. split; [exact R3|].
  split; [exists r; split; assumption|].
  exists (stable_fire (clearTimer t w1)).
  split; [simpl; rewrite P1; reflexivity|].
  split; [exact C1|]. split; [reflexivity|].
  assert (I2 : intentionalClose (this (stable_fire (clearTimer t w1))) = false)
    by (cbn; rewrite I1; exact Hic).
  destruct (on_close_schedules _ I2) as (r' & A & B & _).
  exists r'. split; [exact A | exact B].
Qed.

End Runtime.

(** * Instances

    The properties above at concrete inputs, on the runtime [plain_hosts]. *)

Lemma send_contract_witness :
  send CmdRecord (Some 7%nat) initial_world = (false, initial_world)
  /\ out (snd (send (CmdMute input) (Some 7%nat) (open_world plain_hosts)))
     = (out (open_world plain_hosts)
        ++ [Transmit 0 ("{" ++ lit "action" ++ ":" ++ lit "mute" ++ ","
                        ++ lit "device" ++ ":" ++ lit "input" ++ ","
                        ++ lit "key" ++ ":" ++ lit "s3cret" ++ "}")%string])%list.
Proof.
  split.
  - apply (send_contract CmdRecord (Some 7%nat) initial_world). reflexivity.
  - assert (Ho : session_open (open_world plain_hosts) = true) by (vm_compute; reflexivity).
    assert (Hk : ws (this (open_world plain_hosts)) = Some 0%nat) by (vm_compute; reflexivity).
    destruct (send_contract (CmdMute input) (Some 7%nat) (open_world plain_hosts)) as [_ H].
    assert (Hs : authenticationKey (this (open_world plain_hosts)) = "s3cret")
      by (vm_compute; reflexivity).
    destruct (H Ho) as (k & frame & H1 & _ & H3 & _ & H5 & _).
    rewrite Hk in H1. injection H1 as <-.
    rewrite H3. apply (f_equal (fun f => out (open_world plain_hosts) ++ [Transmit 0 f])).
    rewrite H5, Hs. vm_compute. reflexivity.
Defined.

Lemma send_failed_frame_witness :
  let msg := JObj [("success", JBool false); ("error", JStr "denied")] in
  let w' := snd (send (CmdMute input) (Some 9%nat) (closed_after_send plain_hosts)) in
  fst (send (CmdMute input) (Some 9%nat) (closed_after_send plain_hosts)) = false
  /\ w' = (closed_after_send plain_hosts)
  /\ out (on_message (Some msg) w') = (out (closed_after_send plain_hosts) ++ [Invoke 7%nat])%list.
Proof.
  intros msg w'.
  assert (Hf : fst (send (CmdMute input) (Some 9%nat) (closed_after_send plain_hosts)) = false)
    by (vm_compute; reflexivity).
  assert (Hp : pendingErrorCallback (this (closed_after_send plain_hosts)) = Some 7%nat)
    by (vm_compute; reflexivity).
  destruct (send_failed_frame (CmdMute input) (Some 9%nat) (closed_after_send plain_hosts) msg Hf)
    as (H1 & _ & _ & H4).
  split; [exact Hf | split; [exact H1|]].
  exact (H4 eq_refl eq_refl 7%nat Hp).
Defined.

Lemma failure_response_callback_witness :
  let msg := JObj [("success", JBool false); ("error", JStr "denied")] in
  let w1 := send_all [(CmdRecord, Some 1%nat); (CmdMute input, Some 2%nat)] (open_world plain_hosts) in
  let w2 := on_message (Some msg) w1 in
  invoked w2 = [2%nat]
  /\ pendingErrorCallback (this w2) = None
  /\ invoked (on_message (Some msg) w2) = invoked w2
  /\ exists l,
       invoked (default w1 (run plain_hosts [SocketMessage 0 (Some msg); SocketMessage 0 (Some msg);
                                 SocketClose 0] w1))
       = l /\ ~ In 1%nat l.
Proof.
  intros msg w1 w2.
  assert (Ho : session_open (open_world plain_hosts) = true) by (vm_compute; reflexivity).
  pose proof (failure_response_callback plain_hosts (open_world plain_hosts) [(CmdRecord, Some 1%nat)]
              (CmdMute input) (Some 2%nat) msg Ho eq_refl eq_refl) as H.
  destruct H   as (_ & H1 & H2 & H3 & H4).
  split; [exact H1 | split; [exact H2 | split; [exact H3|]]].
  destruct (H4 1%nat [SocketMessage 0 (Some msg); SocketMessage 0 (Some msg);
                      SocketClose 0]
               (default w1 (run plain_hosts [SocketMessage 0 (Some msg); SocketMessage 0 (Some msg);
                                 SocketClose 0] w1)))
    as (l & Hl & Hn).
  - discriminate.
  - repeat constructor.
  - vm_compute; reflexivity.
  - exists l. split; [exact Hl | exact Hn].
Defined.

(** The same on the event loop: three sessions fail in a row, the fourth
    survives the stability window and fails afterwards. *)
Example backoff_on_the_event_loop :
  (timers <$> run plain_hosts [Initialize (mkSettings None None None);
                   SocketClose 0; TimerFires 0;
                   SocketClose 1; TimerFires 1;
                   SocketClose 2] initial_world)
  = Some [(2%nat, ReconnectTimer 4000)]
  /\ (timers <$> run plain_hosts [Initialize (mkSettings None None None);
                      SocketClose 0; TimerFires 0;
                      SocketClose 1; TimerFires 1;
                      SocketClose 2; TimerFires 2;
                      SocketOpen 3; TimerFires 4;
                      SocketClose 3] initial_world)
     = Some [(5%nat, ReconnectTimer 1000)].
Proof. split; vm_compute; reflexivity. Qed.

Lemma heartbeat_tick_witness :
  out (ping_tick (awaiting_world plain_hosts)) = out (awaiting_world plain_hosts) ++ [Terminate 0%nat]
  /\ readyState 0 (ping_tick (awaiting_world plain_hosts)) = Some CLOSING
  /\ out (ping_tick (open_world plain_hosts)) = out (open_world plain_hosts) ++ [Probe 0%nat]
  /\ awaitingPong (this (ping_tick (open_world plain_hosts))) = true.
Proof.
  assert (H1 : ws (this (awaiting_world plain_hosts)) = Some 0%nat) by (vm_compute; reflexivity).
  assert (H2 : is_open 0 (awaiting_world plain_hosts) = true) by (vm_compute; reflexivity).
  assert (H3 : awaitingPong (this (awaiting_world plain_hosts)) = true) by (vm_compute; reflexivity).
  assert (H4 : ws (this (open_world plain_hosts)) = Some 0%nat) by (vm_compute; reflexivity).
  assert (H5 : is_open 0 (open_world plain_hosts) = true) by (vm_compute; reflexivity).
  assert (H6 : awaitingPong (this (open_world plain_hosts)) = false) by (vm_compute; reflexivity).
  destruct (heartbeat_tick plain_hosts (awaiting_world plain_hosts)) as (A & _).
  destruct (A 0%nat H1 H2 H3) as (_ & A1 & A2 & _).
  destruct (heartbeat_tick plain_hosts (open_world plain_hosts)) as (_ & B & _).
  destruct (B 0%nat H4 H5 H6) as (B1 & B2 & _).
  split; [exact A1 | split; [exact A2 | split; [exact B1 | exact B2]]].
Defined.

Lemma superseded_close_schedules_reconnect_witness :
  let w := default initial_world (run plain_hosts superseding_connect initial_world) in
  ws (this w) = Some 4%nat
  /\ timers w = []
  /\ In (Terminate 3) (out w)
  /\ exists w', step plain_hosts (SocketClose 3) w = Some w'
                /\ ws (this w') = None
                /\ timers w' = [(7%nat, ReconnectTimer 8000)].
Proof.
  intros w.
  set (w1 := assign (fun m => set_reconnectTimer m None)
               (clearTimer 6 (default initial_world
                                (run plain_hosts (removelast superseding_connect) initial_world)))).
  assert (Hw : w = connect plain_hosts w1) by (vm_compute; reflexivity).
  assert (H1 : ws (this w1) = Some 3%nat) by (vm_compute; reflexivity).
  assert (H2 : readyState 3 w1 = Some CONNECTING) by (vm_compute; reflexivity).
  assert (H3 : CONNECTING <> CLOSED) by discriminate.
  destruct (superseded_close_schedules_reconnect plain_hosts w1 3%nat CONNECTING H1 H2 H3)
    as (A & _ & w' & B & C & _).
  rewrite <- Hw in A, B.
  split; [vm_compute; reflexivity|]. split; [vm_compute; reflexivity|].
  split; [exact A|]. exists w'. split; [exact B|]. split; [exact C|].
  vm_compute in B. injection B as <-. reflexivity.
Defined.

Lemma disconnect_teardown_witness :
  ws (this (synced_world plain_hosts)) = Some 0%nat
  /\ pending_timer 0 (synced_world plain_hosts) = Some (PingTimer 15000)
  /\ pending_timer 0 (disconnect (synced_world plain_hosts)) = None
  /\ pending_timer 1 (disconnect (synced_world plain_hosts)) = None
  /\ readyState 0 (disconnect (synced_world plain_hosts)) = Some CLOSING.
Proof.
  assert (H1 : ws (this (synced_world plain_hosts)) = Some 0%nat) by (vm_compute; reflexivity).
  assert (H2 : pingTimer (this (synced_world plain_hosts)) = Some 0%nat) by (vm_compute; reflexivity).
  assert (H3 : stableTimer (this (synced_world plain_hosts)) = Some 1%nat) by (vm_compute; reflexivity).
  assert (H4 : readyState 0 (synced_world plain_hosts) = Some OPEN) by (vm_compute; reflexivity).
  assert (H5 : OPEN <> CLOSED) by discriminate.
  destruct (disconnect_teardown (synced_world plain_hosts)) as (_ & A & _ & _ & _ & B).
  split; [exact H1|]. split; [vm_compute; reflexivity|].
  split; [exact (A 0%nat (or_intror (or_introl H2)))|].
  split; [exact (A 1%nat (or_intror (or_intror H3)))|].
  exact (proj2 (B 0%nat OPEN H1 H4 H5)).
Defined.

Lemma close_notifications_witness :
  emitted (on_close (synced_world plain_hosts))
  = emitted (synced_world plain_hosts)
    ++ [connectionChanged false; inputMuteChanged None; outputMuteChanged None;
        recordingChanged None]
  /\ out (on_close (on_close (synced_world plain_hosts))) = out (on_close (synced_world plain_hosts)).
Proof.
  assert (Hst : connected (state (this (synced_world plain_hosts))) = true)
    by (vm_compute; reflexivity).
  assert (Hc : connected (state (this (on_close (synced_world plain_hosts)))) = false)
    by (vm_compute; reflexivity).
  destruct (close_notifications (synced_world plain_hosts)) as (_ & _ & _ & A).
  destruct (close_notifications (on_close (synced_world plain_hosts))) as (_ & _ & B & _).
  split; [|exact (B Hc)].
  rewrite (A Hst). vm_compute. reflexivity.
Defined.

Lemma connect_new_session_witness :
  let w := default initial_world
             (run plain_hosts [Initialize (mkSettings None None None); SocketClose 0]
                  initial_world) in
  let v := snd (applySettings (mkSettings (Some "::1") None None) w) in
  reconnectTimer (this w) = Some 0%nat
  /\ pending_timer 0 w = Some (ReconnectTimer 1000)
  /\ pending_timer 0 (connect plain_hosts w) = None
  /\ readyState 1 (connect plain_hosts w) = Some CONNECTING
  /\ ws (this (connect plain_hosts v)) = None
  /\ out (connect plain_hosts v) = out w ++ [Throw "::1" 9595]
  /\ length (sockets (connect plain_hosts v)) = 1%nat.
Proof.
  intros w v.
  assert (H : reconnectTimer (this w) = Some 0%nat) by (vm_compute; reflexivity).
  assert (Hok : plain_hosts (host (this w)) (port (this w)) = true)
    by (vm_compute; reflexivity).
  destruct (connect_new_session plain_hosts w) as (_ & _ & _ & A & B & _).
  destruct (connect_new_session plain_hosts v) as (C & D & E & _).
  split; [exact H|]. split; [vm_compute; reflexivity|].
  split; [exact (B 0%nat H)|].
  split.
  { replace 1%nat with (length (sockets w)) by (vm_compute; reflexivity). exact (A Hok). }
  split; [rewrite C; vm_compute; reflexivity|].
  split; [rewrite D; vm_compute; reflexivity|].
  rewrite E. vm_compute. reflexivity.
Defined.

Lemma settings_unchanged_ignored_witness :
  on_settings plain_hosts (mkSettings (Some " 127.0.0.1 ") (Some "9595 ") (Some "  s3cret"))
              (open_world plain_hosts)
  = (open_world plain_hosts).
Proof.
  destruct ((settings_unchanged_ignored plain_hosts)
              (mkSettings (Some " 127.0.0.1 ") (Some "9595 ") (Some "  s3cret"))
              (open_world plain_hosts)) as [A _].
  apply A. vm_compute. reflexivity.
Defined.

Lemma settings_changed_reconnects_witness :
  let w' := on_settings plain_hosts (mkSettings (Some "10.0.0.2") (Some "7000") None)
              (synced_world plain_hosts) in
  let v' := on_settings plain_hosts (mkSettings (Some "my host") None None)
              (synced_world plain_hosts) in
  ws (this w') = Some 1%nat
  /\ backoffAttempts (this w') = 0%nat
  /\ out w' = out (synced_world plain_hosts)
              ++ [Terminate 0; Emit (connectionChanged false);
                  Emit (inputMuteChanged None); Emit (outputMuteChanged None);
                  Emit (recordingChanged None); NewSocket 1 "10.0.0.2" 7000]
  /\ readyState 1 w' = Some CONNECTING
  /\ ws (this v') = None
  /\ out v' = out (synced_world plain_hosts)
              ++ [Terminate 0; Emit (connectionChanged false);
                  Emit (inputMuteChanged None); Emit (outputMuteChanged None);
                  Emit (recordingChanged None); Throw "my host" 9595]
  /\ length (sockets v') = 1%nat.
Proof.
  intros w' v'.
  assert (H : resolved (mkSettings (Some "10.0.0.2") (Some "7000") None)
              <> config (this (synced_world plain_hosts))) by (vm_compute; discriminate).
  assert (H' : resolved (mkSettings (Some "my host") None None)
               <> config (this (synced_world plain_hosts))) by (vm_compute; discriminate).
  destruct (settings_changed_reconnects plain_hosts _ (synced_world plain_hosts) H)
    as (A & B & _ & C & _).
  destruct (settings_changed_reconnects plain_hosts _ (synced_world plain_hosts) H')
    as (A' & B' & C' & _).
  fold w' in A, B, C. fold v' in A', B', C'.
  split; [rewrite A; vm_compute; reflexivity|].
  split; [rewrite A; reflexivity|].
  split; [rewrite B; vm_compute; reflexivity|].
  split.
  { replace 1%nat with (length (sockets (synced_world plain_hosts)))
      by (vm_compute; reflexivity).
    apply C. vm_compute. reflexivity. }
  split; [rewrite A'; vm_compute; reflexivity|].
  split; [rewrite B'; vm_compute; reflexivity|].
  rewrite C'. vm_compute. reflexivity.
Defined.

Lemma reachable_invariants_witness :
  let w := default initial_world (run plain_hosts overlapping_sessions initial_world) in
  host (this w) = "10.0.0.2" /\ 1 <= port (this w) <= 65535.
Proof.
  intros w.
  assert (Hrun : run plain_hosts overlapping_sessions initial_world = Some w)
    by (vm_compute; reflexivity).
  destruct (reachable_invariants plain_hosts overlapping_sessions w Hrun) as (_ & _ & A).
  split; [vm_compute; reflexivity | exact A].
Defined.

Lemma liveness_failure_reconnects_witness :
  exists w',
    step plain_hosts (SocketClose 0) (ping_tick (awaiting_world plain_hosts)) = Some w'
    /\ timers w' = [(2%nat, ReconnectTimer 1000)].
Proof.
  assert (Hrun : run plain_hosts [Initialize (mkSettings None None None); SocketOpen 0; TimerFires 0]
                     initial_world = Some (awaiting_world plain_hosts)) by (vm_compute; reflexivity).
  assert (H1 : ws (this (awaiting_world plain_hosts)) = Some 0%nat) by (vm_compute; reflexivity).
  assert (H2 : is_open 0 (awaiting_world plain_hosts) = true) by (vm_compute; reflexivity).
  assert (H3 : awaitingPong (this (awaiting_world plain_hosts)) = true) by (vm_compute; reflexivity).
  destruct (liveness_failure_reconnects plain_hosts _ (awaiting_world plain_hosts) 0%nat Hrun H1 H2 H3)
    as (w' & A & _).
  exists w'. split; [exact A|].
  vm_compute in A. injection A as <-. reflexivity.
Defined.

Lemma snapshot_replays_notifications_witness :
  let w := default initial_world (run plain_hosts overlapping_sessions initial_world) in
  emitted w <> []
  /\ state (this w) = replay (emitted w) (state initial_manager).
Proof.
  intros w.
  assert (Hrun : run plain_hosts overlapping_sessions initial_world = Some w)
    by (vm_compute; reflexivity).
  split; [vm_compute; discriminate|].
  exact (snapshot_replays_notifications plain_hosts overlapping_sessions w Hrun).
Defined.

Lemma notifications_report_changes_witness :
  let w := default initial_world (run plain_hosts session_then_disconnect initial_world) in
  length (emitted w) = 12%nat
  /\ genuine (emitted w) (state initial_manager) = true.
Proof.
  intros w.
  assert (Hrun : run plain_hosts session_then_disconnect initial_world = Some w)
    by (vm_compute; reflexivity).
  split; [vm_compute; reflexivity|].
  exact (notifications_report_changes plain_hosts session_then_disconnect w Hrun).
Defined.

Lemma unknown_frames_ignored_witness :
  on_message (Some (JStr "hello")) (synced_world plain_hosts) = (synced_world plain_hosts)
  /\ on_message (Some (JObj [("status", JStr "ok")])) (synced_world plain_hosts) = (synced_world plain_hosts)
  /\ on_message (Some (JObj [("data", JArr [JBool true])])) (synced_world plain_hosts) = (synced_world plain_hosts)
  /\ on_message (Some (JObj [("data", JObj [("device", JStr "input");
                                            ("muted", JStr "yes")])])) (synced_world plain_hosts)
     = (synced_world plain_hosts).
Proof.
  destruct (unknown_frames_ignored (synced_world plain_hosts)) as (_ & A & B & C).
  split; [apply A; reflexivity|]. split; [apply B; reflexivity|].
  split.
  - apply (C _ (JArr [JBool true])); [reflexivity | reflexivity|].
    left. discriminate.
  - apply (C _ (JObj [("device", JStr "input"); ("muted", JStr "yes")]));
      [reflexivity | reflexivity|].
    right. right. split; reflexivity.
Defined.

Lemma failure_frame_carries_no_state_witness :
  let msg := JObj [("success", JBool false);
                   ("data", JObj [("muted", JBool false); ("deafened", JBool true);
                                  ("recording", JBool false)])] in
  state (this (on_message (Some msg) (synced_world plain_hosts))) = state (this (synced_world plain_hosts))
  /\ emitted (on_message (Some msg) (synced_world plain_hosts)) = emitted (synced_world plain_hosts).
Proof.
  intros msg.
  destruct (failure_frame_carries_no_state msg (synced_world plain_hosts) eq_refl) as (A & B & _).
  split; [exact A | exact B].
Defined.

Lemma key_icons_need_no_other_event_witness :
  let frame := SocketMessage 0 (Some (JObj [("data", JObj [("device", JStr "input");
                                                         ("muted", JBool false)])])) in
  exists w' evs,
    run plain_hosts [frame] (synced_world plain_hosts) = Some w'
    /\ emitted w' = emitted (synced_world plain_hosts) ++ evs
    /\ evs = [inputMuteChanged (Some false)]
    /\ DeafenAction_getIcon (state (this w')) = icons.headphonesOn
    /\ RecordAction_getIcon (state (this w')) = icons.recordOn.
Proof.
  intros frame.
  destruct (run plain_hosts [frame] (synced_world plain_hosts)) as [w'|] eqn:Hrun;
    [|vm_compute in Hrun; discriminate Hrun].
  destruct (key_icons_need_no_other_event plain_hosts [frame] (synced_world plain_hosts) w' Hrun)
    as (evs & A & B & C).
  exists w', evs.
  assert (Hevs : evs = [inputMuteChanged (Some false)]).
  { vm_compute in Hrun. injection Hrun as <-. vm_compute in A.
    injection A as <-. reflexivity. }
  split; [reflexivity|]. split; [exact A|]. split; [exact Hevs|].
  rewrite Hevs in B, C.
  rewrite (B eq_refl), (C eq_refl). split; vm_compute; reflexivity.
Defined.

Lemma keys_show_disconnected_witness :
  let st := state (this (default initial_world (run plain_hosts overlapping_sessions initial_world))) in
  inputMuted st = Some true
  /\ DeafenAction_getIcon st = icons.headphonesDisconnected
  /\ RecordAction_getIcon st = icons.recordDisconnected.
Proof.
  intros st.
  assert (Hc : connected st = false) by (vm_compute; reflexivity).
  destruct (keys_show_disconnected initial_world st) as (A & _).
  split; [vm_compute; reflexivity | exact (A Hc)].
Defined.

Lemma key_press_feedback_witness :
  let msg := JObj [("success", JBool false); ("error", JStr "denied")] in
  fst (DeafenAction_onKeyDown 5%nat (synced_world plain_hosts)) = false
  /\ invoked (on_message (Some msg) (snd (DeafenAction_onKeyDown 5%nat (synced_world plain_hosts))))
     = invoked (synced_world plain_hosts) ++ [5%nat]
  /\ RecordAction_onKeyDown 5%nat initial_world = (true, initial_world).
Proof.
  intros msg.
  assert (Ho : session_open (synced_world plain_hosts) = true) by (vm_compute; reflexivity).
  assert (Hc : session_open initial_world = false) by (vm_compute; reflexivity).
  destruct (key_press_feedback plain_hosts 5%nat (synced_world plain_hosts) msg eq_refl eq_refl) as [A _].
  destruct (key_press_feedback plain_hosts 5%nat initial_world msg eq_refl eq_refl) as [_ B].
  destruct (A Ho) as (A1 & _ & _ & _ & A5 & _).
  destruct (B Hc) as (_ & B2 & _).
  split; [exact A1 | split; [exact A5 | exact B2]].
Defined.

Lemma close_leaves_pending_reconnect_witness :
  let w := set_readyState 2 CLOSED
             (default initial_world
                (run plain_hosts (firstn 7 superseding_connect) initial_world)) in
  pending_timer 5 w = Some (ReconnectTimer 2000)
  /\ timers (on_close w) = [(5%nat, ReconnectTimer 2000); (6%nat, ReconnectTimer 4000)]
  /\ reconnectTimer (this (on_close w)) = Some 6%nat.
Proof.
  intros w.
  assert (H1 : intentionalClose (this w) = false) by (vm_compute; reflexivity).
  assert (H2 : pending_timer 5 w = Some (ReconnectTimer 2000)) by (vm_compute; reflexivity).
  assert (H3 : pingTimer (this w) <> Some 5%nat) by (vm_compute; discriminate).
  assert (H4 : stableTimer (this w) <> Some 5%nat) by (vm_compute; discriminate).
  assert (H5 : (5 < next_timer w)%nat) by (vm_compute; lia).
  destruct (close_leaves_pending_reconnect w 5%nat 2000 H1 H2 H3 H4 H5)
    as (_ & A & _).
  split; [exact H2|]. split; [vm_compute; reflexivity|].
  assert (N : next_timer w = 6%nat) by (vm_compute; reflexivity).
  rewrite N in A. exact A.
Defined.

Lemma non_numeric_port_accepted_witness :
  let s := mkSettings None (Some "80abc") None in
  is_numeric "80abc" = false
  /\ port (this (snd (applySettings s initial_world))) = 80
  /\ 80 <> DEFAULT_PORT.
Proof.
  intros s. split; [reflexivity|]. split; [|discriminate].
  apply (non_numeric_port_accepted s initial_world "80abc" 80);
    [reflexivity | reflexivity | reflexivity | lia].
Defined.

Lemma frame_fills_disconnected_snapshot_witness :
  let w := default initial_world
             (run plain_hosts (removelast overlapping_sessions) initial_world) in
  connected (state (this w)) = false
  /\ inputMuted (state (this w)) = None
  /\ exists w',
       run plain_hosts overlapping_sessions initial_world = Some w'
       /\ connected (state (this w')) = false
       /\ inputMuted (state (this w')) = Some true.
Proof.
  intros w.
  assert (Hc : connected (state (this w)) = false) by (vm_compute; reflexivity).
  assert (Ho : is_open 2 w = true) by (vm_compute; reflexivity).
  destruct (frame_fills_disconnected_snapshot plain_hosts w 2%nat true Hc Ho)
    as (w' & S & A & B & _).
  split; [exact Hc|]. split; [vm_compute; reflexivity|].
  exists w'. split; [|split; assumption].
  rewrite <- S. vm_compute. reflexivity.
Defined.

Lemma stale_stability_timer_resets_backoff_witness :
  let w := set_readyState 4 CLOSED
             (default initial_world
                (run plain_hosts (firstn 12 stale_stable_timer) initial_world)) in
  stableTimer (this w) = None
  /\ connected (state (this w)) = false
  /\ backoffAttempts (this w) = 4%nat
  /\ timers (on_close w)
     = [(3%nat, PingTimer 15000); (4%nat, StableTimer 30000);
        (9%nat, ReconnectTimer 8000); (10%nat, ReconnectTimer 16000)]
  /\ (exists w2, step plain_hosts (TimerFires 4) (on_close w) = Some w2
                 /\ connected (state (this w2)) = false
                 /\ backoffAttempts (this w2) = 0%nat)
  /\ (timers <$> run plain_hosts stale_stable_timer initial_world)
     = Some [(3%nat, PingTimer 15000); (10%nat, ReconnectTimer 16000);
             (11%nat, ReconnectTimer 1000)].
Proof.
  intros w.
  assert (H1 : pending_timer 4 w = Some (StableTimer 30000)) by (vm_compute; reflexivity).
  assert (H2 : pingTimer (this w) <> Some 4%nat) by (vm_compute; discriminate).
  assert (H3 : stableTimer (this w) <> Some 4%nat) by (vm_compute; discriminate).
  assert (H4 : intentionalClose (this w) = false) by (vm_compute; reflexivity).
  destruct (stale_stability_timer_resets_backoff plain_hosts w 4%nat 30000 H1 H2 H3 H4)
    as (_ & _ & _ & _ & w2 & A & B & C & _).
  split; [vm_compute; reflexivity|]. split; [vm_compute; reflexivity|].
  split; [vm_compute; reflexivity|]. split; [vm_compute; reflexivity|].
  split; [exists w2; split; [exact A | split; [exact B | exact C]]|].
  vm_compute. reflexivity.
Defined.

Lemma close_after_settings_change_witness :
  let s := mkSettings (Some "10.0.0.2") None None in
  let w1 := on_settings plain_hosts s (synced_world plain_hosts) in
  ws (this w1) = Some 1%nat
  /\ exists w',
       step plain_hosts (SocketClose 0) w1 = Some w'
       /\ ws (this w') = None
       /\ readyState 1 w' = Some CONNECTING
       /\ timers w' = [(2%nat, ReconnectTimer 1000)].
Proof.
  intros s w1.
  assert (H : resolved s <> config (this (synced_world plain_hosts)))
    by (vm_compute; discriminate).
  assert (H1 : ws (this (synced_world plain_hosts)) = Some 0%nat)
    by (vm_compute; reflexivity).
  assert (H2 : readyState 0 (synced_world plain_hosts) = Some OPEN)
    by (vm_compute; reflexivity).
  assert (H3 : OPEN <> CLOSED) by discriminate.
  assert (Hok : plain_hosts (fst (fst (resolved s))) (snd (fst (resolved s))) = true)
    by (vm_compute; reflexivity).
  destruct (close_after_settings_change plain_hosts s (synced_world plain_hosts)
              0%nat OPEN H H1 H2 H3) as (_ & _ & w' & A & B & _ & _ & C).
  destruct (C Hok) as [C1 C2]. fold w1 in A, C1.
  split; [rewrite C1; vm_compute; reflexivity|].
  exists w'. split; [exact A|]. split; [exact B|].
  split; [replace 1%nat with (length (sockets (synced_world plain_hosts)))
            by (vm_compute; reflexivity); exact C2|].
  vm_compute in A. injection A as <-. reflexivity.
Defined.
